(** * LAMA: filesystem-coordinated population-average construction

    A shallow embedding of [lama/registration_pipeline/parallel_average.py]
    ([make_avg], [check_stage_done], [run_elastix_stage]) over an explicit
    model of the shared filesystem, and the properties of the coordination
    protocol proved against it.

    Every worker process executes [run_elastix_stage]; the only thing the
    workers share is the filesystem.  A worker is a small-step machine whose
    program points are the statements of the source that touch the filesystem
    or call an external collaborator; a system is a filesystem together with
    a list of workers, run under an arbitrary interleaving. *)

From stdpp Require Import base option list strings gmap fin_maps fin_sets.

Local Open Scope string_scope.
Local Open Scope list_scope.

(** ** Paths and the filesystem *)

(** A [pathlib.Path] is its list of components; [d / name] appends one. *)
Definition path := list string.

Definition pjoin (d : path) (name : string) : path := d ++ [name].
Infix "//" := pjoin (at level 40, left associativity).

(** [Path.parent] and [Path.name]. *)
Definition parent (p : path) : path := removelast p.
Definition name (p : path) : string := List.last p "".

Inductive node := File | Dir.

Global Instance node_eq_dec : EqDecision node.
Proof. solve_decision. Defined.

(** The filesystem maps every existing path to the kind of its entry.
    Entries carry no content: a marker's existence is its whole payload, and
    the voxel data of a volume is not inspected by the coordinator. *)
Abbreviation FileSystem := (gmap path node).

(** [os.stat]: the root always exists and is a directory. *)
Definition stat (fs : FileSystem) (p : path) : option node :=
  match p with
  | [] => Some Dir
  | _ => fs !! p
  end.

Definition is_file (fs : FileSystem) (p : path) : bool :=
  bool_decide (stat fs p = Some File).
Definition is_dir (fs : FileSystem) (p : path) : bool :=
  bool_decide (stat fs p = Some Dir).

(** The exceptions the coordinator can meet. *)
Inductive exn :=
| FileExistsError
| FileNotFoundError
| NotADirectoryError
| IsADirectoryError
| KeyError
| IndexError
| UnboundLocalError
| RegistrationError   (* raised by the registration engine *)
| AverageError.       (* raised by [common.average] / [sitk.WriteImage] *)

Global Instance exn_eq_dec : EqDecision exn.
Proof. solve_decision. Defined.

(** Resolution of the directory that is to hold a new entry. *)
Definition resolve_parent (fs : FileSystem) (p : path) : option exn :=
  match stat fs (parent p) with
  | Some Dir => None
  | Some File => Some NotADirectoryError
  | None => Some FileNotFoundError
  end.

(** [open(p, 'x')]: atomic create-if-absent (O_CREAT|O_EXCL). *)
Definition open_x (fs : FileSystem) (p : path) : exn + FileSystem :=
  match resolve_parent fs p with
  | Some e => inl e
  | None =>
      match stat fs p with
      | Some _ => inl FileExistsError
      | None => inr (<[p := File]> fs)
      end
  end.

(** [open(p, 'w')], also the effect of [sitk.WriteImage(img, p)]. *)
Definition open_w (fs : FileSystem) (p : path) : exn + FileSystem :=
  match resolve_parent fs p with
  | Some e => inl e
  | None =>
      match stat fs p with
      | Some Dir => inl IsADirectoryError
      | Some File => inr fs
      | None => inr (<[p := File]> fs)
      end
  end.

(** [p.mkdir(exist_ok=True)]. *)
Definition mkdir_exist_ok (fs : FileSystem) (p : path) : exn + FileSystem :=
  match stat fs p with
  | Some Dir => inr fs
  | Some File => inl FileExistsError
  | None =>
      match resolve_parent fs p with
      | Some e => inl e
      | None => inr (<[p := Dir]> fs)
      end
  end.

(** [p.mkdir(exist_ok=True, parents=True)]: the missing ancestors are made
    first, outermost first. *)
Fixpoint makedirs (fs : FileSystem) (done : path) (todo : list string) : exn + FileSystem :=
  match todo with
  | [] => inr fs
  | c :: todo' =>
      match mkdir_exist_ok fs (done // c) with
      | inl FileExistsError =>
          inl (if todo' is [] then FileExistsError else NotADirectoryError)
      | inl e => inl e
      | inr fs' => makedirs fs' (done // c) todo'
      end
  end.

Definition mkdir_parents (fs : FileSystem) (p : path) : exn + FileSystem := makedirs fs [] p.

(** [d.iterdir()]: the entries directly under [d], in the order the
    filesystem lists them. *)
Definition iterdir (fs : FileSystem) (d : path) : list path :=
  filter (λ p, p ≠ [] ∧ parent p = d) (map fst (map_to_list fs)).

(** ** The Average Builder and the barrier test *)

(** Lines 28-32: the loop of [make_avg] collecting the volumes to average. *)
Fixpoint make_avg_loop (fs : FileSystem) (entries : list path)
    (paths : list path) : list path :=
  match entries with
  | [] => paths
  | spec_dir :: rest =>
      if negb (is_dir fs spec_dir) then make_avg_loop fs rest paths
      else make_avg_loop fs rest
             (paths ++ [spec_dir // (name spec_dir +:+ ".nrrd")])
  end.

Definition make_avg_paths (fs : FileSystem) (root_dir : path) : list path :=
  make_avg_loop fs (iterdir fs root_dir) [].

(** Modelled from the spec: [common.average] is not part of the sources at
    hand.  The Average Builder's contract is "failure if volumes are absent
    or shapes mismatch": the call succeeds when every listed volume is a file
    and the volumes agree in shape; [shapes_ok] stands for the latter, which
    depends on voxel data the filesystem model does not carry. *)
Definition common_average (fs : FileSystem) (shapes_ok : bool)
    (paths : list path) : bool :=
  forallb (is_file fs) paths && shapes_ok.

(** [make_avg(root_dir, out_path)], lines 26-37. *)
Definition make_avg (shapes_ok : bool) (fs : FileSystem)
    (root_dir out_path : path) : exn + FileSystem :=
  let paths := make_avg_paths fs root_dir in
  if common_average fs shapes_ok paths then open_w fs out_path
  else inl AverageError.

(** [check_stage_done(root_dir)], lines 40-46. *)
Fixpoint check_stage_done_loop (fs : FileSystem) (entries : list path) : bool :=
  match entries with
  | [] => true
  | spec_dir :: rest =>
      if negb (is_dir fs spec_dir) then check_stage_done_loop fs rest
      else if negb (is_file fs (spec_dir // "spec_done")) then false
      else check_stage_done_loop fs rest
  end.

Definition check_stage_done (fs : FileSystem) (root_dir : path) : bool :=
  check_stage_done_loop fs (iterdir fs root_dir).

(** ** Configuration and the arguments of a run *)

(** The parts of [LamaConfig] the coordinator reads.
    [registration_stage_params] keeps the [stage_id] of each stage;
    [stage_dirs] is the ordered dictionary from stage id to stage directory. *)
Record LamaConfig := {
  fixed_volume : path;
  registration_stage_params : list string;
  stage_dirs : list (string * path);
}.

(** [d[k]] on an ordered dictionary. *)
Fixpoint dict_get {V} (d : list (string * V)) (k : string) : option V :=
  match d with
  | [] => None
  | (k', v) :: d' => if decide (k' = k) then Some v else dict_get d' k
  end.

(** What [run_elastix_stage] is called with.  [spec_ids] is the list computed
    on line 69 from the listing of [inputs_dir]; [ELX_PARAM_PREFIX] is the
    constant imported from [run_lama]. *)
Record Job := {
  inputs_dir : path;
  out_dir : path;
  config : LamaConfig;
  spec_ids : list string;
  ELX_PARAM_PREFIX : string;
}.

Definition avg_dir (J : Job) : path := out_dir J // "averages".
Definition starting_avg (stage_dir : path) : path := stage_dir // "avg_started".
Definition average_done (stage_dir : path) : path := stage_dir // "avg_done".
Definition average_path (J : Job) (stage_id : string) : path :=
  avg_dir J // (stage_id +:+ ".nrrd").
Definition spec_done (stage_dir : path) (spec_id : string) : path :=
  stage_dir // spec_id // "spec_done".

(** ** One worker as a small-step machine *)

(** Program points of [run_elastix_stage], named by source line. *)
Inductive label :=
| L61_mkdir_avg_dir      (* lines 58-69 *)
| L71_next_stage         (* lines 71-81: loop header, stage_dir.mkdir *)
| L86_select             (* lines 86-90 *)
| L94_barrier            (* lines 93-97 *)
| L99_avg_done           (* lines 99-100 *)
| L102_avg_started       (* lines 102-103 *)
| L106_open_started      (* lines 105-108 *)
| L111_make_avg          (* lines 110-111 *)
| L112_open_done         (* lines 112-113 *)
| L114_sleep             (* line 114 *)
| L117_inputs            (* lines 117-123 *)
| L129_param_file        (* lines 126-132 *)
| L148_run               (* lines 138-148: run() starts, makes its directory *)
| L148_running           (* line 148: the engine runs and writes its output *)
| L150_spec_done         (* lines 149-150 *)
| Returned
| Raised (e : exn).

Global Instance label_eq_dec : EqDecision label.
Proof. solve_decision. Defined.

(** The local variables of [run_elastix_stage]. *)
Record worker := {
  pc : label;
  i : nat;
  stage_id : string;
  stage_dir : path;
  next_spec_id : option string;
  fixed_vol : path;
  moving : path;
}.

Definition goto (l : label) (w : worker) : worker :=
  {| pc := l; i := i w; stage_id := stage_id w; stage_dir := stage_dir w;
     next_spec_id := next_spec_id w; fixed_vol := fixed_vol w;
     moving := moving w |}.

Definition raise (e : exn) (w : worker) : worker := goto (Raised e) w.

(** [break]: leave the work loop of this stage; the [for] loop advances. *)
Definition break_stage (w : worker) : worker :=
  {| pc := L71_next_stage; i := S (i w); stage_id := stage_id w;
     stage_dir := stage_dir w; next_spec_id := next_spec_id w;
     fixed_vol := fixed_vol w; moving := moving w |}.

Definition elxparam_path (J : Job) (w : worker) : path :=
  stage_dir w // (ELX_PARAM_PREFIX J +:+ stage_id w +:+ ".txt").

(** What a worker does that is visible from outside: sleeping, calling the
    registration engine, calling [make_avg], and the outcome of each
    exclusive creation ([None]: created). *)
Inductive event :=
| EvSleep
| EvRun (elxparam moving_vol stage fixed : path)
| EvMakeAvg (root_dir out_path : path)
| EvOpenX (p : path) (outcome : option exn).

Global Instance event_eq_dec : EqDecision event.
Proof. solve_decision. Defined.

(** What the environment decides at a step: which worker runs, which element
    [list(not_started)[0]] turns out to be, and whether the external
    collaborator called at this step (registration engine, averaging)
    succeeds. *)
Record sched := { who : nat; pick : nat; ext_ok : bool }.

(** Line 86. *)
Definition spec_stage_dirs (fs : FileSystem) (d : path) : list string :=
  name <$> filter (λ x, is_dir fs x = true) (iterdir fs d).

(** Line 87. *)
Definition not_started (J : Job) (fs : FileSystem) (d : path) : gset string :=
  list_to_set (spec_ids J) ∖ list_to_set (spec_stage_dirs fs d).

(** Line 90: some element of a set; which one is up to the environment. *)
Definition first_of (c : sched) (s : gset string) : option string :=
  elements s !! (pick c `mod` length (elements s)).

Definition set_next_spec_id (s : string) (w : worker) : worker :=
  {| pc := L117_inputs; i := i w; stage_id := stage_id w;
     stage_dir := stage_dir w; next_spec_id := Some s;
     fixed_vol := fixed_vol w; moving := moving w |}.

Definition set_volumes (mv fx : path) (w : worker) : worker :=
  {| pc := L129_param_file; i := i w; stage_id := stage_id w;
     stage_dir := stage_dir w; next_spec_id := next_spec_id w;
     fixed_vol := fx; moving := mv |}.

Definition enter_stage (sid : string) (sd : path) (w : worker) : worker :=
  {| pc := L86_select; i := i w; stage_id := sid; stage_dir := sd;
     next_spec_id := next_spec_id w; fixed_vol := fixed_vol w;
     moving := moving w |}.

Definition set_fixed_vol (fx : path) (w : worker) : worker :=
  {| pc := L71_next_stage; i := i w; stage_id := stage_id w;
     stage_dir := stage_dir w; next_spec_id := next_spec_id w;
     fixed_vol := fx; moving := moving w |}.

(** Lines 117-122: the moving and the fixed volume of the next registration. *)
Definition resolve_volumes (J : Job) (w : worker) (s : string)
    : option (path * path) :=
  match i w with
  | 0 => Some (inputs_dir J // (s +:+ ".nrrd"), fixed_vol w)
  | S j =>
      match (stage_dirs (config J)).*2 !! j, (stage_dirs (config J)).*1 !! j with
      | Some prev_dir, Some prev_id =>
          Some (prev_dir // s // (s +:+ ".nrrd"),
                avg_dir J // (prev_id +:+ ".nrrd"))
      | _, _ => None
      end
  end.

(** Modelled from the spec: [TargetBasedRegistration] is not part of the
    sources at hand.  Its [run()] "performs one specimen's registration and
    deposits an output volume"; "success implies the output volume has been
    written to a deterministic path under [working_dir]", and by the comment
    on line 149 the specimen's directory "gets created in .run()".  The call
    is long-running, so it takes two steps: [run_begin] makes the directory
    [stage_dir / spec_id], [run_end] writes [spec_id.nrrd] into it.  The
    engine may report failure at either step. *)
Definition run_begin (ok : bool) (fs : FileSystem) (stage : path)
    (s : string) : exn + FileSystem :=
  if ok then mkdir_exist_ok fs (stage // s) else inl RegistrationError.

Definition run_end (ok : bool) (fs : FileSystem) (stage : path)
    (s : string) : exn + FileSystem :=
  if ok then open_w fs (stage // s // (s +:+ ".nrrd"))
  else inl RegistrationError.

(** One step of [run_elastix_stage] from program point [pc w]. *)
Definition wstep (J : Job) (c : sched) (fs : FileSystem) (w : worker)
    : FileSystem * worker * list event :=
  match pc w with
  | L61_mkdir_avg_dir =>
      match mkdir_exist_ok fs (avg_dir J) with
      | inl e => (fs, raise e w, [])
      | inr fs' => (fs', set_fixed_vol (fixed_volume (config J)) w, [])
      end
  | L71_next_stage =>
      match registration_stage_params (config J) !! i w with
      | None => (fs, goto Returned w, [])
      | Some sid =>
          match dict_get (stage_dirs (config J)) sid with
          | None => (fs, raise KeyError w, [])
          | Some sd =>
              match mkdir_parents fs sd with
              | inl e => (fs, raise e w, [])
              | inr fs' => (fs', enter_stage sid sd w, [])
              end
          end
      end
  | L86_select =>
      let ns := not_started J fs (stage_dir w) in
      if bool_decide (0 < size ns) then
        match first_of c ns with
        | Some s => (fs, set_next_spec_id s w, [])
        | None => (fs, raise IndexError w, [])
        end
      else (fs, goto L94_barrier w, [])
  | L94_barrier =>
      if negb (check_stage_done fs (stage_dir w))
      then (fs, w, [EvSleep])
      else (fs, goto L99_avg_done w, [])
  | L99_avg_done =>
      if is_file fs (average_done (stage_dir w))
      then (fs, break_stage w, [])
      else (fs, goto L102_avg_started w, [])
  | L102_avg_started =>
      if is_file fs (starting_avg (stage_dir w))
      then (fs, goto L114_sleep w, [EvSleep])
      else (fs, goto L106_open_started w, [])
  | L106_open_started =>
      let marker := starting_avg (stage_dir w) in
      match open_x fs marker with
      | inl FileExistsError =>
          (fs, goto L114_sleep w, [EvOpenX marker (Some FileExistsError)])
      | inl e => (fs, raise e w, [EvOpenX marker (Some e)])
      | inr fs' => (fs', goto L111_make_avg w, [EvOpenX marker None])
      end
  | L111_make_avg =>
      let out := average_path J (stage_id w) in
      match make_avg (ext_ok c) fs (stage_dir w) out with
      | inl e => (fs, raise e w, [EvMakeAvg (stage_dir w) out])
      | inr fs' => (fs', goto L112_open_done w, [EvMakeAvg (stage_dir w) out])
      end
  | L112_open_done =>
      let marker := average_done (stage_dir w) in
      match open_x fs marker with
      | inl e => (fs, raise e w, [EvOpenX marker (Some e)])
      | inr fs' => (fs', break_stage w, [EvOpenX marker None])
      end
  | L114_sleep => (fs, goto L117_inputs w, [EvSleep])
  | L117_inputs =>
      match next_spec_id w with
      | None => (fs, raise UnboundLocalError w, [])
      | Some s =>
          match resolve_volumes J w s with
          | None => (fs, raise IndexError w, [])
          | Some (mv, fx) => (fs, set_volumes mv fx w, [])
          end
      end
  | L129_param_file =>
      if negb (is_file fs (elxparam_path J w)) then
        match open_w fs (elxparam_path J w) with
        | inl e => (fs, raise e w, [])
        | inr fs' => (fs', goto L148_run w, [])
        end
      else (fs, goto L148_run w, [])
  | L148_run =>
      let ev := EvRun (elxparam_path J w) (moving w) (stage_dir w) (fixed_vol w) in
      match next_spec_id w with
      | None => (fs, raise UnboundLocalError w, [])
      | Some s =>
          match run_begin (ext_ok c) fs (stage_dir w) s with
          | inl e => (fs, raise e w, [ev])
          | inr fs' => (fs', goto L148_running w, [ev])
          end
      end
  | L148_running =>
      match next_spec_id w with
      | None => (fs, raise UnboundLocalError w, [])
      | Some s =>
          match run_end (ext_ok c) fs (stage_dir w) s with
          | inl e => (fs, raise e w, [])
          | inr fs' => (fs', goto L150_spec_done w, [])
          end
      end
  | L150_spec_done =>
      match next_spec_id w with
      | None => (fs, raise UnboundLocalError w, [])
      | Some s =>
          let marker := spec_done (stage_dir w) s in
          match open_x fs marker with
          | inl e => (fs, raise e w, [EvOpenX marker (Some e)])
          | inr fs' => (fs', goto L86_select w, [EvOpenX marker None])
          end
      end
  | Returned => (fs, w, [])
  | Raised _ => (fs, w, [])
  end.

(** The state of a worker that has just been started. *)
Definition fresh_worker : worker :=
  {| pc := L61_mkdir_avg_dir; i := 0; stage_id := ""; stage_dir := [];
     next_spec_id := None; fixed_vol := []; moving := [] |}.

(** ** Several workers over one filesystem *)

Record system := {
  sys_fs : FileSystem;
  sys_workers : list worker;
  sys_trace : list (nat * event);
}.

(** Worker [who c] takes one step; its events are logged under its index. *)
Definition sys_step (J : Job) (s : system) (c : sched) : system :=
  match sys_workers s !! who c with
  | None => s
  | Some w =>
      let '(fs', w', evs) := wstep J c (sys_fs s) w in
      {| sys_fs := fs';
         sys_workers := <[who c := w']> (sys_workers s);
         sys_trace := sys_trace s ++ (pair (who c) <$> evs) |}
  end.

(** A run under a schedule. *)
Definition run (J : Job) (cs : list sched) (s : system) : system :=
  foldl (sys_step J) s cs.

(** [n] workers started on the filesystem [fs]. *)
Definition start (fs : FileSystem) (n : nat) : system :=
  {| sys_fs := fs; sys_workers := replicate n fresh_worker; sys_trace := [] |}.

(** * Vocabulary of the properties *)

(** A property of each worker relative to the filesystem. *)
Definition all_workers (P : FileSystem → worker → Prop) (s : system) : Prop :=
  ∀ k w, sys_workers s !! k = Some w → P (sys_fs s) w.

(** The stage id and directory the configuration gives to stage [j]
    (lines 73-75). *)
Definition stage_at (J : Job) (j : nat) : option (string * path) :=
  match registration_stage_params (config J) !! j with
  | None => None
  | Some sid =>
      match dict_get (stage_dirs (config J)) sid with
      | None => None
      | Some sd => Some (sid, sd)
      end
  end.

(** The program points inside the work loop of a stage. *)
Definition in_stage (l : label) : bool :=
  match l with
  | L61_mkdir_avg_dir | L71_next_stage | Returned | Raised _ => false
  | _ => true
  end.

(** The program points a worker reaches only through the barrier of its
    stage: the election with its builder branch, and the sleep of line 114. *)
Definition past_barrier (l : label) : bool :=
  match l with
  | L99_avg_done | L102_avg_started | L106_open_started | L111_make_avg
  | L112_open_done | L114_sleep => true
  | _ => false
  end.

(** The builder branch proper: the exclusive creation has been reached, or
    won. *)
Definition builder_branch (l : label) : bool :=
  match l with
  | L106_open_started | L111_make_avg | L112_open_done => true
  | _ => false
  end.

(** The program points at which [next_spec_id] is read. *)
Definition claiming (l : label) : bool :=
  match l with
  | L117_inputs | L129_param_file | L148_run | L148_running
  | L150_spec_done => true
  | _ => false
  end.

(** The program points of one registration, from the parameter file on. *)
Definition registering (l : label) : bool :=
  match l with
  | L129_param_file | L148_run | L148_running | L150_spec_done => true
  | _ => false
  end.

(** A worker that has stopped: [run_elastix_stage] returned or raised. *)
Definition stopped (l : label) : bool :=
  match l with
  | Returned | Raised _ => true
  | _ => false
  end.

(** What a worker knows after line 89 found nothing to start, and after the
    barrier let it through. *)
Definition barrier_inv (J : Job) (fs : FileSystem) (w : worker) : Prop :=
  (pc w = L94_barrier →
     ∀ s, s ∈ spec_ids J → is_dir fs (stage_dir w // s) = true) ∧
  (past_barrier (pc w) = true →
     ∀ s, s ∈ spec_ids J → is_file fs (spec_done (stage_dir w) s) = true).

(** The local variables agree with the configuration; the average is on disk
    before [avg_done] is created; every stage the worker has left has its
    [avg_done]. *)
Definition stage_inv (J : Job) (fs : FileSystem) (w : worker) : Prop :=
  (in_stage (pc w) = true → stage_at J (i w) = Some (stage_id w, stage_dir w)) ∧
  (pc w = L112_open_done → is_file fs (average_path J (stage_id w)) = true) ∧
  (∀ j sid sd, (j < i w)%nat → stage_at J j = Some (sid, sd) →
     is_file fs (average_done sd) = true).

(** During a registration [moving] and [fixed_vol] are what lines 117-122
    computed for the claimed specimen in the current stage. *)
Definition volumes_inv (J : Job) (w : worker) : Prop :=
  (pc w = L71_next_stage ∨ in_stage (pc w) = true →
     i w = 0 → fixed_vol w = fixed_volume (config J)) ∧
  (registering (pc w) = true →
     ∃ s, next_spec_id w = Some s ∧
          resolve_volumes J w s = Some (moving w, fixed_vol w)).

(** While the marker of [sid] in [d] is withheld, no worker is about to
    register [sid] in [d]. *)
Definition claim_inv (d : path) (sid : string) (w : worker) : Prop :=
  claiming (pc w) = true → stage_dir w = d → next_spec_id w ≠ Some sid.

(** The last character of a string. *)
Fixpoint last_char (s : string) : option Ascii.ascii :=
  match s with
  | EmptyString => None
  | String a EmptyString => Some a
  | String _ s' => last_char s'
  end.

(** Counting in traces and among workers. *)
Fixpoint countb {A} (f : A → bool) (l : list A) : nat :=
  match l with
  | [] => 0
  | x :: l' => (if f x then 1 else 0) + countb f l'
  end.

(** The successful exclusive creation of [p]. *)
Definition is_created (p : path) (e : event) : bool :=
  bool_decide (e = EvOpenX p None).

(** A call of [make_avg] on the stage directory [d]. *)
Definition is_make_avg (d : path) (e : event) : bool :=
  match e with
  | EvMakeAvg d' _ => bool_decide (d' = d)
  | _ => false
  end.

(** A call of the registration engine. *)
Definition is_run (e : event) : bool :=
  match e with
  | EvRun _ _ _ _ => true
  | _ => false
  end.

Definition created (p : path) (tr : list (nat * event)) : nat :=
  countb (λ e, is_created p e.2) tr.

Definition make_avg_calls (d : path) (tr : list (nat * event)) : nat :=
  countb (λ e, is_make_avg d e.2) tr.

(** A worker that won the election of [d] and has not yet called
    [make_avg]. *)
Definition builder (d : path) (w : worker) : bool :=
  match pc w with
  | L111_make_avg => bool_decide (stage_dir w = d)
  | _ => false
  end.

Definition election_inv (d : path) (s : system) : Prop :=
  (stat (sys_fs s) (starting_avg d) = None →
     created (starting_avg d) (sys_trace s) = 0) ∧
  (created (starting_avg d) (sys_trace s) ≤ 1)%nat ∧
  (make_avg_calls d (sys_trace s) + countb (builder d) (sys_workers s)
     ≤ created (starting_avg d) (sys_trace s))%nat.

(** Every path is created exclusively at most once. *)
Definition created_inv (p : path) (s : system) : Prop :=
  (stat (sys_fs s) p = None → created p (sys_trace s) = 0) ∧
  (created p (sys_trace s) ≤ 1)%nat.

(** The specimen [sid] has its directory in [d] but no completion marker,
    and the workers and the trace agree with that. *)
Definition withheld_inv (J : Job) (d : path) (sid : string) (s : system) : Prop :=
  is_file (sys_fs s) (spec_done d sid) = false ∧
  is_dir (sys_fs s) (d // sid) = true ∧
  all_workers (λ fs w, barrier_inv J fs w ∧ claim_inv d sid w) s ∧
  make_avg_calls d (sys_trace s) = 0.

(** The racers for the marker of [d]: the scheduled workers are distinct and
    each stands at the exclusive creation. *)
Definition racers (d : path) (s : system) (cs : list sched) : Prop :=
  NoDup (who <$> cs) ∧
  ∀ c, c ∈ cs → ∃ w, sys_workers s !! who c = Some w ∧
                     pc w = L106_open_started ∧ stage_dir w = d.

(** ** Test scenarios

    The three-specimen, one-stage and two-stage set-ups of the testable
    properties. *)

Definition lama_config (stages : list string) : LamaConfig :=
  {| fixed_volume := ["target"; "fixed.nrrd"];
     registration_stage_params := stages;
     stage_dirs := (λ sid, (sid, ["out"; sid])) <$> stages |}.

Definition job (stages : list string) : Job :=
  {| inputs_dir := ["in"]; out_dir := ["out"];
     config := lama_config stages;
     spec_ids := ["a"; "b"; "c"];
     ELX_PARAM_PREFIX := "elastix_params_" |}.

Definition job1 : Job := job ["rigid"].
Definition job2 : Job := job ["rigid"; "affine"].

Definition rigid : path := ["out"; "rigid"].

(** A specimen directory holding its registered volume and, when
    [done] is set, its completion marker. *)
Definition specimen_entries (d : path) (s : string) (done : bool)
    : list (path * node) :=
  [(d // s, Dir); (d // s // (s +:+ ".nrrd"), File)] ++
  (if done then [(spec_done d s, File)] else []).

(** Only the output directory exists. *)
Definition fs_clean : FileSystem := {[ ["out"] := Dir ]}.

(** Stage [rigid] with the specimens [a] and [b] complete, [c] not started. *)
Definition fs_two_of_three : FileSystem :=
  list_to_map ([(["out"], Dir); (rigid, Dir)] ++
    specimen_entries rigid "a" true ++ specimen_entries rigid "b" true).

(** As before, and [c] registered but without its marker. *)
Definition fs_withheld : FileSystem :=
  list_to_map ([(["out"], Dir); (rigid, Dir)] ++
    specimen_entries rigid "a" true ++ specimen_entries rigid "b" true ++
    specimen_entries rigid "c" false).

(** All three specimens complete, the election not yet held. *)
Definition fs_all_done : FileSystem :=
  list_to_map ([(["out"], Dir); (rigid, Dir)] ++
    specimen_entries rigid "a" true ++ specimen_entries rigid "b" true ++
    specimen_entries rigid "c" true).

(** All three specimens complete and [avg_started] left behind by a builder
    that has not (or never) finished. *)
Definition fs_stuck : FileSystem :=
  <[starting_avg rigid := File]> fs_all_done.

(** Worker [k] takes a step; the engine succeeds and line 90 picks the first
    element. *)
Definition go (k : nat) : sched := {| who := k; pick := 0; ext_ok := true |}.


(** Whether [run_elastix_stage] goes on: it has not raised. *)
Definition continues_normally (w : worker) : Prop := ∀ e, pc w ≠ Raised e.

(** Three workers brought to the exclusive creation of [avg_started], all
    specimens being complete: each has taken the six steps from its start
    to line 106. *)
Definition race_ready : system :=
  run job1 (mjoin (replicate 6 [go 0; go 1; go 2])) (start fs_all_done 3).

(** The filesystem and the workers of a system, without its trace. *)
Definition snapshot (s : system) : FileSystem * list worker :=
  (sys_fs s, sys_workers s).

(** A worker of [job1] in stage [rigid] that has claimed no specimen. *)
Definition idle_at (l : label) : worker :=
  {| pc := l; i := 0; stage_id := "rigid"; stage_dir := rigid;
     next_spec_id := None; fixed_vol := ["target"; "fixed.nrrd"];
     moving := [] |}.

(** Every [avg_done] marker on disk has the average of its stage beside
    it. *)
Definition averages_sound (J : Job) (fs : FileSystem) : Prop :=
  ∀ j sid sd, stage_at J j = Some (sid, sd) →
    is_file fs (average_done sd) = true →
    is_file fs (average_path J sid) = true.

(** No two stages share a directory. *)
Definition stage_dirs_distinct (J : Job) : Prop :=
  ∀ j j' sid sid' sd,
    stage_at J j = Some (sid, sd) → stage_at J j' = Some (sid', sd) →
    sid = sid'.

(** The worker of [job2] that has run stage [rigid] alone and stands at the
    head of the [for] loop again. *)
Definition after_rigid : worker :=
  {| pc := L71_next_stage; i := 1; stage_id := "rigid"; stage_dir := rigid;
     next_spec_id := Some "b"; fixed_vol := ["target"; "fixed.nrrd"];
     moving := ["in"; "b.nrrd"] |}.

(** Worker [k] takes [n] steps in a row. *)
Definition gos (k n : nat) : list sched := replicate n (go k).

(** Two workers select their specimen before either has started its
    registration, so both claim the same one; worker 0 then registers it
    and creates its marker, and worker 1 does the same after it. *)
Definition duplicate_claim : list sched :=
  gos 0 3 ++ gos 1 3 ++ gos 0 5 ++ gos 1 5.

(** Worker 0 registers [c] and [b], worker 1 registers [a] in between;
    worker 0 wins the election and is about to call [make_avg]; worker 1
    then finds [avg_started] and goes on for ten steps. *)
Definition builder_busy : list sched :=
  gos 0 8 ++ gos 1 8 ++ gos 0 6 ++ gos 0 5 ++ gos 1 10.

(** Stage [rigid] with [c] registered and its marker not yet written. *)
Definition fs_c_registered : FileSystem :=
  list_to_map ([(["out"], Dir); (rigid, Dir)] ++
    specimen_entries rigid "c" false).

(** A worker of [job1] whose registration of [s] has just returned. *)
Definition finishing (s : string) : worker :=
  {| pc := L150_spec_done; i := 0; stage_id := "rigid"; stage_dir := rigid;
     next_spec_id := Some s; fixed_vol := ["target"; "fixed.nrrd"];
     moving := ["in"; s +:+ ".nrrd"] |}.

(** The worker of [job2] about to start the engine on [c] in stage
    [affine]. *)
Definition affine_c : worker :=
  {| pc := L148_run; i := 1; stage_id := "affine";
     stage_dir := ["out"; "affine"]; next_spec_id := Some "c";
     fixed_vol := ["out"; "averages"; "rigid.nrrd"];
     moving := ["out"; "rigid"; "c"; "c.nrrd"] |}.

(** Stage [rigid] with [a] complete, [c] registered without its marker, and
    a directory [junk] that holds nothing. *)
Definition fs_stray : FileSystem :=
  list_to_map ([(["out"], Dir); (rigid, Dir); (rigid // "junk", Dir);
                (rigid // "notes.txt", File)] ++
    specimen_entries rigid "a" true ++ specimen_entries rigid "c" false).


(** ** Further vocabulary: order of events, directories, happy paths *)

(** The events [l] occur in the trace in this order. *)
Definition in_order (l tr : list (nat * event)) : Prop := sublist l tr.

(** Every worker inside a stage has its stage directory, every worker past
    line 61 the directory of the averages, and every worker whose engine has
    started the directory of its specimen. *)
Definition dirs_inv (J : Job) (fs : FileSystem) (w : worker) : Prop :=
  (in_stage (pc w) = true → is_dir fs (stage_dir w) = true) ∧
  (pc w = L71_next_stage ∨ in_stage (pc w) = true →
     is_dir fs (avg_dir J) = true) ∧
  (match pc w with L148_running | L150_spec_done => True | _ => False end →
     ∃ s, next_spec_id w = Some s ∧ is_dir fs (stage_dir w // s) = true).

(** The program points at which the registration engine is, or has been,
    called for the claimed specimen. *)
Definition engine_called (l : label) : bool :=
  match l with
  | L148_running | L150_spec_done => true
  | _ => false
  end.

(** From line 148 on the parameter file of the stage is on disk. *)
Definition param_inv (J : Job) (fs : FileSystem) (w : worker) : Prop :=
  (pc w = L148_run ∨ engine_called (pc w) = true) →
  is_file fs (elxparam_path J w) = true.

(** A worker that has won the election of [d]: it is about to call
    [make_avg], or about to create [avg_done]. *)
Definition elected (d : path) (w : worker) : bool :=
  match pc w with
  | L111_make_avg | L112_open_done => bool_decide (stage_dir w = d)
  | _ => false
  end.

(** [avg_started] of [d] exists without this run having created it, so no
    worker of this run is or was elected and [avg_done] is still missing. *)
Definition stuck_inv (d : path) (s : system) : Prop :=
  is_Some (stat (sys_fs s) (starting_avg d)) ∧
  created (starting_avg d) (sys_trace s) = 0 ∧
  make_avg_calls d (sys_trace s) = 0 ∧
  is_file (sys_fs s) (average_done d) = false ∧
  ∀ w, w ∈ sys_workers s → elected d w = false.

(** The average of a stage is built in this order, by one worker [k]:
    [avg_started] is created, [make_avg] is called, [avg_done] is
    created. *)
Definition build_order_inv (s : system) : Prop :=
  (∀ k w, sys_workers s !! k = Some w → pc w = L111_make_avg →
     in_order [(k, EvOpenX (starting_avg (stage_dir w)) None)] (sys_trace s)) ∧
  (∀ k w, sys_workers s !! k = Some w → pc w = L112_open_done →
     ∃ out, in_order [(k, EvOpenX (starting_avg (stage_dir w)) None);
                      (k, EvMakeAvg (stage_dir w) out)] (sys_trace s)) ∧
  (∀ k d, (k, EvOpenX (average_done d) None) ∈ sys_trace s →
     ∃ out, in_order [(k, EvOpenX (starting_avg d) None);
                      (k, EvMakeAvg d out);
                      (k, EvOpenX (average_done d) None)] (sys_trace s)).

(** A completion marker is preceded by the call of the registration engine:
    a worker whose engine runs or has returned has logged the call for its
    specimen, and every creation of a [spec_done] follows such a call by the
    same worker in the same stage directory. *)
Definition run_order_inv (J : Job) (s : system) : Prop :=
  (∀ k w, sys_workers s !! k = Some w → engine_called (pc w) = true →
     ∃ sid, next_spec_id w = Some sid ∧
            name (moving w) = sid +:+ ".nrrd" ∧
            in_order [(k, EvRun (elxparam_path J w) (moving w) (stage_dir w)
                            (fixed_vol w))] (sys_trace s)) ∧
  (∀ k d sid, (k, EvOpenX (spec_done d sid) None) ∈ sys_trace s →
     ∃ elx mv fx,
       name mv = sid +:+ ".nrrd" ∧
       in_order [(k, EvRun elx mv d fx);
                 (k, EvOpenX (spec_done d sid) None)] (sys_trace s)).

(** A call of the registration engine in the stage directory [d] on the
    volume of specimen [sid]. *)
Definition is_run_of (d : path) (sid : string) (e : event) : bool :=
  match e with
  | EvRun _ mv sd _ =>
      bool_decide (sd = d) && bool_decide (name mv = sid +:+ ".nrrd")
  | _ => false
  end.

Definition runs_of (d : path) (sid : string) (tr : list (nat * event)) : nat :=
  countb (λ e, is_run_of d sid e.2) tr.



(** A worker running alone: it takes one step per entry of the schedule,
    nothing else touches the filesystem in between. *)
Fixpoint wrun (J : Job) (cs : list sched) (fs : FileSystem) (w : worker)
    : FileSystem * worker * list event :=
  match cs with
  | [] => (fs, w, [])
  | c :: cs' =>
      let '(fs1, w1, ev1) := wstep J c fs w in
      let '(fs2, w2, ev2) := wrun J cs' fs1 w1 in
      (fs2, w2, ev1 ++ ev2)
  end.

(** What the election needs to go through for a worker at line 99: the
    directories exist, neither marker does, every volume [make_avg] will
    list is on disk, and the average's path is free for a file. *)
Definition election_ready (J : Job) (fs : FileSystem) (w : worker) : Prop :=
  is_dir fs (stage_dir w) = true ∧
  is_dir fs (avg_dir J) = true ∧
  stat fs (starting_avg (stage_dir w)) = None ∧
  stat fs (average_done (stage_dir w)) = None ∧
  stat fs (average_path J (stage_id w)) ≠ Some Dir ∧
  ∀ nm, is_dir fs (stage_dir w // nm) = true →
        is_file fs (stage_dir w // nm // (nm +:+ ".nrrd")) = true.

(** All three specimens complete and the directory of the averages made
    (line 61), the election not yet held. *)
Definition fs_election : FileSystem :=
  list_to_map ([(["out"], Dir); (avg_dir job1, Dir); (rigid, Dir)] ++
    specimen_entries rigid "a" true ++ specimen_entries rigid "b" true ++
    specimen_entries rigid "c" true).

(** The number of stages of the configuration. *)
Definition n_stages (J : Job) : nat :=
  length (registration_stage_params (config J)).

(** What a worker has left behind: its loop index never exceeds the number
    of stages and reaches it when the function returns; every stage below
    the index resolved to a directory, in which every specimen of the input
    list has its completion marker. *)
Definition left_inv (J : Job) (fs : FileSystem) (w : worker) : Prop :=
  (i w ≤ n_stages J)%nat ∧
  (pc w = Returned → i w = n_stages J) ∧
  (∀ j, (j < i w)%nat →
     ∃ sid sd, stage_at J j = Some (sid, sd) ∧
       ∀ sp, sp ∈ spec_ids J → is_file fs (spec_done sd sp) = true).

(** The three invariants of a worker that the return of the function rests
    on. *)
Definition complete_inv (J : Job) (fs : FileSystem) (w : worker) : Prop :=
  barrier_inv J fs w ∧ stage_inv J fs w ∧ left_inv J fs w.

(** Nothing has happened but workers failing at line 61 with [e]: the
    filesystem is as it was, nothing is logged, and every worker either has
    not run yet or has raised [e] there. *)
Definition failed_at_start (fs0 : FileSystem) (e : exn) (s : system) : Prop :=
  sys_fs s = fs0 ∧ sys_trace s = [] ∧
  ∀ k w, sys_workers s !! k = Some w →
         w = fresh_worker ∨ w = raise e fresh_worker.

(** The workers a schedule lets run, among [n]. *)
Definition scheduled (n : nat) (cs : list sched) (k : nat) : Prop :=
  (k < n)%nat ∧ k ∈ who <$> cs.

(** The filesystem is a tree: whatever exists lies in a directory. *)
Definition no_orphans (fs : FileSystem) : Prop :=
  ∀ p, p ≠ [] → is_Some (stat fs p) → stat fs (parent p) = Some Dir.

(** The names the coordinator itself uses inside the directory of stage
    [sid]: the two election markers and the parameter file. *)
Definition reserved_names (J : Job) (sid : string) : list string :=
  ["avg_started"; "avg_done"; ELX_PARAM_PREFIX J +:+ sid +:+ ".txt"].

Definition reserved (J : Job) (w : worker) : list string :=
  reserved_names J (stage_id w).

(** The state of a stage in which a worker on its own gets through: the
    directories exist and the stage directory is not that of the averages;
    no specimen is named like a marker or the parameter file, or has a file
    in the place of its directory; each subdirectory of the stage directory
    holds its volume and its completion marker; no election was held; the
    parameter file and the average can be written. *)
Definition stage_ready (J : Job) (fs : FileSystem) (w : worker) : Prop :=
  stat fs (stage_dir w) = Some Dir ∧
  is_dir fs (avg_dir J) = true ∧
  stage_dir w ≠ avg_dir J ∧
  no_orphans fs ∧
  (i w ≤ length (stage_dirs (config J)))%nat ∧
  (∀ s, s ∈ spec_ids J →
     (s ∉ reserved J w) ∧ stat fs (stage_dir w // s) ≠ Some File) ∧
  (∀ nm, is_dir fs (stage_dir w // nm) = true →
     is_file fs (stage_dir w // nm // (nm +:+ ".nrrd")) = true ∧
     is_file fs (spec_done (stage_dir w) nm) = true) ∧
  stat fs (starting_avg (stage_dir w)) = None ∧
  stat fs (average_done (stage_dir w)) = None ∧
  stat fs (elxparam_path J w) ≠ Some Dir ∧
  stat fs (average_path J (stage_id w)) ≠ Some Dir.

(** The filesystem once the parameter file of the stage is written
    (lines 129-132). *)
Definition with_param (J : Job) (w : worker) (fs : FileSystem) : FileSystem :=
  match stat fs (elxparam_path J w) with
  | None => <[elxparam_path J w := File]> fs
  | Some _ => fs
  end.

(** The filesystem once specimen [s] is registered in [d] (lines 148-150). *)
Definition registered (d : path) (s : string) (fs : FileSystem) : FileSystem :=
  <[spec_done d s := File]>
    (<[d // s // (s +:+ ".nrrd") := File]> (<[d // s := Dir]> fs)).

(** Two states of a worker in the same stage. *)
Definition same_stage (w w' : worker) : Prop :=
  stage_dir w' = stage_dir w ∧ stage_id w' = stage_id w ∧ i w' = i w.

(** What a stage leaves alone: every path but the average of the stage and
    what lies one or two levels below the stage directory. *)
Definition stage_frame (J : Job) (w : worker) (fs fs' : FileSystem) : Prop :=
  ∀ q, q ≠ average_path J (stage_id w) → parent q ≠ stage_dir w →
       parent (parent q) ≠ stage_dir w → stat fs' q = stat fs q.

(** A [time.sleep(5)]. *)
Definition is_sleep (e : event) : bool :=
  match e with
  | EvSleep => true
  | _ => false
  end.

(** Stage [rigid] with [a] complete, the directory of the averages made,
    [b] and [c] not started. *)
Definition fs_resume : FileSystem :=
  list_to_map ([(["out"], Dir); (avg_dir job1, Dir); (rigid, Dir)] ++
    specimen_entries rigid "a" true).

(** The stage ids, in the order of the stages. *)
Definition stage_ids (J : Job) : list string :=
  registration_stage_params (config J).

(** The specimens of the input list, as a set. *)
Definition specimens (J : Job) : gset string := list_to_set (spec_ids J).

(** A configuration whose stage directories are the children
    [r / stage_id] of one directory [r]: the stage ids are distinct, the
    directory of the averages is neither [r] nor a stage directory, and no
    specimen bears a name the coordinator uses itself. *)
Definition layout (J : Job) (r : path) : Prop :=
  stage_dirs (config J) = (λ sid, (sid, r // sid)) <$> stage_ids J ∧
  NoDup (stage_ids J) ∧
  r ≠ avg_dir J ∧
  ∀ sid, sid ∈ stage_ids J →
    r // sid ≠ avg_dir J ∧ ∀ s, s ∈ spec_ids J → s ∉ reserved_names J sid.

(** The stages from [j] on find their place free: the filesystem is a
    tree, [r] and the directory of the averages exist, and for each such
    stage the stage directory is absent and the path of its average is no
    directory. *)
Definition run_ready (J : Job) (r : path) (fs : FileSystem) (j : nat) : Prop :=
  no_orphans fs ∧ is_dir fs (avg_dir J) = true ∧ stat fs r = Some Dir ∧
  ∀ k sid, (j ≤ k)%nat → stage_ids J !! k = Some sid →
    stat fs (r // sid) = None ∧ stat fs (average_path J sid) ≠ Some Dir.

(** An output directory in which no stage has been begun. *)
Definition fresh_output (J : Job) (r : path) (fs : FileSystem) : Prop :=
  no_orphans fs ∧ stat fs (out_dir J) = Some Dir ∧ stat fs r = Some Dir ∧
  stat fs (avg_dir J) ≠ Some File ∧
  ∀ sid, sid ∈ stage_ids J →
    stat fs (r // sid) = None ∧ stat fs (average_path J sid) ≠ Some Dir.

(** The steps a stage takes a worker on its own: one to enter it, six for
    each specimen, seven for the barrier and the election. *)
Definition stage_steps (J : Job) : nat := 6 * size (specimens J) + 8.

(** An output directory in which every stage is complete: every stage
    resolves to a directory that exists, holds a directory for each
    specimen, passes the barrier test and has its [avg_done]. *)
Definition complete_output (J : Job) (fs : FileSystem) : Prop :=
  no_orphans fs ∧ is_dir fs (avg_dir J) = true ∧
  ∀ j, (j < n_stages J)%nat →
    ∃ sid sd, stage_at J j = Some (sid, sd) ∧ is_dir fs sd = true ∧
      (∀ s, s ∈ spec_ids J → is_dir fs (sd // s) = true) ∧
      check_stage_done fs sd = true ∧
      is_file fs (average_done sd) = true.

(** The steps a worker has before it on a complete output directory. *)
Definition steps_left (J : Job) (w : worker) : nat :=
  match pc w with
  | L61_mkdir_avg_dir => 4 * n_stages J + 2
  | L71_next_stage => 4 * (n_stages J - i w) + 1
  | L86_select => 4 * (n_stages J - i w)
  | L94_barrier => 4 * (n_stages J - i w) - 1
  | L99_avg_done => 4 * (n_stages J - i w) - 2
  | _ => 0
  end.

(** Where a worker can be on a complete output directory. *)
Definition rerun_inv (J : Job) (w : worker) : Prop :=
  match pc w with
  | L61_mkdir_avg_dir => i w = 0
  | L71_next_stage => (i w ≤ n_stages J)%nat
  | L86_select | L94_barrier | L99_avg_done =>
      stage_at J (i w) = Some (stage_id w, stage_dir w)
  | Returned => True
  | _ => False
  end.

(** How often the schedule lets worker [k] run. *)
Definition sched_count (k : nat) (cs : list sched) : nat :=
  countb (λ c, bool_decide (who c = k)) cs.

(** Nothing has been touched or logged, and every worker is where a
    complete output directory lets it be. *)
Definition untouched (J : Job) (fs0 : FileSystem) (s : system) : Prop :=
  sys_fs s = fs0 ∧ sys_trace s = [] ∧
  ∀ k w, sys_workers s !! k = Some w → rerun_inv J w.

(** Stage [rigid] of [job1] complete: the three specimens, the average
    and the two election markers. *)
Definition fs_complete : FileSystem :=
  list_to_map ([(["out"], Dir); (avg_dir job1, Dir); (rigid, Dir)] ++
    specimen_entries rigid "a" true ++ specimen_entries rigid "b" true ++
    specimen_entries rigid "c" true ++
    [(starting_avg rigid, File); (average_path job1 "rigid", File);
     (average_done rigid, File)]).
(** * Properties *)

(** ** Paths *)

Lemma parent_pjoin d n : parent (d // n) = d.
Proof. apply removelast_last. Qed.

Lemma name_pjoin d n : name (d // n) = n.
Proof. apply last_last. Qed.

Lemma pjoin_nonempty d n : d // n ≠ [].
Proof. unfold pjoin. by destruct d. Qed.

Lemma pjoin_inj d1 n1 d2 n2 : d1 // n1 = d2 // n2 → d1 = d2 ∧ n1 = n2.
Proof. apply app_inj_tail. Qed.

Lemma path_split (p : path) : p ≠ [] → p = parent p // name p.
Proof. intros Hp. by apply app_removelast_last. Qed.

(** ** The filesystem only grows *)

Section filesystem.
Implicit Types (fs : FileSystem) (p d : path) (x : node).

Lemma stat_lookup fs p : p ≠ [] → stat fs p = fs !! p.
Proof. by destruct p. Qed.

Lemma stat_pjoin fs d n : stat fs (d // n) = fs !! (d // n).
Proof. apply stat_lookup, pjoin_nonempty. Qed.

Lemma stat_weaken fs fs' p x :
    fs ⊆ fs' → stat fs p = Some x → stat fs' p = Some x.
Proof.
    intros Hsub. destruct p; [done|]. simpl. intros Hx.
    by eapply lookup_weaken.
Qed.

Lemma is_file_true fs p : is_file fs p = true ↔ stat fs p = Some File.
Proof. unfold is_file. by rewrite bool_decide_eq_true. Qed.

Lemma is_dir_true fs p : is_dir fs p = true ↔ stat fs p = Some Dir.
Proof. unfold is_dir. by rewrite bool_decide_eq_true. Qed.

Lemma is_file_weaken fs fs' p :
    fs ⊆ fs' → is_file fs p = true → is_file fs' p = true.
Proof. rewrite !is_file_true. apply stat_weaken. Qed.

Lemma is_dir_weaken fs fs' p :
    fs ⊆ fs' → is_dir fs p = true → is_dir fs' p = true.
Proof. rewrite !is_dir_true. apply stat_weaken. Qed.

Lemma stat_None_insert fs p x : stat fs p = None → fs ⊆ <[p:=x]> fs.
Proof.
    intros Hp. apply insert_subseteq. destruct p; [done|]. exact Hp.
Qed.

Lemma stat_insert fs p x : p ≠ [] → stat (<[p:=x]> fs) p = Some x.
Proof. intros Hp. rewrite stat_lookup by done. apply lookup_insert_eq. Qed.

(** Exclusive creation succeeds exactly when the entry is absent and its
      directory exists; it then adds the entry and nothing else. *)
Lemma open_x_inr fs p fs' :
    open_x fs p = inr fs' ↔
    stat fs (parent p) = Some Dir ∧ stat fs p = None ∧ fs' = <[p:=File]> fs.
Proof.
    unfold open_x, resolve_parent. split.
    - intros H. repeat case_match; naive_solver.
    - intros (-> & -> & ->). done.
Qed.

Lemma open_x_exists fs p x :
    stat fs (parent p) = Some Dir → stat fs p = Some x →
    open_x fs p = inl FileExistsError.
Proof. unfold open_x, resolve_parent. by intros -> ->. Qed.

Lemma open_x_mono fs p fs' : open_x fs p = inr fs' → fs ⊆ fs'.
Proof. rewrite open_x_inr. intros (_ & ? & ->). by apply stat_None_insert. Qed.

Lemma open_x_is_file fs p fs' : open_x fs p = inr fs' → is_file fs' p = true.
Proof.
    rewrite open_x_inr. intros (_ & Hp & ->). rewrite is_file_true.
    apply stat_insert. by intros ->.
Qed.

Lemma open_w_mono fs p fs' : open_w fs p = inr fs' → fs ⊆ fs'.
Proof.
    unfold open_w. intros H. repeat case_match; simplify_eq; [done|].
    by apply stat_None_insert.
Qed.

Lemma open_w_is_file fs p fs' : open_w fs p = inr fs' → is_file fs' p = true.
Proof.
    unfold open_w. intros H. rewrite is_file_true.
    repeat case_match; simplify_eq; [done|].
    apply stat_insert. by intros ->.
Qed.

Lemma mkdir_exist_ok_mono fs p fs' : mkdir_exist_ok fs p = inr fs' → fs ⊆ fs'.
Proof.
    unfold mkdir_exist_ok. intros H. repeat case_match; simplify_eq; [done|].
    by apply stat_None_insert.
Qed.

Lemma mkdir_exist_ok_is_dir fs p fs' :
    mkdir_exist_ok fs p = inr fs' → is_dir fs' p = true.
Proof.
    unfold mkdir_exist_ok. intros H. rewrite is_dir_true.
    repeat case_match; simplify_eq; [done|].
    apply stat_insert. by intros ->.
Qed.

Lemma makedirs_mono todo fs done fs' :
    makedirs fs done todo = inr fs' → fs ⊆ fs'.
Proof.
    revert fs done. induction todo as [|c todo IH]; intros fs done H; simpl in H.
    - by simplify_eq.
    - destruct (mkdir_exist_ok fs (done // c)) as [e|fs1] eqn:Hmk.
      + destruct e; by destruct todo.
      + etrans; [by eapply mkdir_exist_ok_mono|by eapply IH].
Qed.

Lemma mkdir_parents_mono fs p fs' : mkdir_parents fs p = inr fs' → fs ⊆ fs'.
Proof. apply makedirs_mono. Qed.

Lemma make_avg_mono ok fs d out fs' : make_avg ok fs d out = inr fs' → fs ⊆ fs'.
Proof. unfold make_avg. case_match; [apply open_w_mono|done]. Qed.

Lemma make_avg_is_file ok fs d out fs' :
    make_avg ok fs d out = inr fs' → is_file fs' out = true.
Proof. unfold make_avg. case_match; [apply open_w_is_file|done]. Qed.

Lemma run_begin_mono ok fs d s fs' : run_begin ok fs d s = inr fs' → fs ⊆ fs'.
Proof. unfold run_begin. case_match; [apply mkdir_exist_ok_mono|done]. Qed.

Lemma run_end_mono ok fs d s fs' : run_end ok fs d s = inr fs' → fs ⊆ fs'.
Proof. unfold run_end. case_match; [apply open_w_mono|done]. Qed.
End filesystem.

Create HintDb fsmono.
#[global] Hint Resolve open_x_mono open_w_mono mkdir_exist_ok_mono
  mkdir_parents_mono make_avg_mono run_begin_mono run_end_mono : fsmono.

(** Case analysis on one step of a worker. *)
Ltac wstep_inv H :=
  unfold wstep in H; repeat case_match; simplify_eq.

(** No step of any worker removes or changes an existing entry. *)
Lemma wstep_mono J c fs w fs' w' evs :
  wstep J c fs w = (fs', w', evs) → fs ⊆ fs'.
Proof. intros H. wstep_inv H; eauto with fsmono. Qed.

(** ** Directory listings *)

Section listing.
Implicit Types (fs : FileSystem) (p d : path).

Lemma elem_of_iterdir fs d p :
    p ∈ iterdir fs d ↔ is_Some (fs !! p) ∧ p ≠ [] ∧ parent p = d.
Proof.
    unfold iterdir. rewrite list_elem_of_filter, list_elem_of_fmap. split.
    - intros [[? ?] [[q x] [-> Hq]]]. apply elem_of_map_to_list in Hq.
      simpl. eauto.
    - intros [[x Hx] [? ?]]. split; [done|]. exists (p, x). split; [done|].
      by apply elem_of_map_to_list.
Qed.

Lemma iterdir_pjoin fs d n : d // n ∈ iterdir fs d ↔ is_Some (fs !! (d // n)).
Proof.
    rewrite elem_of_iterdir, parent_pjoin. split; [by intros [? _]|].
    intros H. split; [done|]. split; [apply pjoin_nonempty|done].
Qed.

Lemma NoDup_iterdir fs d : NoDup (iterdir fs d).
Proof. apply NoDup_filter, NoDup_fst_map_to_list. Qed.

Lemma iterdir_is_dir fs d n :
    is_dir fs (d // n) = true → d // n ∈ iterdir fs d.
Proof.
    intros H. apply iterdir_pjoin. apply is_dir_true in H. rewrite stat_pjoin in H. eauto.
Qed.

(** The loop of [make_avg] is a filter followed by a map. *)
Lemma make_avg_loop_spec fs entries acc :
    make_avg_loop fs entries acc =
    acc ++ ((λ sd, sd // (name sd +:+ ".nrrd")) <$>
            filter (λ x, is_dir fs x = true) entries).
Proof.
    revert acc. induction entries as [|x entries IH]; intros acc; simpl.
    - by rewrite app_nil_r.
    - destruct (is_dir fs x) eqn:Hx; simpl.
      + rewrite filter_cons_True by done. rewrite IH, <- app_assoc. done.
      + rewrite filter_cons_False by congruence. apply IH.
Qed.

Lemma check_stage_done_loop_true fs entries :
    check_stage_done_loop fs entries = true ↔
    ∀ x, x ∈ entries → is_dir fs x = true → is_file fs (x // "spec_done") = true.
Proof.
    induction entries as [|x entries IH]; simpl.
    - split; [|done]. intros _ x Hx. by apply elem_of_nil in Hx.
    - destruct (is_dir fs x) eqn:Hd; simpl.
      + destruct (is_file fs (x // "spec_done")) eqn:Hf; simpl.
        * rewrite IH. split.
          -- intros H y Hy. apply elem_of_cons in Hy as [->|Hy]; eauto.
          -- intros H y Hy. apply H. by right.
        * split; [done|]. intros H. rewrite <- Hf. apply H; [by left|done].
      + rewrite IH. split.
        * intros H y Hy. apply elem_of_cons in Hy as [->|Hy]; [congruence|eauto].
        * intros H y Hy. apply H. by right.
Qed.

(** The barrier test holds exactly when every subdirectory of the stage
      directory holds a [spec_done] file. *)
Lemma check_stage_done_true fs d :
    check_stage_done fs d = true ↔
    ∀ n, is_dir fs (d // n) = true → is_file fs (spec_done d n) = true.
Proof.
    unfold check_stage_done, spec_done. rewrite check_stage_done_loop_true. split.
    - intros H n Hn. apply H; [|done]. by apply iterdir_is_dir.
    - intros H x Hx Hd. apply elem_of_iterdir in Hx as (_ & Hne & <-).
      specialize (H (name x)). rewrite <- path_split in H by done. by apply H.
Qed.

Lemma elem_of_spec_stage_dirs fs d n :
    n ∈ spec_stage_dirs fs d ↔ is_dir fs (d // n) = true.
Proof.
    unfold spec_stage_dirs. rewrite list_elem_of_fmap. split.
    - intros (x & -> & Hx). apply list_elem_of_filter in Hx as [Hd Hx].
      apply elem_of_iterdir in Hx as (_ & Hne & <-). by rewrite <- path_split.
    - intros H. exists (d // n). rewrite name_pjoin. split; [done|].
      apply list_elem_of_filter. split; [done|]. by apply iterdir_is_dir.
Qed.

Lemma elem_of_not_started J fs d s :
    s ∈ not_started J fs d ↔ s ∈ spec_ids J ∧ is_dir fs (d // s) = false.
Proof.
    unfold not_started.
    rewrite elem_of_difference, !elem_of_list_to_set, elem_of_spec_stage_dirs.
    by rewrite not_true_iff_false.
Qed.

(** When line 89 finds nothing to start, every specimen has a directory. *)
Lemma not_started_empty J fs d s :
    ¬ 0 < size (not_started J fs d) → s ∈ spec_ids J → is_dir fs (d // s) = true.
Proof.
    intros Hsz Hs. destruct (is_dir fs (d // s)) eqn:Hd; [done|].
    assert (s ∈ not_started J fs d) as Hin by by apply elem_of_not_started.
    assert (size (not_started J fs d) = 0) as H0 by lia.
    apply size_empty_inv in H0. apply H0 in Hin.
    by apply not_elem_of_empty in Hin.
Qed.

Lemma first_of_elem c (ns : gset string) s : first_of c ns = Some s → s ∈ ns.
Proof.
    unfold first_of. intros H. apply elem_of_elements.
    by eapply list_elem_of_lookup_2.
Qed.

Lemma first_of_is_Some c (ns : gset string) :
    0 < size ns → is_Some (first_of c ns).
Proof.
    unfold first_of, size, set_size. simpl. intros H.
    apply lookup_lt_is_Some. apply Nat.mod_upper_bound. lia.
Qed.
End listing.

(** ** Runs of a system of workers *)

Ltac subst_pc :=
  repeat match goal with Hl : pc _ = _ |- _ => rewrite Hl in *; clear Hl end.

Section system.
Context (J : Job).




(** A property kept by every step holds along every run. *)
Lemma run_invariant (P : system → Prop) :
    (∀ s c, P s → P (sys_step J s c)) → ∀ cs s, P s → P (run J cs s).
Proof.
    intros Hstep cs. induction cs as [|c cs IH]; intros s Hs; [done|].
    simpl. apply IH, Hstep, Hs.
Qed.

(** Such a property holds along every run when it survives the growth of
      the filesystem caused by the other workers and is kept by the worker's
      own steps. *)
Lemma all_workers_step (P : FileSystem → worker → Prop) :
  (∀ fs fs' w, fs ⊆ fs' → P fs w → P fs' w) →
  (∀ c fs w fs' w' evs, P fs w → wstep J c fs w = (fs', w', evs) → P fs' w') →
  ∀ s c, all_workers P s → all_workers P (sys_step J s c).
Proof.
  intros Hmono Hstep s c Hs k w. unfold sys_step.
  destruct (sys_workers s !! who c) as [w0|] eqn:Hw0; [|apply Hs].
  destruct (wstep J c (sys_fs s) w0) as [[fs' w'] evs] eqn:H. simpl.
  intros Hk. apply list_lookup_insert_Some in Hk as [(_ & <- & _)|[? Hk]].
  - eapply Hstep; [|done]. by eapply Hs.
  - eapply Hmono; [by eapply wstep_mono|]. by eapply Hs.
Qed.

Lemma all_workers_run (P : FileSystem → worker → Prop) :
  (∀ fs fs' w, fs ⊆ fs' → P fs w → P fs' w) →
  (∀ c fs w fs' w' evs, P fs w → wstep J c fs w = (fs', w', evs) → P fs' w') →
  ∀ cs s, all_workers P s → all_workers P (run J cs s).
Proof.
  intros Hmono Hstep. apply run_invariant. by apply all_workers_step.
Qed.

Lemma all_workers_start (P : FileSystem → worker → Prop) fs n :
    P fs fresh_worker → all_workers P (start fs n).
Proof. intros H k w Hk. apply lookup_replicate in Hk as [-> _]. done. Qed.

(** *** The barrier *)

Lemma barrier_inv_mono fs fs' w :
    fs ⊆ fs' → barrier_inv J fs w → barrier_inv J fs' w.
Proof.
    intros Hsub [H1 H2]. split; intros Hpc s Hs.
    - eapply is_dir_weaken; eauto.
    - eapply is_file_weaken; eauto.
Qed.

Lemma barrier_inv_step c fs w fs' w' evs :
  barrier_inv J fs w → wstep J c fs w = (fs', w', evs) → barrier_inv J fs' w'.
Proof.
  intros [H1 H2] H.
  wstep_inv H; (split; simpl; intros Hpc sid Hsid); subst_pc;
    try done; try (by eauto);
    try (eapply is_file_weaken; [|by apply H2]; by eauto with fsmono).
  - eapply not_started_empty; [|done].
    by match goal with
       | Hb : bool_decide _ = false |- _ => apply bool_decide_eq_false in Hb
       end.
  - eapply check_stage_done_true; [|by apply H1].
    by match goal with
       | Hb : negb _ = false |- _ => apply negb_false_iff in Hb
       end.
Qed.

Lemma barrier_inv_fresh fs : barrier_inv J fs fresh_worker.
Proof. by split. Qed.

Lemma barrier_inv_run cs fs0 n :
    all_workers (barrier_inv J) (run J cs (start fs0 n)).
Proof.
    apply all_workers_run;
      eauto using barrier_inv_mono, barrier_inv_step, all_workers_start,
      barrier_inv_fresh.
Qed.
End system.

(** ** Exclusive creation and the election *)

Lemma countb_app {A} (f : A → bool) l1 l2 :
  countb f (l1 ++ l2) = (countb f l1 + countb f l2)%nat.
Proof. induction l1 as [|x l1 IH]; simpl; [done|]. rewrite IH. lia. Qed.

Lemma countb_fmap {A B} (g : A → B) (f : B → bool) l :
  countb f (g <$> l) = countb (f ∘ g) l.
Proof. induction l as [|x l IH]; [done|]. rewrite fmap_cons. simpl. by rewrite IH. Qed.

Lemma countb_insert {A} (f : A → bool) l k x y :
  l !! k = Some x →
  (countb f (<[k:=y]> l) + (if f x then 1 else 0) =
   countb f l + (if f y then 1 else 0))%nat.
Proof.
  revert k. induction l as [|z l IH]; intros k Hk; [done|].
  destruct k as [|k]; simpl in *.
  - simplify_eq. lia.
  - specialize (IH k Hk). lia.
Qed.

Lemma countb_replicate {A} (f : A → bool) n x :
  f x = false → countb f (replicate n x) = 0.
Proof. intros Hx. induction n as [|n IH]; simpl; [done|]. by rewrite Hx. Qed.

Ltac path_inj :=
  unfold starting_avg, average_done, spec_done in *;
  repeat match goal with
  | H : _ // _ = _ // _ |- _ => apply pjoin_inj in H as [? ?]; simplify_eq
  end.

Lemma wstep_election J c fs w fs' w' evs d :
  wstep J c fs w = (fs', w', evs) →
  let nc := countb (is_created (starting_avg d)) evs in
  let nm := countb (is_make_avg d) evs in
  let b := if builder d w then 1 else 0 in
  let b' := if builder d w' then 1 else 0 in
  (nc = 0 ∧ nm = 0 ∧ (b' ≤ b)%nat) ∨
  (nc = 1 ∧ nm = 0 ∧ b = 0 ∧ b' = 1 ∧
     stat fs (starting_avg d) = None ∧ stat fs' (starting_avg d) = Some File) ∨
  (nc = 0 ∧ nm = 1 ∧ b = 1 ∧ b' = 0).
Proof.
  intros H. unfold builder, is_created.
  wstep_inv H; simpl; subst_pc; simpl; repeat case_bool_decide; simplify_eq; path_inj;
   try (left; repeat split; lia).
  - right; left. simpl.
    match goal with Ho : open_x _ _ = inr _ |- _ =>
      pose proof (open_x_is_file _ _ _ Ho) as Hf;
      apply open_x_inr in Ho as (_ & Hn & _) end.
    apply is_file_true in Hf. done.
  - right; right. done.
  - right; right. done.
Qed.

Lemma election_inv_step J d s c :
  election_inv d s → election_inv d (sys_step J s c).
Proof.
  intros (Ha & Hb & Hc). unfold sys_step.
  destruct (sys_workers s !! who c) as [w|] eqn:Hw; [|done].
  destruct (wstep J c (sys_fs s) w) as [[fs' w'] evs] eqn:H.
  pose proof (wstep_mono _ _ _ _ _ _ _ H) as Hsub.
  pose proof (wstep_election _ _ _ _ _ _ _ d H) as He.
  pose proof (countb_insert (builder d) _ _ _ w' Hw) as Hins.
  unfold election_inv, created, make_avg_calls in *. simpl in *.
  rewrite !countb_app, !countb_fmap. simpl.
  change (countb ((λ e : nat * event, is_created (starting_avg d) e.2) ∘ pair (who c)) evs)
    with (countb (is_created (starting_avg d)) evs).
  change (countb ((λ e : nat * event, is_make_avg d e.2) ∘ pair (who c)) evs)
    with (countb (is_make_avg d) evs).
  assert (stat fs' (starting_avg d) = None → stat (sys_fs s) (starting_avg d) = None) as Hnone.
  { intros Hn. destruct (stat (sys_fs s) (starting_avg d)) as [x|] eqn:Hx; [|done].
    apply (stat_weaken _ _ _ _ Hsub) in Hx. congruence. }
  destruct He as [(-> & -> & Hle)|[(-> & -> & Hb0 & Hb1 & Hn & Hs)|(-> & -> & Hb1 & Hb0)]].
  - split_and!; [intros Hn; rewrite Ha by auto; lia|lia|lia].
  - specialize (Ha Hn). split_and!; [congruence|lia|lia].
  - split_and!; [intros Hn; specialize (Ha (Hnone Hn)); lia|lia|lia].
Qed.

Lemma election_inv_start d fs n : election_inv d (start fs n).
Proof.
  unfold election_inv, created, make_avg_calls. simpl.
  rewrite countb_replicate by done. split_and!; [done|lia|lia].
Qed.

Lemma wstep_created J c fs w fs' w' evs p :
  wstep J c fs w = (fs', w', evs) →
  countb (is_created p) evs = 0 ∨
  (countb (is_created p) evs = 1 ∧ stat fs p = None ∧ stat fs' p = Some File).
Proof.
  intros H. unfold is_created.
  wstep_inv H; simpl; repeat case_bool_decide; simplify_eq; auto.
  all: right; split; [done|].
  all: match goal with Ho : open_x _ _ = inr _ |- _ =>
         pose proof (open_x_is_file _ _ _ Ho) as Hf;
         apply open_x_inr in Ho as (_ & Hn & _) end.
  all: by apply is_file_true in Hf.
Qed.

Lemma created_inv_step J p s c : created_inv p s → created_inv p (sys_step J s c).
Proof.
  intros [Ha Hb]. unfold sys_step.
  destruct (sys_workers s !! who c) as [w|] eqn:Hw; [|done].
  destruct (wstep J c (sys_fs s) w) as [[fs' w'] evs] eqn:H.
  pose proof (wstep_mono _ _ _ _ _ _ _ H) as Hsub.
  pose proof (wstep_created _ _ _ _ _ _ _ p H) as He.
  unfold created_inv, created in *. simpl in *.
  rewrite !countb_app, !countb_fmap.
  change (countb ((λ e : nat * event, is_created p e.2) ∘ pair (who c)) evs)
    with (countb (is_created p) evs).
  destruct He as [->|(-> & Hn & Hs)].
  - split; [|lia]. intros Hn. rewrite Ha; [done|].
    destruct (stat (sys_fs s) p) as [x|] eqn:Hx; [|done].
    apply (stat_weaken _ _ _ _ Hsub) in Hx. congruence.
  - specialize (Ha Hn). split; [congruence|lia].
Qed.

Lemma created_inv_start p fs n : created_inv p (start fs n).
Proof. split; simpl; [done|]. unfold created. simpl. lia. Qed.

Lemma sys_step_at_L106 J s c w :
  sys_workers s !! who c = Some w → pc w = L106_open_started →
  is_dir (sys_fs s) (stage_dir w) = true →
  sys_step J s c =
    match stat (sys_fs s) (starting_avg (stage_dir w)) with
    | None =>
        {| sys_fs := <[starting_avg (stage_dir w) := File]> (sys_fs s);
           sys_workers := <[who c := goto L111_make_avg w]> (sys_workers s);
           sys_trace := sys_trace s ++
             [(who c, EvOpenX (starting_avg (stage_dir w)) None)] |}
    | Some _ =>
        {| sys_fs := sys_fs s;
           sys_workers := <[who c := goto L114_sleep w]> (sys_workers s);
           sys_trace := sys_trace s ++
             [(who c, EvOpenX (starting_avg (stage_dir w)) (Some FileExistsError))] |}
    end.
Proof.
  intros Hw Hpc Hd. unfold sys_step. rewrite Hw. unfold wstep. rewrite Hpc.
  unfold open_x, resolve_parent, starting_avg. rewrite parent_pjoin.
  apply is_dir_true in Hd. rewrite Hd.
  by destruct (stat (sys_fs s) (stage_dir w // "avg_started")).
Qed.

Lemma race_losers J d cs : ∀ s,
  racers d s cs → is_dir (sys_fs s) d = true →
  is_Some (stat (sys_fs s) (starting_avg d)) →
  let s' := run J cs s in
  sys_fs s' = sys_fs s ∧
  sys_trace s' = sys_trace s ++
    ((λ c, (who c, EvOpenX (starting_avg d) (Some FileExistsError))) <$> cs) ∧
  (∀ c, c ∈ cs → ∃ w, sys_workers s !! who c = Some w ∧
                      sys_workers s' !! who c = Some (goto L114_sleep w)) ∧
  (∀ k, k ∉ (who <$> cs) → sys_workers s' !! k = sys_workers s !! k).
Proof.
  induction cs as [|c cs IH]; intros s [Hnd Hall] Hd [x Hx]; simpl.
  { rewrite app_nil_r. split_and!; [done|done| |done]. intros c Hc. by apply elem_of_nil in Hc. }
  destruct (Hall c) as (w & Hw & Hpc & <-); [by left|].
  rewrite (sys_step_at_L106 J s c w) by done. rewrite Hx.
  set (s1 := {| sys_fs := sys_fs s |}).
  apply NoDup_cons in Hnd as [Hc Hnd].
  destruct (IH s1) as (Hfs & Htr & Hws & Hoth).
  { split; [done|]. intros c' Hc'. destruct (Hall c') as (w' & Hw' & ?); [by right|].
    exists w'. split; [|done]. simpl. rewrite list_lookup_insert_ne; [done|].
    intros Heq. apply Hc. rewrite Heq. by apply list_elem_of_fmap_2. }
  { done. }
  { simpl. eauto. }
  split_and!.
  - by rewrite Hfs.
  - rewrite Htr. simpl. by rewrite <- app_assoc.
  - intros c' Hc'. apply elem_of_cons in Hc' as [->|Hc'].
    + exists w. split; [done|]. rewrite Hoth by done. simpl.
      apply list_lookup_insert_eq. by eapply lookup_lt_Some.
    + destruct (Hws c' Hc') as (w' & Hw' & Hw''). exists w'. split; [|done].
      simpl in Hw'. rewrite list_lookup_insert_ne in Hw'; [done|].
      intros Heq. apply Hc. rewrite Heq. by apply list_elem_of_fmap_2.
  - intros k Hk. apply not_elem_of_cons in Hk as [Hk1 Hk2].
    rewrite Hoth by done. simpl. by rewrite list_lookup_insert_ne.
Qed.

Lemma race_winner J d c cs s :
  racers d s (c :: cs) → is_dir (sys_fs s) d = true →
  stat (sys_fs s) (starting_avg d) = None →
  let s' := run J (c :: cs) s in
  sys_fs s' = <[starting_avg d := File]> (sys_fs s) ∧
  sys_trace s' = sys_trace s ++ (who c, EvOpenX (starting_avg d) None) ::
    ((λ c, (who c, EvOpenX (starting_avg d) (Some FileExistsError))) <$> cs) ∧
  (∃ w, sys_workers s !! who c = Some w ∧
        sys_workers s' !! who c = Some (goto L111_make_avg w)) ∧
  (∀ c', c' ∈ cs → ∃ w, sys_workers s !! who c' = Some w ∧
                        sys_workers s' !! who c' = Some (goto L114_sleep w)).
Proof.
  intros [Hnd Hall] Hd Hn. simpl.
  destruct (Hall c) as (w & Hw & Hpc & <-); [by left|].
  rewrite (sys_step_at_L106 J s c w) by done. rewrite Hn.
  set (s1 := {| sys_fs := <[_ := _]> (sys_fs s) |}).
  apply NoDup_cons in Hnd as [Hc Hnd].
  assert (∀ c', c' ∈ cs → who c ≠ who c') as Hne.
  { intros c' Hc' Heq. apply Hc. rewrite Heq. by apply list_elem_of_fmap_2. }
  destruct (race_losers J (stage_dir w) cs s1) as (Hfs & Htr & Hws & Hoth).
  { split; [done|]. intros c' Hc'. destruct (Hall c') as (w' & Hw' & ?); [by right|].
    exists w'. split; [|done]. simpl. rewrite list_lookup_insert_ne; [done|]. by apply Hne. }
  { simpl. eapply is_dir_weaken; [|done]. by apply stat_None_insert. }
  { simpl. rewrite stat_insert; [eauto|]. apply pjoin_nonempty. }
  split_and!.
  - by rewrite Hfs.
  - rewrite Htr. simpl. by rewrite <- app_assoc.
  - exists w. split; [done|]. rewrite Hoth by done. simpl.
    apply list_lookup_insert_eq. by eapply lookup_lt_Some.
  - intros c' Hc'. destruct (Hws c' Hc') as (w' & Hw' & Hw''). exists w'. split; [|done].
    simpl in Hw'. rewrite list_lookup_insert_ne in Hw'; [done|]. by apply Hne.
Qed.

(** ** Stage order and the volumes of a registration *)

Section stage.
Context (J : Job).

Lemma stage_inv_mono fs fs' w : fs ⊆ fs' → stage_inv J fs w → stage_inv J fs' w.
Proof.
  intros Hsub (H1 & H2 & H3). split_and!; [done| |].
  - intros Hpc. eapply is_file_weaken; eauto.
  - intros j sid sd Hj Hst. eapply is_file_weaken; eauto.
Qed.

Lemma stage_inv_fresh fs : stage_inv J fs fresh_worker.
Proof. split_and!; [done|done|]. simpl. intros; lia. Qed.

Lemma stage_inv_step c fs w fs' w' evs :
  stage_inv J fs w → wstep J c fs w = (fs', w', evs) → stage_inv J fs' w'.
Proof.
  intros (H1 & H2 & H3) H.
  pose proof (wstep_mono _ _ _ _ _ _ _ H) as Hsub.
  assert (∀ j sid sd, (j < i w)%nat → stage_at J j = Some (sid, sd) →
            is_file fs' (average_done sd) = true) as H3'.
  { intros j sid sd Hj Hst. eapply is_file_weaken; eauto. }
  wstep_inv H; (split_and!; simpl; [intros Hpc|intros Hpc|try done]); subst_pc;
    try done; try (by eauto).
  - unfold stage_at.
    by repeat match goal with Hq : _ = Some _ |- _ => rewrite Hq; clear Hq end.
  - intros j sid sd Hj Hst. destruct (decide (j = i w)) as [->|Hne].
    + rewrite H1 in Hst by done. by simplify_eq.
    + apply H3' with j sid; [lia|done].
  - by eapply make_avg_is_file.
  - intros j sid sd Hj Hst. destruct (decide (j = i w)) as [->|Hne].
    + rewrite H1 in Hst by done. simplify_eq. by eapply open_x_is_file.
    + apply H3' with j sid; [lia|done].
Qed.

Lemma stage_inv_run cs fs0 n : all_workers (stage_inv J) (run J cs (start fs0 n)).
Proof.
  apply all_workers_run;
    eauto using stage_inv_mono, stage_inv_step, all_workers_start, stage_inv_fresh.
Qed.

Lemma volumes_inv_fresh : volumes_inv J fresh_worker.
Proof. split; [|done]. simpl. by intros [|]. Qed.

Lemma volumes_inv_step c fs w fs' w' evs :
  volumes_inv J w → wstep J c fs w = (fs', w', evs) → volumes_inv J w'.
Proof.
  intros (H1 & H2) H.
  wstep_inv H; (split; simpl; [intros Hpc Hi|intros Hpc]); subst_pc;
    try done; try (by eauto); try (by destruct Hpc).
  - unfold resolve_volumes in *. rewrite Hi in *. simplify_eq. apply H1; auto.
  - exists s. split; [done|]. unfold resolve_volumes in *. simpl.
    destruct (i w); [by simplify_eq|]. by repeat case_match; simplify_eq.
  - destruct (H2 eq_refl) as (s0 & Hs0 & Hr). exists s0. split; [congruence|exact Hr].
  - destruct (H2 eq_refl) as (s0 & Hs0 & Hr). exists s0. split; [congruence|exact Hr].
Qed.

Lemma volumes_inv_run cs fs0 n :
  all_workers (λ _, volumes_inv J) (run J cs (start fs0 n)).
Proof.
  apply all_workers_run; eauto using volumes_inv_step.
  apply all_workers_start, volumes_inv_fresh.
Qed.
End stage.

(** ** Events of a step *)

Lemma wstep_make_avg_event J c fs w d o :
  EvMakeAvg d o ∈ (wstep J c fs w).2 →
  pc w = L111_make_avg ∧ d = stage_dir w ∧ o = average_path J (stage_id w).
Proof.
  unfold wstep. intros H.
  repeat case_match; simpl in H;
    repeat (apply elem_of_cons in H as [H|H]; simplify_eq);
    try (by apply elem_of_nil in H); done.
Qed.

Lemma sys_step_single J fs w tr c :
  sys_step J {| sys_fs := fs; sys_workers := [w]; sys_trace := tr |} c =
  match who c with
  | 0 => let '(fs', w', evs) := wstep J c fs w in
         {| sys_fs := fs'; sys_workers := [w']; sys_trace := tr ++ (pair 0 <$> evs) |}
  | S _ => {| sys_fs := fs; sys_workers := [w]; sys_trace := tr |}
  end.
Proof.
  unfold sys_step. cbn [sys_workers sys_fs sys_trace].
  destruct (who c) as [|k]; [|done]. cbn [lookup list_lookup].
  by destruct (wstep J c fs w) as [[fs' w'] evs].
Qed.

Ltac elem_of_list :=
  repeat first [apply list_elem_of_here | apply list_elem_of_further].

Lemma make_avg_calls_snoc d tr k e :
  make_avg_calls d (tr ++ [(k, e)]) =
  (make_avg_calls d tr + (if is_make_avg d e then 1 else 0))%nat.
Proof. unfold make_avg_calls. rewrite countb_app. simpl. lia. Qed.

Lemma election_inv_run J d cs fs0 n : election_inv d (run J cs (start fs0 n)).
Proof.
  apply run_invariant; [apply election_inv_step|apply election_inv_start].
Qed.

Lemma created_inv_run J p cs fs0 n : created_inv p (run J cs (start fs0 n)).
Proof.
  apply run_invariant; [apply created_inv_step|apply created_inv_start].
Qed.


(** ** File names *)

Lemma last_char_app x y : y ≠ "" → last_char (x +:+ y) = last_char y.
Proof.
  intros Hy. induction x as [|a x IH]; [done|].
  change (String a x +:+ y) with (String a (x +:+ y)).
  assert (x +:+ y ≠ "") as Hne by (by destruct x).
  rewrite <- IH. simpl. by destruct (x +:+ y).
Qed.

Lemma nrrd_not_marker s m :
  last_char m ≠ last_char ".nrrd" → s +:+ ".nrrd" ≠ m.
Proof.
  intros Hm H. apply Hm. rewrite <- H. by rewrite last_char_app.
Qed.

Lemma txt_not_marker p s m :
  last_char m ≠ last_char ".txt" → p +:+ s +:+ ".txt" ≠ m.
Proof.
  intros Hm H. apply Hm. rewrite <- H.
  rewrite !last_char_app; [done|done|by destruct s].
Qed.

(** ** Which files a step can bring into existence *)

Section new_files.
Implicit Types (fs : FileSystem) (p q : path).

Lemma is_file_insert_Dir fs p q :
  stat fs p = None → is_file (<[p:=Dir]> fs) q = is_file fs q.
Proof.
  intros Hp. unfold is_file. destruct q as [|a q]; [done|]. simpl.
  destruct (decide (p = a :: q)) as [->|Hne].
  - rewrite lookup_insert_eq. simpl in Hp. rewrite Hp.
    by rewrite !bool_decide_eq_false_2.
  - by rewrite lookup_insert_ne.
Qed.

Lemma is_file_insert_File fs p q :
  is_file (<[p:=File]> fs) q = true → q = p ∨ is_file fs q = true.
Proof.
  destruct (decide (q = p)) as [->|Hne]; [by left|]. right.
  unfold is_file in *. destruct q as [|a q]; [done|]. simpl in *.
  by rewrite lookup_insert_ne in H.
Qed.

Lemma mkdir_exist_ok_is_file fs p fs' q :
  mkdir_exist_ok fs p = inr fs' → is_file fs' q = is_file fs q.
Proof.
  unfold mkdir_exist_ok. intros H. repeat case_match; simplify_eq; [done|].
  by apply is_file_insert_Dir.
Qed.

Lemma makedirs_is_file todo fs done fs' q :
  makedirs fs done todo = inr fs' → is_file fs' q = is_file fs q.
Proof.
  revert fs done. induction todo as [|c todo IH]; intros fs done H; simpl in H.
  - by simplify_eq.
  - destruct (mkdir_exist_ok fs (done // c)) as [e|fs1] eqn:Hmk.
    + destruct e; by destruct todo.
    + erewrite IH by done. by eapply mkdir_exist_ok_is_file.
Qed.

Lemma open_x_new_file fs p fs' q :
  open_x fs p = inr fs' → is_file fs' q = true → q = p ∨ is_file fs q = true.
Proof. rewrite open_x_inr. intros (_ & _ & ->). apply is_file_insert_File. Qed.

Lemma open_w_new_file fs p fs' q :
  open_w fs p = inr fs' → is_file fs' q = true → q = p ∨ is_file fs q = true.
Proof.
  unfold open_w. intros H. repeat case_match; simplify_eq; [by right|].
  apply is_file_insert_File.
Qed.

(** The file a step may create, by program point. *)
Lemma wstep_new_file J c fs w fs' w' evs q :
  wstep J c fs w = (fs', w', evs) → is_file fs' q = true →
  is_file fs q = true ∨
  match pc w with
  | L106_open_started => q = starting_avg (stage_dir w)
  | L111_make_avg => q = average_path J (stage_id w)
  | L112_open_done => q = average_done (stage_dir w)
  | L129_param_file => q = elxparam_path J w
  | L148_running =>
      ∃ s, next_spec_id w = Some s ∧ q = stage_dir w // s // (s +:+ ".nrrd")
  | L150_spec_done =>
      ∃ s, next_spec_id w = Some s ∧ q = spec_done (stage_dir w) s
  | _ => False
  end.
Proof.
  intros H Hq. wstep_inv H; subst_pc; auto.
  - left. by erewrite <- mkdir_exist_ok_is_file.
  - left. by erewrite <- makedirs_is_file.
  - edestruct open_x_new_file as [->|?]; eauto.
  - match goal with Hm : make_avg _ _ _ _ = inr _ |- _ =>
      unfold make_avg in Hm; case_match; [|done];
      edestruct open_w_new_file as [->|?]; eauto end.
  - edestruct open_x_new_file as [->|?]; eauto.
  - edestruct open_w_new_file as [->|?]; eauto.
  - match goal with Hm : run_begin _ _ _ _ = inr _ |- _ =>
      unfold run_begin in Hm; case_match; [|done] end.
    left. by erewrite <- mkdir_exist_ok_is_file.
  - match goal with Hm : run_end _ _ _ _ = inr _ |- _ =>
      unfold run_end in Hm; case_match; [|done];
      edestruct open_w_new_file as [->|?]; eauto end.
  - edestruct open_x_new_file as [->|?]; eauto.
Qed.
End new_files.

(** ** A withheld completion marker stays withheld *)

Section withheld.
Context (J : Job) (d : path) (sid : string) (Hsid : sid ∈ spec_ids J).

Lemma claim_inv_step c fs w fs' w' evs :
  is_file fs (spec_done d sid) = false → is_dir fs (d // sid) = true →
  barrier_inv J fs w → claim_inv d sid w →
  wstep J c fs w = (fs', w', evs) → claim_inv d sid w'.
Proof.
  intros Hf Hd [_ Hb] Hc H. unfold claim_inv in *.
  wstep_inv H; simpl; intros Hpc Hsd; subst_pc; try done; try (by eauto);
    try (match goal with Hn : next_spec_id _ = _ |- _ => rewrite Hn end;
         by apply Hc).
  - intros [= ->].
    match goal with Hq : first_of _ _ = Some _ |- _ =>
      apply first_of_elem, elem_of_not_started in Hq as [_ Hq] end.
    congruence.
  - rewrite <- Hsd, Hb in Hf by done. discriminate.
Qed.

Lemma withheld_inv_step s c :
  withheld_inv J d sid s → withheld_inv J d sid (sys_step J s c).
Proof.
  intros (Hf & Hd & Hws & Hcalls). unfold sys_step.
  destruct (sys_workers s !! who c) as [w|] eqn:Hw; [|done].
  destruct (wstep J c (sys_fs s) w) as [[fs' w'] evs] eqn:H.
  pose proof (wstep_mono _ _ _ _ _ _ _ H) as Hsub.
  destruct (Hws _ _ Hw) as [Hb Hc].
  assert (is_file fs' (spec_done d sid) = false) as Hf'.
  { destruct (is_file fs' (spec_done d sid)) eqn:Hq; [|done].
    destruct (wstep_new_file _ _ _ _ _ _ _ _ H Hq) as [?|Hnew]; [congruence|].
    destruct Hb as [_ Hb]. exfalso.
    destruct (pc w) eqn:Hpc; try done.
    all: unfold spec_done, starting_avg, average_done, average_path,
           elxparam_path in Hnew.
    - by apply pjoin_inj in Hnew as [_ ?].
    - apply pjoin_inj in Hnew as [_ Hn]. symmetry in Hn.
      by apply nrrd_not_marker in Hn.
    - by apply pjoin_inj in Hnew as [_ ?].
    - apply pjoin_inj in Hnew as [_ Hn]. symmetry in Hn.
      by apply txt_not_marker in Hn.
    - destruct Hnew as (s0 & _ & Hnew). apply pjoin_inj in Hnew as [_ Hn].
      symmetry in Hn. by apply nrrd_not_marker in Hn.
    - destruct Hnew as (s0 & Hs0 & Hnew).
      apply pjoin_inj in Hnew as [Hnew _]. apply pjoin_inj in Hnew as [Hd' Hs'].
      unfold claim_inv in Hc. apply Hc; [by rewrite Hpc|congruence|congruence]. }
  split_and!; simpl.
  - done.
  - by eapply is_dir_weaken.
  - intros k wk Hk. apply list_lookup_insert_Some in Hk as [(_ & <- & _)|[? Hk]].
    + split; [by eapply barrier_inv_step|].
      exact (claim_inv_step _ _ _ _ _ _ Hf Hd Hb Hc H).
    + destruct (Hws _ _ Hk) as [Hbk Hck]. split; [|done].
      by eapply barrier_inv_mono.
  - unfold make_avg_calls in *. rewrite countb_app, countb_fmap, Hcalls. simpl.
    change (countb ((λ e : nat * event, is_make_avg d e.2) ∘ pair (who c)) evs)
      with (countb (is_make_avg d) evs).
    destruct (countb (is_make_avg d) evs) eqn:Hn; [done|]. exfalso.
    assert (∃ o, EvMakeAvg d o ∈ evs) as [o Ho].
    { clear -Hn. induction evs as [|e evs IH]; [done|]. simpl in Hn.
      destruct (is_make_avg d e) eqn:He.
      - destruct e; try done. simpl in He. apply bool_decide_eq_true in He as ->.
        eexists. by left.
      - destruct IH as [o Ho]; [done|]. exists o. by right. }
    replace evs with (wstep J c (sys_fs s) w).2 in Ho by by rewrite H.
    apply wstep_make_avg_event in Ho as (Hpc & -> & _).
    destruct Hb as [_ Hb]. rewrite Hpc in Hb. rewrite Hb in Hf by done. done.
Qed.

Lemma withheld_inv_run cs fs0 n :
  is_dir fs0 (d // sid) = true → is_file fs0 (spec_done d sid) = false →
  withheld_inv J d sid (run J cs (start fs0 n)).
Proof.
  intros Hd Hf. apply run_invariant; [apply withheld_inv_step|].
  split_and!; [done|done| |done].
  apply all_workers_start. split; [apply barrier_inv_fresh|done].
Qed.
End withheld.

(** ** Every [avg_done] has its average *)

Section averages.
Context (J : Job) (Hdistinct : stage_dirs_distinct J).

Lemma averages_sound_step s c :
  all_workers (stage_inv J) s → averages_sound J (sys_fs s) →
  averages_sound J (sys_fs (sys_step J s c)).
Proof.
  intros Hws Hg. unfold sys_step.
  destruct (sys_workers s !! who c) as [w|] eqn:Hw; [|done].
  destruct (wstep J c (sys_fs s) w) as [[fs' w'] evs] eqn:H. simpl.
  pose proof (wstep_mono _ _ _ _ _ _ _ H) as Hsub.
  destruct (Hws _ _ Hw) as (Hst & Havg & _).
  intros j sid sd Hj Hq.
  destruct (wstep_new_file _ _ _ _ _ _ _ _ H Hq) as [Hold|Hnew].
  { eapply is_file_weaken; [done|]. by eapply Hg. }
  destruct (pc w) eqn:Hpc; try done.
  all: unfold spec_done, starting_avg, average_done, average_path,
         elxparam_path in Hnew.
  - by apply pjoin_inj in Hnew as [_ ?].
  - apply pjoin_inj in Hnew as [_ Hn]. symmetry in Hn.
    by apply nrrd_not_marker in Hn.
  - apply pjoin_inj in Hnew as [-> _].
    rewrite (Hdistinct j (i w) sid (stage_id w) (stage_dir w) Hj (Hst eq_refl)).
    eapply is_file_weaken; [done|]. by apply Havg.
  - apply pjoin_inj in Hnew as [_ Hn]. symmetry in Hn.
    by apply txt_not_marker in Hn.
  - destruct Hnew as (s0 & _ & Hnew). apply pjoin_inj in Hnew as [_ Hn].
    symmetry in Hn. by apply nrrd_not_marker in Hn.
  - destruct Hnew as (s0 & _ & Hnew). by apply pjoin_inj in Hnew as [_ ?].
Qed.

Lemma averages_sound_run cs fs0 n :
  averages_sound J fs0 → averages_sound J (sys_fs (run J cs (start fs0 n))).
Proof.
  intros H0.
  cut (all_workers (stage_inv J) (run J cs (start fs0 n)) ∧
       averages_sound J (sys_fs (run J cs (start fs0 n)))); [by intros [_ ?]|].
  apply (run_invariant J (λ s, all_workers (stage_inv J) s ∧
                                averages_sound J (sys_fs s))).
  - intros s c [Hws Hg]. split; [|by apply averages_sound_step].
    apply all_workers_step; eauto using stage_inv_mono, stage_inv_step.
  - split; [|done]. apply all_workers_start, stage_inv_fresh.
Qed.
End averages.

Lemma wstep_advance J c fs w fs' w' evs :
  wstep J c fs w = (fs', w', evs) → i w' ≠ i w →
  i w' = S (i w) ∧
  ((pc w = L99_avg_done ∧ is_file fs (average_done (stage_dir w)) = true ∧
    fs' = fs) ∨
   (pc w = L112_open_done ∧ open_x fs (average_done (stage_dir w)) = inr fs' ∧
    evs = [EvOpenX (average_done (stage_dir w)) None])).
Proof.
  intros H Hi. wstep_inv H; simpl in Hi; try done.
  - split; [done|]. left. done.
  - split; [done|]. right. done.
Qed.

(** ** The two-stage scenario *)

Lemma stage_at_job2 j sid sd :
  stage_at job2 j = Some (sid, sd) →
  (j = 0 ∧ sid = "rigid" ∧ sd = rigid) ∨
  (j = 1 ∧ sid = "affine" ∧ sd = ["out"; "affine"]).
Proof.
  destruct j as [|[|j]]; intros H.
  - left. vm_compute in H. by simplify_eq.
  - right. vm_compute in H. by simplify_eq.
  - discriminate.
Qed.

Lemma stage_dirs_distinct_job2 : stage_dirs_distinct job2.
Proof.
  intros j j' sid sid' sd H H'.
  apply stage_at_job2 in H as [(_ & -> & ->)|(_ & -> & ->)];
    apply stage_at_job2 in H' as [(_ & -> & ?)|(_ & -> & ?)]; done.
Qed.

Lemma averages_sound_clean J : averages_sound J fs_clean.
Proof.
  intros j sid sd _ H. apply is_file_true in H. unfold average_done in H.
  rewrite stat_pjoin in H.
  unfold fs_clean in H. by apply lookup_singleton_Some in H as [_ ?].
Qed.


(** ** The worker that waits for the average *)

(** The worker that finds [avg_started] while the builder is busy runs the
    registration of its last specimen a second time and then dies on the
    exclusive creation of a marker that exists. *)
Lemma stale_specimen_registered_again :
  let s := run job1 builder_busy (start fs_clean 2) in
  pc <$> sys_workers s = [L111_make_avg; Raised FileExistsError] ∧
  filter (λ e, e.1 = 1) (sys_trace s) =
    [(1, EvRun (rigid // "elastix_params_rigid.txt") ["in"; "a.nrrd"] rigid
           ["target"; "fixed.nrrd"]);
     (1, EvOpenX (spec_done rigid "a") None);
     (1, EvSleep); (1, EvSleep);
     (1, EvRun (rigid // "elastix_params_rigid.txt") ["in"; "a.nrrd"] rigid
           ["target"; "fixed.nrrd"]);
     (1, EvOpenX (spec_done rigid "a") (Some FileExistsError))].
Proof. cbv zeta. split; vm_compute; reflexivity. Qed.

(** ** Stopped workers *)

(** A worker that has stopped takes no further step. *)
Lemma wstep_stopped J c fs w :
  stopped (pc w) = true → wstep J c fs w = (fs, w, []).
Proof. unfold wstep. by destruct (pc w). Qed.




(** ** Ordered dictionaries *)

Lemma dict_get_lookup {V} (d : list (string * V)) j k v :
  NoDup d.*1 → d !! j = Some (k, v) → dict_get d k = Some v.
Proof.
  revert j. induction d as [|[k' v'] d IH]; intros j Hnd Hj; [done|].
  rewrite fmap_cons in Hnd. apply NoDup_cons in Hnd as [Hk Hnd]. simpl.
  destruct j as [|j]; simpl in Hj.
  - simplify_eq. by rewrite decide_True.
  - rewrite decide_False; [by eapply IH|].
    intros ->. apply Hk. apply list_elem_of_fmap. exists (k, v).
    split; [done|]. by eapply list_elem_of_lookup_2.
Qed.

Lemma stage_at_lookup J j sid sd :
  (stage_dirs (config J)).*1 = registration_stage_params (config J) →
  NoDup (registration_stage_params (config J)) →
  (stage_dirs (config J)).*1 !! j = Some sid →
  (stage_dirs (config J)).*2 !! j = Some sd →
  stage_at J j = Some (sid, sd).
Proof.
  intros Hkeys Hnd Hk Hv. unfold stage_at. rewrite <- Hkeys, Hk.
  rewrite list_lookup_fmap in Hk. rewrite list_lookup_fmap in Hv.
  destruct (stage_dirs (config J) !! j) as [[k v]|] eqn:Hj; [|done].
  simpl in *. simplify_eq.
  by rewrite (dict_get_lookup _ j sid sd) by (by rewrite ?Hkeys).
Qed.

Lemma wstep_run_event J c fs w p mv sd fx :
  EvRun p mv sd fx ∈ (wstep J c fs w).2 →
  pc w = L148_run ∧ p = elxparam_path J w ∧ mv = moving w ∧
  sd = stage_dir w ∧ fx = fixed_vol w.
Proof.
  unfold wstep. intros H.
  repeat case_match; simpl in H;
    repeat (apply elem_of_cons in H as [H|H]; simplify_eq);
    try (by apply elem_of_nil in H); done.
Qed.

(** ** A specimen abandoned after a failed registration *)

Lemma resolve_volumes_name J w s mv fx :
  resolve_volumes J w s = Some (mv, fx) → name mv = s +:+ ".nrrd".
Proof.
  unfold resolve_volumes. intros H.
  repeat case_match; simplify_eq; apply name_pjoin.
Qed.

Lemma string_length_app (s t : string) :
  String.length (s +:+ t) = (String.length s + String.length t)%nat.
Proof. induction s as [|a s IH]; simpl; [done|]. by rewrite IH. Qed.

Lemma string_app_inj_r (t s1 s2 : string) : s1 +:+ t = s2 +:+ t → s1 = s2.
Proof.
  revert s2. induction s1 as [|a s1 IH]; intros [|b s2] H.
  - done.
  - apply (f_equal String.length) in H.
    rewrite !string_length_app in H. simpl in H. lia.
  - apply (f_equal String.length) in H.
    rewrite !string_length_app in H. simpl in H. lia.
  - change (String a (s1 +:+ t) = String b (s2 +:+ t)) in H.
    injection H as -> H. f_equal. by apply IH.
Qed.

Lemma wstep_runs_of J c fs w d sid :
  volumes_inv J w → claim_inv d sid w →
  countb (is_run_of d sid) (wstep J c fs w).2 = 0.
Proof.
  intros [_ Hv] Hc.
  destruct (countb (is_run_of d sid) (wstep J c fs w).2) eqn:Hn; [done|].
  exfalso.
  assert (∃ e, e ∈ (wstep J c fs w).2 ∧ is_run_of d sid e = true) as (e & He & Hr).
  { clear -Hn. induction ((wstep J c fs w).2) as [|e evs IH]; [done|].
    simpl in Hn. destruct (is_run_of d sid e) eqn:He.
    - exists e. split; [by left|done].
    - destruct IH as (e' & ? & ?); [done|]. exists e'. split; [by right|done]. }
  destruct e as [|elx mv sd fx| |]; try done. simpl in Hr.
  apply andb_true_iff in Hr as [Hsd Hnm].
  apply bool_decide_eq_true in Hsd as ->. apply bool_decide_eq_true in Hnm.
  apply wstep_run_event in He as (Hpc & _ & -> & Hd & _).
  rewrite Hpc in Hv. destruct (Hv eq_refl) as (s & Hs & Hres).
  apply resolve_volumes_name in Hres. rewrite Hres in Hnm.
  apply string_app_inj_r in Hnm as ->.
  unfold claim_inv in Hc. rewrite Hpc in Hc. by apply Hc.
Qed.

Section abandoned.
Context (J : Job) (d : path) (sid : string) (Hsid : sid ∈ spec_ids J).




End abandoned.

(** * The claims *)

(** C1.  At most one worker wins the election of a stage.  Along every run
    of any number of workers, the marker [avg_started] of a stage directory
    [d] is created exclusively at most once and [make_avg] is called on [d]
    at most once.  When several workers stand at line 106 for the same
    stage and the marker is absent, the first one scheduled creates it and
    goes on to [make_avg]; every other one gets [FileExistsError] and goes to
    the sleep of line 114. *)
Theorem C1_one_average_builder (J : Job) (d : path) :
  (∀ n fs0 cs,
     let s := run J cs (start fs0 n) in
     (created (starting_avg d) (sys_trace s) ≤ 1)%nat ∧
     (make_avg_calls d (sys_trace s) ≤ 1)%nat) ∧
  (∀ s c cs,
     racers d s (c :: cs) → is_dir (sys_fs s) d = true →
     stat (sys_fs s) (starting_avg d) = None →
     let s' := run J (c :: cs) s in
     sys_trace s' =
       sys_trace s ++ (who c, EvOpenX (starting_avg d) None) ::
         ((λ c', (who c', EvOpenX (starting_avg d) (Some FileExistsError)))
            <$> cs) ∧
     (∃ w, sys_workers s !! who c = Some w ∧
           sys_workers s' !! who c = Some (goto L111_make_avg w)) ∧
     (∀ c', c' ∈ cs →
        ∃ w, sys_workers s !! who c' = Some w ∧
             sys_workers s' !! who c' = Some (goto L114_sleep w))).
Proof.
  split.
  - intros n fs0 cs s. destruct (election_inv_run J d cs fs0 n) as (_ & Hc & Hm).
    fold s in Hc, Hm. split; [done|lia].
  - intros s c cs Hr Hd Hn s'.
    destruct (race_winner J d c cs s Hr Hd Hn) as (_ & ? & ? & ?). done.
Qed.

Lemma C1_one_average_builder_witness :
  racers rigid race_ready [go 2; go 0; go 1] ∧
  is_dir (sys_fs race_ready) rigid = true ∧
  stat (sys_fs race_ready) (starting_avg rigid) = None ∧
  let s' := run job1 [go 2; go 0; go 1] race_ready in
  sys_trace s' =
    sys_trace race_ready ++
      [(2, EvOpenX (starting_avg rigid) None);
       (0, EvOpenX (starting_avg rigid) (Some FileExistsError));
       (1, EvOpenX (starting_avg rigid) (Some FileExistsError))] ∧
  pc <$> sys_workers s' = [L114_sleep; L114_sleep; L111_make_avg].
Proof.
  assert (racers rigid race_ready [go 2; go 0; go 1]) as Hr.
  { split; [by apply (bool_decide_unpack _); vm_compute|].
    intros c Hc. repeat (apply elem_of_cons in Hc as [->|Hc]);
      [eexists; (split; [vm_compute; reflexivity|by split]) ..|].
    by apply elem_of_nil in Hc. }
  assert (is_dir (sys_fs race_ready) rigid = true) as Hd by (vm_compute; reflexivity).
  assert (stat (sys_fs race_ready) (starting_avg rigid) = None) as Hn by (vm_compute; reflexivity).
  split_and!; [done|done|done|].
  destruct (proj2 (C1_one_average_builder job1 rigid) race_ready (go 2) [go 0; go 1] Hr Hd Hn) as (Ht & _ & _).
  split; [exact Ht|]. vm_compute. reflexivity.
Defined.

(** C2.  No worker calls [make_avg] before every specimen of the stage has
    its [spec_done]: in every reachable state, a worker for whose stage
    directory some specimen's marker is missing is not past the barrier, not
    in the builder branch, and its next step does not call [make_avg].  And
    when a specimen has its directory but its marker is withheld from the
    start, the marker stays absent, [make_avg] is never called on that stage,
    and no worker of that stage ever enters the builder branch. *)
Theorem C2_average_after_barrier (J : Job) (n : nat) (fs0 : FileSystem)
    (cs : list sched) :
  let s := run J cs (start fs0 n) in
  (∀ k w sid,
     sys_workers s !! k = Some w → sid ∈ spec_ids J →
     is_file (sys_fs s) (spec_done (stage_dir w) sid) = false →
     past_barrier (pc w) = false ∧ builder_branch (pc w) = false ∧
     ∀ c d o, EvMakeAvg d o ∉ (wstep J c (sys_fs s) w).2) ∧
  (∀ d sid,
     sid ∈ spec_ids J → is_dir fs0 (d // sid) = true →
     is_file fs0 (spec_done d sid) = false →
     is_file (sys_fs s) (spec_done d sid) = false ∧
     make_avg_calls d (sys_trace s) = 0 ∧
     ∀ k w, sys_workers s !! k = Some w → stage_dir w = d →
            past_barrier (pc w) = false ∧ builder_branch (pc w) = false).
Proof.
  intros s.
  assert (∀ k w sid,
     sys_workers s !! k = Some w → sid ∈ spec_ids J →
     is_file (sys_fs s) (spec_done (stage_dir w) sid) = false →
     past_barrier (pc w) = false ∧ builder_branch (pc w) = false) as Hgen.
  { intros k w sid Hw Hsid Hf.
    destruct (barrier_inv_run J cs fs0 n k w Hw) as [_ Hb]. fold s in Hb.
    assert (past_barrier (pc w) = false) as Hp.
    { destruct (past_barrier (pc w)); [|done].
      rewrite Hb in Hf by done. discriminate. }
    split; [done|]. by destruct (pc w). }
  split.
  - intros k w sid Hw Hsid Hf.
    destruct (Hgen k w sid Hw Hsid Hf) as [Hp Hbb]. split_and!; [done|done|].
    intros c d o Hev.
    apply wstep_make_avg_event in Hev as (Hpc & _). by rewrite Hpc in Hp.
  - intros d sid Hsid Hd Hf.
    destruct (withheld_inv_run J d sid Hsid cs fs0 n Hd Hf) as (Hf' & _ & _ & Hc).
    fold s in Hf', Hc. split_and!; [done|done|].
    intros k w Hw <-. by apply (Hgen k w sid).
Qed.

Lemma C2_average_after_barrier_witness :
  let s := run job1 (replicate 10 (go 0)) (start fs_withheld 1) in
  "c" ∈ spec_ids job1 ∧
  is_dir fs_withheld (rigid // "c") = true ∧
  is_file fs_withheld (spec_done rigid "c") = false ∧
  is_file (sys_fs s) (spec_done rigid "c") = false ∧
  make_avg_calls rigid (sys_trace s) = 0 ∧
  ∀ k w, sys_workers s !! k = Some w → stage_dir w = rigid →
         past_barrier (pc w) = false ∧ builder_branch (pc w) = false.
Proof.
  cbv zeta.
  assert ("c" ∈ spec_ids job1) as Hc
    by (unfold job1, job, spec_ids; elem_of_list).
  assert (is_dir fs_withheld (rigid // "c") = true) as Hd
    by (vm_compute; reflexivity).
  assert (is_file fs_withheld (spec_done rigid "c") = false) as Hf
    by (vm_compute; reflexivity).
  destruct (proj2 (C2_average_after_barrier job1 1 fs_withheld
                     (replicate 10 (go 0))) rigid "c" Hc Hd Hf)
    as (H1 & H2 & H3).
  exact (conj Hc (conj Hd (conj Hf (conj H1 (conj H2 H3))))).
Defined.

(** C3.  A worker leaves the work loop of a stage only when [avg_done]
    exists: for every stage [j] below the worker's loop index, [avg_done] of
    stage [j] is on disk.  The step that advances the index is either line
    99 seeing the marker, or line 112 creating it, the average having been
    written before.  When distinct stages have distinct directories and
    every [avg_done] present at the start had its average, the average of
    every stage the worker has left is on disk. *)
Theorem C3_advance_after_avg_done (J : Job) (n : nat) (fs0 : FileSystem)
    (cs : list sched) (k : nat) (w : worker) :
  let s := run J cs (start fs0 n) in
  sys_workers s !! k = Some w →
  (∀ j sid sd,
     (j < i w)%nat → stage_at J j = Some (sid, sd) →
     is_file (sys_fs s) (average_done sd) = true) ∧
  (∀ c fs' w' evs,
     wstep J c (sys_fs s) w = (fs', w', evs) → i w' ≠ i w →
     i w' = S (i w) ∧
     stage_at J (i w) = Some (stage_id w, stage_dir w) ∧
     is_file fs' (average_done (stage_dir w)) = true ∧
     ((pc w = L99_avg_done ∧
       is_file (sys_fs s) (average_done (stage_dir w)) = true ∧
       fs' = sys_fs s) ∨
      (pc w = L112_open_done ∧
       is_file (sys_fs s) (average_path J (stage_id w)) = true ∧
       evs = [EvOpenX (average_done (stage_dir w)) None]))) ∧
  (stage_dirs_distinct J → averages_sound J fs0 →
   ∀ j sid sd,
     (j < i w)%nat → stage_at J j = Some (sid, sd) →
     is_file (sys_fs s) (average_path J sid) = true).
Proof.
  intros s Hw.
  destruct (stage_inv_run J cs fs0 n k w Hw) as (Hst & Havg & Hdone).
  fold s in Havg, Hdone. split_and!.
  - exact Hdone.
  - intros c fs' w' evs H Hi.
    destruct (wstep_advance _ _ _ _ _ _ _ H Hi) as [HS Hcase].
    assert (in_stage (pc w) = true) as Hin
      by (destruct Hcase as [(-> & _)|(-> & _)]; done).
    split_and!; [done|by apply Hst| |].
    + destruct Hcase as [(_ & Hf & ->)|(_ & Ho & _)];
        [done|by eapply open_x_is_file].
    + destruct Hcase as [(Hpc & Hf & ->)|(Hpc & Ho & ->)]; [by left|right].
      split_and!; [done|by apply Havg|done].
  - intros Hdis Hsound j sid sd Hj Hat.
    apply (averages_sound_run J Hdis cs fs0 n Hsound j sid sd Hat).
    by apply (Hdone j sid).
Qed.

Lemma C3_advance_after_avg_done_witness :
  let s := run job2 (replicate 27 (go 0)) (start fs_clean 1) in
  sys_workers s !! 0 = Some after_rigid ∧
  is_file (sys_fs s) (average_done rigid) = true ∧
  is_file (sys_fs s) (average_path job2 "rigid") = true.
Proof.
  cbv zeta.
  assert (sys_workers (run job2 (replicate 27 (go 0)) (start fs_clean 1)) !! 0
          = Some after_rigid) as Hw by (vm_compute; reflexivity).
  destruct (C3_advance_after_avg_done job2 1 fs_clean (replicate 27 (go 0))
              0 after_rigid Hw) as (Hdone & _ & Havg).
  assert (stage_at job2 0 = Some ("rigid", rigid)) as Hat
    by (vm_compute; reflexivity).
  assert (0 < i after_rigid)%nat as Hlt by (simpl; lia).
  exact (conj Hw (conj (Hdone 0 "rigid" rigid Hlt Hat)
           (Havg stage_dirs_distinct_job2 (averages_sound_clean job2)
              0 "rigid" rigid Hlt Hat))).
Defined.

(** C4.  What the code does where the claim expects polling: a worker at
    line 102 that finds [avg_started] sleeps twice (lines 103 and 114) and
    then, instead of looking at [avg_done] again, runs into line 117.  With
    no specimen claimed before, this raises [UnboundLocalError]; otherwise
    the registration code is entered for the stale specimen. *)
Theorem C4_waiting_worker_falls_through (J : Job) (c1 c2 c3 : sched)
    (fs : FileSystem) (w : worker) :
  pc w = L102_avg_started →
  is_file fs (starting_avg (stage_dir w)) = true →
  let '(fs1, w1, ev1) := wstep J c1 fs w in
  let '(fs2, w2, ev2) := wstep J c2 fs1 w1 in
  let '(fs3, w3, ev3) := wstep J c3 fs2 w2 in
  fs3 = fs ∧ ev1 = [EvSleep] ∧ ev2 = [EvSleep] ∧
  pc w1 = L114_sleep ∧ pc w2 = L117_inputs ∧
  match next_spec_id w with
  | None => pc w3 = Raised UnboundLocalError
  | Some _ => pc w3 = L129_param_file ∨ pc w3 = Raised IndexError
  end.
Proof.
  intros Hpc Hf. unfold wstep at 1. rewrite Hpc, Hf.
  unfold wstep at 1. cbn [pc goto]. unfold wstep. cbn [pc goto next_spec_id].
  destruct (next_spec_id w) as [s|]; [|done].
  destruct (resolve_volumes J (goto L117_inputs (goto L114_sleep w)) s)
    as [[mv fx]|]; split_and!; auto.
Qed.

Lemma C4_waiting_worker_falls_through_witness :
  pc (idle_at L102_avg_started) = L102_avg_started ∧
  is_file fs_stuck (starting_avg rigid) = true ∧
  (let '(fs1, w1, ev1) :=
     wstep job1 (go 0) fs_stuck (idle_at L102_avg_started) in
   let '(fs2, w2, ev2) := wstep job1 (go 0) fs1 w1 in
   let '(fs3, w3, ev3) := wstep job1 (go 0) fs2 w2 in
   fs3 = fs_stuck ∧ ev1 = [EvSleep] ∧ ev2 = [EvSleep] ∧
   pc w1 = L114_sleep ∧ pc w2 = L117_inputs ∧
   pc w3 = Raised UnboundLocalError) ∧
  (let s := run job1 (gos 0 8) (start fs_stuck 1) in
   pc <$> sys_workers s = [Raised UnboundLocalError] ∧
   sys_trace s = [(0, EvSleep); (0, EvSleep)]).
Proof.
  assert (is_file fs_stuck (starting_avg rigid) = true) as Hf
    by (vm_compute; reflexivity).
  pose proof (C4_waiting_worker_falls_through job1 (go 0) (go 0) (go 0)
                fs_stuck (idle_at L102_avg_started) eq_refl Hf) as H.
  refine (conj eq_refl (conj Hf (conj H _))).
  cbv zeta. split; vm_compute; reflexivity.
Defined.


(** C5, counterexample.  Two workers claim specimen [c] and both run its
    registration to success; the second to finish does not go on: its
    exclusive creation of [spec_done] raises [FileExistsError]. *)
Lemma C5_second_finisher_raises :
  let s := run job1 duplicate_claim (start fs_clean 2) in
  filter (λ e, is_run e.2 = true) (sys_trace s) =
    [(0, EvRun (rigid // "elastix_params_rigid.txt") ["in"; "c.nrrd"] rigid
           ["target"; "fixed.nrrd"]);
     (1, EvRun (rigid // "elastix_params_rigid.txt") ["in"; "c.nrrd"] rigid
           ["target"; "fixed.nrrd"])] ∧
  is_file (sys_fs s) (rigid // "c" // "c.nrrd") = true ∧
  is_file (sys_fs s) (spec_done rigid "c") = true ∧
  ¬ (∀ w, w ∈ sys_workers s → continues_normally w).
Proof.
  cbv zeta. set (s := run job1 duplicate_claim (start fs_clean 2)).
  assert ((pc <$> sys_workers s) !! 1 = Some (Raised FileExistsError)) as Hpc
    by (vm_compute; reflexivity).
  split_and!; [vm_compute; reflexivity..|].
  clearbody s. intros Hall. rewrite list_lookup_fmap in Hpc.
  destruct (sys_workers s !! 1) as [w|] eqn:Hw; [|done].
  injection Hpc as Hpc. by apply (Hall w (list_elem_of_lookup_2 _ _ _ Hw) FileExistsError).
Qed.

(** C5, amended.  A completion marker is created at most once along every
    run.  When two workers have both registered the same specimen, the first
    to reach line 150 creates the marker and returns to line 86; the other
    one's exclusive creation fails, [FileExistsError] is raised out of
    [run_elastix_stage], and the marker is on disk. *)
Theorem C5_one_marker_second_finisher_raises (J : Job) :
  (∀ n fs0 cs d sid,
     (created (spec_done d sid) (sys_trace (run J cs (start fs0 n))) ≤ 1)%nat) ∧
  (∀ fs w1 w2 c1 c2 sid,
     pc w1 = L150_spec_done → pc w2 = L150_spec_done →
     stage_dir w2 = stage_dir w1 →
     next_spec_id w1 = Some sid → next_spec_id w2 = Some sid →
     is_dir fs (stage_dir w1 // sid) = true →
     stat fs (spec_done (stage_dir w1) sid) = None →
     let marker := spec_done (stage_dir w1) sid in
     let '(fs1, w1', ev1) := wstep J c1 fs w1 in
     let '(fs2, w2', ev2) := wstep J c2 fs1 w2 in
     pc w1' = L86_select ∧ ev1 = [EvOpenX marker None] ∧
     pc w2' = Raised FileExistsError ∧
     ev2 = [EvOpenX marker (Some FileExistsError)] ∧
     fs2 = fs1 ∧ is_file fs2 marker = true).
Proof.
  split.
  - intros n fs0 cs d sid. apply created_inv_run.
  - intros fs w1 w2 c1 c2 sid Hpc1 Hpc2 Hsd Hn1 Hn2 Hd Hnone marker.
    assert (open_x fs marker = inr (<[marker := File]> fs)) as Ho.
    { apply open_x_inr. unfold marker, spec_done. rewrite parent_pjoin.
      by apply is_dir_true in Hd. }
    assert (open_x (<[marker := File]> fs) marker = inl FileExistsError) as Ho'.
    { apply open_x_exists with File.
      - unfold marker, spec_done. rewrite parent_pjoin.
        eapply stat_weaken; [by apply stat_None_insert|]. by apply is_dir_true.
      - apply stat_insert. apply pjoin_nonempty. }
    unfold wstep. rewrite Hpc1, Hn1. fold marker. rewrite Ho.
    rewrite Hpc2, Hn2, Hsd. fold marker. rewrite Ho'.
    split_and!; try done. apply is_file_true, stat_insert, pjoin_nonempty.
Qed.

Lemma C5_one_marker_second_finisher_raises_witness :
  pc (finishing "c") = L150_spec_done ∧
  next_spec_id (finishing "c") = Some "c" ∧
  is_dir fs_c_registered (rigid // "c") = true ∧
  stat fs_c_registered (spec_done rigid "c") = None ∧
  (let marker := spec_done rigid "c" in
   let '(fs1, w1', ev1) :=
     wstep job1 (go 0) fs_c_registered (finishing "c") in
   let '(fs2, w2', ev2) := wstep job1 (go 1) fs1 (finishing "c") in
   pc w1' = L86_select ∧ ev1 = [EvOpenX marker None] ∧
   pc w2' = Raised FileExistsError ∧
   ev2 = [EvOpenX marker (Some FileExistsError)] ∧
   fs2 = fs1 ∧ is_file fs2 marker = true).
Proof.
  assert (is_dir fs_c_registered (rigid // "c") = true) as Hd
    by (vm_compute; reflexivity).
  assert (stat fs_c_registered (spec_done rigid "c") = None) as Hn
    by (vm_compute; reflexivity).
  exact (conj eq_refl (conj eq_refl (conj Hd (conj Hn
    (proj2 (C5_one_marker_second_finisher_raises job1) fs_c_registered
       (finishing "c") (finishing "c") (go 0) (go 1) "c"
       eq_refl eq_refl eq_refl eq_refl eq_refl Hd Hn))))).
Defined.





(** C8.  At line 106 an existing [avg_started] is absorbed: the worker goes
    on to line 114 and the filesystem is unchanged.  Any other error of the
    creation (the stage directory is missing, or is a file) is raised, and
    the worker takes no further step. *)
Theorem C8_election_errors (J : Job) (c : sched) (fs : FileSystem)
    (w : worker) :
  pc w = L106_open_started →
  let marker := starting_avg (stage_dir w) in
  (is_dir fs (stage_dir w) = true → is_Some (stat fs marker) →
     wstep J c fs w =
       (fs, goto L114_sleep w, [EvOpenX marker (Some FileExistsError)])) ∧
  (is_dir fs (stage_dir w) = true → stat fs marker = None →
     wstep J c fs w =
       (<[marker := File]> fs, goto L111_make_avg w, [EvOpenX marker None])) ∧
  (stat fs (stage_dir w) = None →
     wstep J c fs w =
       (fs, raise FileNotFoundError w,
        [EvOpenX marker (Some FileNotFoundError)])) ∧
  (stat fs (stage_dir w) = Some File →
     wstep J c fs w =
       (fs, raise NotADirectoryError w,
        [EvOpenX marker (Some NotADirectoryError)])) ∧
  (∀ e, open_x fs marker = inl e → e ≠ FileExistsError →
     wstep J c fs w = (fs, raise e w, [EvOpenX marker (Some e)]) ∧
     ∀ c' fs1, wstep J c' fs1 (raise e w) = (fs1, raise e w, [])).
Proof.
  intros Hpc marker.
  assert (parent marker = stage_dir w) as Hpar by apply parent_pjoin.
  unfold wstep. rewrite Hpc. fold marker. split_and!.
  - intros Hd [x Hx]. apply is_dir_true in Hd.
    rewrite (open_x_exists fs marker x); [done|by rewrite Hpar|done].
  - intros Hd Hn. apply is_dir_true in Hd.
    rewrite (proj2 (open_x_inr fs marker (<[marker:=File]> fs))); [done|].
    by rewrite Hpar.
  - intros Hn. unfold open_x, resolve_parent. by rewrite Hpar, Hn.
  - intros Hn. unfold open_x, resolve_parent. by rewrite Hpar, Hn.
  - intros e He Hne. rewrite He. split; [by destruct e|].
    intros c' fs1. by apply wstep_stopped.
Qed.

Lemma C8_election_errors_witness :
  pc (idle_at L106_open_started) = L106_open_started ∧
  wstep job1 (go 0) fs_stuck (idle_at L106_open_started) =
    (fs_stuck, goto L114_sleep (idle_at L106_open_started),
     [EvOpenX (starting_avg rigid) (Some FileExistsError)]) ∧
  wstep job1 (go 0) fs_clean (idle_at L106_open_started) =
    (fs_clean, raise FileNotFoundError (idle_at L106_open_started),
     [EvOpenX (starting_avg rigid) (Some FileNotFoundError)]).
Proof.
  assert (is_dir fs_stuck rigid = true) as Hd by (vm_compute; reflexivity).
  assert (is_Some (stat fs_stuck (starting_avg rigid))) as Hs.
  { exists File. vm_compute. reflexivity. }
  assert (stat fs_clean rigid = None) as Hn by (vm_compute; reflexivity).
  destruct (C8_election_errors job1 (go 0) fs_stuck
              (idle_at L106_open_started) eq_refl) as (H1 & _).
  destruct (C8_election_errors job1 (go 0) fs_clean
              (idle_at L106_open_started) eq_refl) as (_ & _ & H3 & _).
  exact (conj eq_refl (conj (H1 Hd Hs) (H3 Hn))).
Defined.

(** C9.  Fixed-volume chaining.  Whenever a worker calls the registration
    engine in stage 0, the moving volume is [inputs_dir/<spec>.nrrd] and the
    fixed volume is the configured one; in stage [j+1] the moving volume is
    [<stage_dir j>/<spec>/<spec>.nrrd] and the fixed volume is
    [out_dir/averages/<stage_id j>.nrrd].  Whenever it calls [make_avg], the
    average goes to [out_dir/averages/<stage_id>.nrrd].  The keys of
    [stage_dirs] are assumed to be the stage ids in stage order. *)
Theorem C9_fixed_volume_chaining (J : Job) (n : nat) (fs0 : FileSystem)
    (cs : list sched) (k : nat) (w : worker) (c : sched) (ev : event) :
  (stage_dirs (config J)).*1 = registration_stage_params (config J) →
  NoDup (registration_stage_params (config J)) →
  let s := run J cs (start fs0 n) in
  sys_workers s !! k = Some w →
  ev ∈ (wstep J c (sys_fs s) w).2 →
  match ev with
  | EvRun _ mv sd fx =>
      ∃ sid spec,
        stage_at J (i w) = Some (sid, sd) ∧ next_spec_id w = Some spec ∧
        match i w with
        | 0 => mv = inputs_dir J // (spec +:+ ".nrrd") ∧
               fx = fixed_volume (config J)
        | S j =>
            ∃ prev_id prev_dir,
              stage_at J j = Some (prev_id, prev_dir) ∧
              mv = prev_dir // spec // (spec +:+ ".nrrd") ∧
              fx = out_dir J // "averages" // (prev_id +:+ ".nrrd")
        end
  | EvMakeAvg sd out =>
      ∃ sid, stage_at J (i w) = Some (sid, sd) ∧
             out = out_dir J // "averages" // (sid +:+ ".nrrd")
  | _ => True
  end.
Proof.
  intros Hkeys Hnd s Hw Hev.
  destruct (stage_inv_run J cs fs0 n k w Hw) as (Hst & _ & _).
  pose proof (volumes_inv_run J cs fs0 n k w Hw) as [Hfix Hvol].
  destruct ev as [|p mv sd fx|sd out|]; [done| | |done].
  - apply wstep_run_event in Hev as (Hpc & -> & -> & -> & ->).
    rewrite Hpc in Hst, Hfix, Hvol.
    destruct (Hvol eq_refl) as (spec & Hspec & Hres).
    exists (stage_id w), spec. split_and!; [by apply Hst|done|].
    unfold resolve_volumes in Hres. destruct (i w) as [|j] eqn:Hi.
    + simplify_eq. split; [done|]. apply Hfix; auto.
    + destruct ((stage_dirs (config J)).*2 !! j) as [pd|] eqn:Hpd; [|done].
      destruct ((stage_dirs (config J)).*1 !! j) as [pid|] eqn:Hpid; [|done].
      simplify_eq. exists pid, pd. split_and!; [|done|done].
      by apply stage_at_lookup.
  - apply wstep_make_avg_event in Hev as (Hpc & -> & ->).
    rewrite Hpc in Hst. exists (stage_id w). split; [by apply Hst|done].
Qed.

Lemma C9_fixed_volume_chaining_witness :
  let s := run job2 (gos 0 31) (start fs_clean 1) in
  let ev := EvRun (["out"; "affine"] // "elastix_params_affine.txt")
              ["out"; "rigid"; "c"; "c.nrrd"] ["out"; "affine"]
              ["out"; "averages"; "rigid.nrrd"] in
  (stage_dirs (config job2)).*1 = registration_stage_params (config job2) ∧
  NoDup (registration_stage_params (config job2)) ∧
  sys_workers s !! 0 = Some affine_c ∧
  ev ∈ (wstep job2 (go 0) (sys_fs s) affine_c).2 ∧
  ∃ sid spec,
    stage_at job2 1 = Some (sid, ["out"; "affine"]) ∧
    next_spec_id affine_c = Some spec ∧
    ∃ prev_id prev_dir,
      stage_at job2 0 = Some (prev_id, prev_dir) ∧
      ["out"; "rigid"; "c"; "c.nrrd"] = prev_dir // spec // (spec +:+ ".nrrd") ∧
      ["out"; "averages"; "rigid.nrrd"]
        = out_dir job2 // "averages" // (prev_id +:+ ".nrrd").
Proof.
  cbv zeta.
  assert ((stage_dirs (config job2)).*1 = registration_stage_params (config job2))
    as Hk by reflexivity.
  assert (NoDup (registration_stage_params (config job2))) as Hnd
    by (apply (bool_decide_unpack _); vm_compute; exact I).
  assert (sys_workers (run job2 (gos 0 31) (start fs_clean 1)) !! 0
          = Some affine_c) as Hw by (vm_compute; reflexivity).
  assert ((wstep job2 (go 0) (sys_fs (run job2 (gos 0 31) (start fs_clean 1)))
             affine_c).2 =
          [EvRun (["out"; "affine"] // "elastix_params_affine.txt")
              ["out"; "rigid"; "c"; "c.nrrd"] ["out"; "affine"]
              ["out"; "averages"; "rigid.nrrd"]]) as Hevs
    by (vm_compute; reflexivity).
  assert (EvRun (["out"; "affine"] // "elastix_params_affine.txt")
              ["out"; "rigid"; "c"; "c.nrrd"] ["out"; "affine"]
              ["out"; "averages"; "rigid.nrrd"]
          ∈ (wstep job2 (go 0) (sys_fs (run job2 (gos 0 31) (start fs_clean 1)))
               affine_c).2) as Hev
    by (rewrite Hevs; apply list_elem_of_here).
  exact (conj Hk (conj Hnd (conj Hw (conj Hev
    (C9_fixed_volume_chaining job2 1 fs_clean (gos 0 31) 0 affine_c (go 0) _
       Hk Hnd Hw Hev))))).
Defined.

(** C10.  [make_avg] averages exactly the paths [d/<name of d>.nrrd] for the
    subdirectories [d] of the stage directory, each once: non-directories
    are skipped, and neither [spec_done] nor the presence of the volume is
    looked at when the list is built. *)
Theorem C10_make_avg_inputs (fs : FileSystem) (root_dir : path) :
  (∀ p, p ∈ make_avg_paths fs root_dir ↔
        ∃ nm, stat fs (root_dir // nm) = Some Dir ∧
              p = root_dir // nm // (nm +:+ ".nrrd")) ∧
  NoDup (make_avg_paths fs root_dir) ∧
  (∀ shapes_ok out,
     make_avg shapes_ok fs root_dir out =
       if forallb (is_file fs) (make_avg_paths fs root_dir) && shapes_ok
       then open_w fs out else inl AverageError).
Proof.
  unfold make_avg_paths. rewrite make_avg_loop_spec. simpl. split_and!.
  - intros p. rewrite list_elem_of_fmap. split.
    + intros (sd & -> & Hsd). apply list_elem_of_filter in Hsd as [Hd Hsd].
      apply elem_of_iterdir in Hsd as (_ & Hne & <-).
      exists (name sd). rewrite <- path_split by done.
      split; [by apply is_dir_true|done].
    + intros (nm & Hd & ->). exists (root_dir // nm).
      rewrite name_pjoin. split; [done|].
      apply list_elem_of_filter. apply is_dir_true in Hd.
      split; [done|by apply iterdir_is_dir].
  - apply NoDup_fmap_2_strong; [|apply NoDup_filter, NoDup_iterdir].
    intros x y _ _ Hxy. by apply pjoin_inj in Hxy as [? _].
  - intros shapes_ok out. unfold make_avg, common_average, make_avg_paths.
    by rewrite make_avg_loop_spec.
Qed.

(** A directory without marker and a directory without volume are both
    averaged; a plain file is not. *)
Lemma C10_make_avg_inputs_witness :
  rigid // "c" // "c.nrrd" ∈ make_avg_paths fs_stray rigid ∧
  rigid // "junk" // "junk.nrrd" ∈ make_avg_paths fs_stray rigid ∧
  length (make_avg_paths fs_stray rigid) = 3 ∧
  is_file fs_stray (spec_done rigid "c") = false ∧
  is_file fs_stray (rigid // "junk" // "junk.nrrd") = false ∧
  make_avg true fs_stray rigid (average_path job1 "rigid") = inl AverageError.
Proof.
  split_and!.
  - apply (proj1 (C10_make_avg_inputs fs_stray rigid)). exists "c".
    split; [vm_compute; reflexivity|reflexivity].
  - apply (proj1 (C10_make_avg_inputs fs_stray rigid)). exists "junk".
    split; [vm_compute; reflexivity|reflexivity].
  - vm_compute. reflexivity.
  - vm_compute. reflexivity.
  - vm_compute. reflexivity.
  - vm_compute. reflexivity.
Defined.

(** * Further properties of the coordinator *)

(** X1.  [check_stage_done] holds exactly when every immediate subdirectory
    of the stage directory holds a regular file [spec_done].  A stage
    directory without subdirectories passes; entries that are not
    directories are ignored; a subdirectory whose [spec_done] is missing, or
    is itself a directory, fails the test. *)
Theorem X1_check_stage_done_characterised (fs : FileSystem) (d : path) :
  (check_stage_done fs d = true ↔
     ∀ n, is_dir fs (d // n) = true →
          is_file fs (d // n // "spec_done") = true) ∧
  ((∀ n, is_dir fs (d // n) = false) → check_stage_done fs d = true) ∧
  (∀ n, is_dir fs (d // n) = true →
        stat fs (d // n // "spec_done") ≠ Some File →
        check_stage_done fs d = false).
Proof.
  split_and!.
  - apply check_stage_done_true.
  - intros Hnone. apply check_stage_done_true. intros n Hn.
    by rewrite Hnone in Hn.
  - intros n Hn Hf. destruct (check_stage_done fs d) eqn:Hc; [|done].
    exfalso. apply Hf. rewrite check_stage_done_true in Hc.
    by apply is_file_true, Hc.
Qed.

Lemma wstep_elected J c fs w fs' w' evs d :
  wstep J c fs w = (fs', w', evs) → elected d w' = true →
  elected d w = true ∨ countb (is_created (starting_avg d)) evs = 1.
Proof.
  intros H. unfold elected, is_created.
  wstep_inv H; simpl; subst_pc; simpl; try done; auto.
  - intros Hd. apply bool_decide_eq_true in Hd as <-. right.
    by rewrite bool_decide_eq_true_2.
Qed.

Lemma stuck_inv_step J d s c : stuck_inv d s → stuck_inv d (sys_step J s c).
Proof.
  intros (Hs & Hc & Hm & Hf & Hel). unfold sys_step.
  destruct (sys_workers s !! who c) as [w|] eqn:Hw; [|done].
  destruct (wstep J c (sys_fs s) w) as [[fs' w'] evs] eqn:H.
  pose proof (wstep_mono _ _ _ _ _ _ _ H) as Hsub.
  assert (countb (is_created (starting_avg d)) evs = 0) as Hc0.
  { destruct (wstep_created _ _ _ _ _ _ _ (starting_avg d) H)
      as [?|(_ & Hn & _)]; [done|].
    destruct Hs as [x Hx]. congruence. }
  assert (elected d w = false) as Hnw
    by (eapply Hel, list_elem_of_lookup_2, Hw).
  assert (elected d w' = false) as Hnw'.
  { destruct (elected d w') eqn:He; [|done].
    destruct (wstep_elected _ _ _ _ _ _ _ d H He); congruence. }
  unfold stuck_inv, created, make_avg_calls in *. simpl.
  rewrite !countb_app, !countb_fmap.
  change (countb ((λ e : nat * event, is_created (starting_avg d) e.2) ∘ pair (who c)) evs)
    with (countb (is_created (starting_avg d)) evs).
  change (countb ((λ e : nat * event, is_make_avg d e.2) ∘ pair (who c)) evs)
    with (countb (is_make_avg d) evs).
  split_and!.
  - destruct Hs as [x Hx]. exists x. by eapply stat_weaken.
  - lia.
  - rewrite Hm. simpl.
    destruct (countb (is_make_avg d) evs) eqn:Hn; [done|]. exfalso.
    destruct (wstep_election _ _ _ _ _ _ _ d H) as
      [(_ & Hz & _)|[(_ & Hz & _)|(_ & _ & Hb & _)]]; try congruence.
    unfold elected in Hnw. unfold builder in Hb.
    destruct (pc w); try done. by rewrite Hnw in Hb.
  - destruct (is_file fs' (average_done d)) eqn:Hq; [|done]. exfalso.
    destruct (wstep_new_file _ _ _ _ _ _ _ _ H Hq) as [?|Hnew]; [congruence|].
    unfold elected in Hnw. destruct (pc w) eqn:Hpc; try done.
    all: unfold spec_done, starting_avg, average_done, average_path,
           elxparam_path in Hnew.
    + by apply pjoin_inj in Hnew as [_ ?].
    + apply pjoin_inj in Hnew as [_ Hn]. symmetry in Hn.
      by apply nrrd_not_marker in Hn.
    + apply pjoin_inj in Hnew as [-> _]. by rewrite bool_decide_eq_true_2 in Hnw.
    + apply pjoin_inj in Hnew as [_ Hn]. symmetry in Hn.
      by apply txt_not_marker in Hn.
    + destruct Hnew as (s0 & _ & Hnew). apply pjoin_inj in Hnew as [_ Hn].
      symmetry in Hn. by apply nrrd_not_marker in Hn.
    + destruct Hnew as (s0 & _ & Hnew). by apply pjoin_inj in Hnew as [_ ?].
  - intros w0 Hw0. apply list_elem_of_lookup in Hw0 as [k Hk].
    apply list_lookup_insert_Some in Hk as [(_ & <- & _)|[? Hk]]; [done|].
    eapply Hel, list_elem_of_lookup_2, Hk.
Qed.

Lemma stuck_inv_start d fs n :
  is_Some (stat fs (starting_avg d)) → is_file fs (average_done d) = false →
  stuck_inv d (start fs n).
Proof.
  intros Hs Hf. split_and!; try done. simpl. intros w Hw.
  by apply elem_of_replicate in Hw as [-> _].
Qed.

(** X2.  A leftover [avg_started] blocks the stage for good.  When an entry
    [avg_started] already exists in the stage directory [d] as the workers
    start (left behind by a builder that died or whose averaging failed; a
    specimen directory of that name counts too) and [avg_done] is missing,
    then along every run no worker creates [avg_started], none is elected,
    [make_avg] is never called on [d], [avg_done] never appears, and no
    worker's stage index ever gets past a stage whose directory is [d]. *)
Theorem X2_leftover_avg_started_blocks_stage (J : Job) (n : nat)
    (fs0 : FileSystem) (cs : list sched) (d : path) :
  is_Some (stat fs0 (starting_avg d)) →
  is_file fs0 (average_done d) = false →
  let s := run J cs (start fs0 n) in
  created (starting_avg d) (sys_trace s) = 0 ∧
  make_avg_calls d (sys_trace s) = 0 ∧
  is_file (sys_fs s) (average_done d) = false ∧
  (∀ w, w ∈ sys_workers s → elected d w = false) ∧
  (∀ k w j sid, sys_workers s !! k = Some w →
     stage_at J j = Some (sid, d) → (i w ≤ j)%nat).
Proof.
  intros Hs Hf s.
  assert (stuck_inv d s) as (_ & Hc & Hm & Hd & Hel).
  { apply run_invariant; [apply stuck_inv_step|by apply stuck_inv_start]. }
  split_and!; try done.
  intros k w j sid Hw Hat.
  destruct (stage_inv_run J cs fs0 n k w Hw) as (_ & _ & Hdone). fold s in Hdone.
  destruct (decide (i w ≤ j)%nat) as [|Hlt]; [done|]. exfalso.
  rewrite (Hdone j sid d) in Hd; [done|lia|done].
Qed.

Lemma X2_leftover_avg_started_blocks_stage_witness :
  let s := run job1 (gos 0 8 ++ gos 1 8) (start fs_stuck 2) in
  is_Some (stat fs_stuck (starting_avg rigid)) ∧
  is_file fs_stuck (average_done rigid) = false ∧
  created (starting_avg rigid) (sys_trace s) = 0 ∧
  make_avg_calls rigid (sys_trace s) = 0 ∧
  is_file (sys_fs s) (average_done rigid) = false.
Proof.
  cbv zeta.
  assert (is_Some (stat fs_stuck (starting_avg rigid))) as Hs
    by (exists File; vm_compute; reflexivity).
  assert (is_file fs_stuck (average_done rigid) = false) as Hf
    by (vm_compute; reflexivity).
  destruct (X2_leftover_avg_started_blocks_stage job1 2 fs_stuck
              (gos 0 8 ++ gos 1 8) rigid Hs Hf) as (H1 & H2 & H3 & _).
  exact (conj Hs (conj Hf (conj H1 (conj H2 H3)))).
Defined.

Lemma in_order_grow l tr evs : in_order l tr → in_order l (tr ++ evs).
Proof. apply sublist_inserts_r. Qed.

Lemma in_order_snoc l tr e : in_order l tr → in_order (l ++ [e]) (tr ++ [e]).
Proof. intros H. by apply sublist_app. Qed.

(** How a worker gets to lines 111 and 112, and which step creates which
    path exclusively. *)
Lemma wstep_build_cases J c fs w fs' w' evs :
  wstep J c fs w = (fs', w', evs) →
  (pc w' = L111_make_avg →
     pc w = L106_open_started ∧ stage_dir w' = stage_dir w ∧
     evs = [EvOpenX (starting_avg (stage_dir w)) None]) ∧
  (pc w' = L112_open_done →
     pc w = L111_make_avg ∧ stage_dir w' = stage_dir w ∧
     evs = [EvMakeAvg (stage_dir w) (average_path J (stage_id w))]) ∧
  (∀ p, EvOpenX p None ∈ evs →
     evs = [EvOpenX p None] ∧
     ((pc w = L106_open_started ∧ p = starting_avg (stage_dir w)) ∨
      (pc w = L112_open_done ∧ p = average_done (stage_dir w)) ∨
      (pc w = L150_spec_done ∧
       ∃ s, next_spec_id w = Some s ∧ p = spec_done (stage_dir w) s))).
Proof.
  intros H.
  wstep_inv H; simpl; (split_and!; [intros Hpc|intros Hpc|intros xp Hp]);
    subst_pc; try done;
    repeat (apply elem_of_cons in Hp as [Hp|Hp]; simplify_eq);
    try (by apply elem_of_nil in Hp); eauto 10.
Qed.

Lemma build_order_inv_step J s c :
  build_order_inv s → build_order_inv (sys_step J s c).
Proof.
  intros (H1 & H2 & H3). unfold sys_step.
  destruct (sys_workers s !! who c) as [w|] eqn:Hw; [|done].
  destruct (wstep J c (sys_fs s) w) as [[fs' w'] evs] eqn:H.
  destruct (wstep_build_cases _ _ _ _ _ _ _ H) as (Hc1 & Hc2 & Hc3).
  unfold build_order_inv. simpl. split_and!.
  - intros k wk Hk Hpc.
    apply list_lookup_insert_Some in Hk as [(<- & <- & _)|[? Hk]].
    + destruct (Hc1 Hpc) as (_ & -> & ->). simpl.
      apply (in_order_snoc []). apply sublist_nil_l.
    + by apply in_order_grow, H1.
  - intros k wk Hk Hpc.
    apply list_lookup_insert_Some in Hk as [(<- & <- & _)|[? Hk]].
    + destruct (Hc2 Hpc) as (Hpcw & -> & ->). simpl. eexists.
      apply (in_order_snoc [_]). by apply H1.
    + destruct (H2 k wk Hk Hpc) as [out Ho]. exists out.
      by apply in_order_grow.
  - intros k d Hin. apply elem_of_app in Hin as [Hin|Hin].
    + destruct (H3 k d Hin) as [out Ho]. exists out. by apply in_order_grow.
    + apply list_elem_of_fmap in Hin as (e & Heq & He).
      injection Heq as Hk He'. subst k e.
      destruct (Hc3 _ He) as (-> & [(_ & Hp)|[(Hpc & Hp)|(_ & s0 & _ & Hp)]]).
      * unfold average_done, starting_avg in Hp.
        by apply pjoin_inj in Hp as [_ ?].
      * unfold average_done in Hp. apply pjoin_inj in Hp as [-> _].
        destruct (H2 _ _ Hw Hpc) as [out Ho]. exists out. simpl.
        by apply (in_order_snoc [_; _]).
      * unfold average_done, spec_done in Hp.
        by apply pjoin_inj in Hp as [_ ?].
Qed.

Lemma build_order_inv_start fs n : build_order_inv (start fs n).
Proof.
  split_and!; simpl.
  - intros k w Hk Hpc. by apply lookup_replicate in Hk as [-> _].
  - intros k w Hk Hpc. by apply lookup_replicate in Hk as [-> _].
  - intros k d Hin. by apply elem_of_nil in Hin.
Qed.

Lemma countb_elem {A} (f : A → bool) l x :
  x ∈ l → f x = true → (0 < countb f l)%nat.
Proof.
  induction l as [|y l IH]; intros Hx Hf; [by apply elem_of_nil in Hx|].
  simpl. apply elem_of_cons in Hx as [->|Hx]; [rewrite Hf; lia|].
  specialize (IH Hx Hf). lia.
Qed.

Lemma countb_two {A} (f : A → bool) l x y :
  x ∈ l → y ∈ l → x ≠ y → f x = true → f y = true → (2 ≤ countb f l)%nat.
Proof.
  induction l as [|z l IH]; intros Hx Hy Hne Hfx Hfy;
    [by apply elem_of_nil in Hx|].
  simpl. apply elem_of_cons in Hx as [->|Hx];
    apply elem_of_cons in Hy as [->|Hy].
  - done.
  - rewrite Hfx. pose proof (countb_elem f l y Hy Hfy). lia.
  - rewrite Hfy. pose proof (countb_elem f l x Hx Hfx). lia.
  - specialize (IH Hx Hy Hne Hfx Hfy). lia.
Qed.

Lemma is_created_refl p : is_created p (EvOpenX p None) = true.
Proof. unfold is_created. by apply bool_decide_eq_true_2. Qed.

(** X3.  [avg_done] is written by the election winner only, and only after
    it has called [make_avg]: whenever worker [k] has created [avg_done] of
    a stage directory [d], the trace holds, in this order, worker [k]'s
    creation of [avg_started], its call of [make_avg] on [d], and its
    creation of [avg_done]; no other worker has created [avg_started] of
    [d], and [avg_done] of [d] has been created exactly once. *)
Theorem X3_avg_done_only_by_the_builder (J : Job) (n : nat)
    (fs0 : FileSystem) (cs : list sched) (k : nat) (d : path) :
  let s := run J cs (start fs0 n) in
  (k, EvOpenX (average_done d) None) ∈ sys_trace s →
  (∃ out, in_order [(k, EvOpenX (starting_avg d) None);
                    (k, EvMakeAvg d out);
                    (k, EvOpenX (average_done d) None)] (sys_trace s)) ∧
  (∀ k', (k', EvOpenX (starting_avg d) None) ∈ sys_trace s → k' = k) ∧
  created (average_done d) (sys_trace s) = 1.
Proof.
  intros s Hin.
  assert (build_order_inv s) as (_ & _ & H3).
  { apply run_invariant; [apply build_order_inv_step|apply build_order_inv_start]. }
  destruct (H3 k d Hin) as [out Ho]. split_and!; [by exists out| |].
  - intros k' Hin'. destruct (decide (k' = k)) as [|Hne]; [done|]. exfalso.
    destruct (election_inv_run J d cs fs0 n) as (_ & Hle & _). fold s in Hle.
    assert ((k', EvOpenX (starting_avg d) None)
            ≠ (k, EvOpenX (starting_avg d) None)) as Hneq by congruence.
    pose proof (countb_two (λ e : nat * event, is_created (starting_avg d) e.2)
                  (sys_trace s) _ _ Hin'
                  (elem_of_sublist _ _ _ (list_elem_of_here _ _) Ho)
                  Hneq (is_created_refl _) (is_created_refl _)) as H2.
    unfold created in Hle. lia.
  - destruct (created_inv_run J (average_done d) cs fs0 n) as [_ Hle].
    fold s in Hle.
    pose proof (countb_elem (λ e : nat * event, is_created (average_done d) e.2)
                  (sys_trace s) _ Hin (is_created_refl _)) as H1.
    unfold created in *. lia.
Qed.

Lemma X3_avg_done_only_by_the_builder_witness :
  let s := run job1 (gos 0 16) (start fs_two_of_three 1) in
  (0, EvOpenX (average_done rigid) None) ∈ sys_trace s ∧
  (∃ out, in_order [(0, EvOpenX (starting_avg rigid) None);
                    (0, EvMakeAvg rigid out);
                    (0, EvOpenX (average_done rigid) None)] (sys_trace s)) ∧
  created (average_done rigid) (sys_trace s) = 1.
Proof.
  cbv zeta.
  assert (sys_trace (run job1 (gos 0 16) (start fs_two_of_three 1)) !! 4
          = Some (0, EvOpenX (average_done rigid) None)) as Hl
    by (vm_compute; reflexivity).
  pose proof (list_elem_of_lookup_2 _ _ _ Hl) as Hin.
  destruct (X3_avg_done_only_by_the_builder job1 1 fs_two_of_three (gos 0 16)
              0 rigid Hin) as (H1 & _ & H3).
  exact (conj Hin (conj H1 H3)).
Defined.

(** How a worker gets to the program points after the call of the
    engine. *)
Lemma wstep_engine_cases J c fs w fs' w' evs :
  wstep J c fs w = (fs', w', evs) → engine_called (pc w') = true →
  next_spec_id w' = next_spec_id w ∧ moving w' = moving w ∧
  stage_dir w' = stage_dir w ∧ fixed_vol w' = fixed_vol w ∧
  elxparam_path J w' = elxparam_path J w ∧
  ((pc w = L148_run ∧
    evs = [EvRun (elxparam_path J w) (moving w) (stage_dir w) (fixed_vol w)]) ∨
   (engine_called (pc w) = true ∧ evs = [])).
Proof.
  intros H. wstep_inv H; simpl; intros Hpc; subst_pc; try done; auto 10.
Qed.

Lemma run_order_inv_step J s c :
  all_workers (λ _, volumes_inv J) s →
  run_order_inv J s → run_order_inv J (sys_step J s c).
Proof.
  intros Hvol (H1 & H2). unfold sys_step.
  destruct (sys_workers s !! who c) as [w|] eqn:Hw; [|done].
  destruct (wstep J c (sys_fs s) w) as [[fs' w'] evs] eqn:H.
  destruct (wstep_build_cases _ _ _ _ _ _ _ H) as (_ & _ & Hc3).
  unfold run_order_inv. simpl. split.
  - intros k wk Hk Hpc.
    apply list_lookup_insert_Some in Hk as [(<- & <- & _)|[? Hk]].
    + destruct (wstep_engine_cases _ _ _ _ _ _ _ H Hpc)
        as (-> & -> & -> & -> & -> & [(Hpcw & ->)|(Hpcw & ->)]).
      * destruct (Hvol _ _ Hw) as [_ Hreg]. rewrite Hpcw in Hreg.
        destruct (Hreg eq_refl) as (sid & Hsid & Hres). exists sid.
        split_and!; [done|by eapply resolve_volumes_name|].
        simpl. apply (in_order_snoc []). apply sublist_nil_l.
      * simpl. rewrite app_nil_r. by apply H1.
    + destruct (H1 k wk Hk Hpc) as (sid & ? & ? & Ho). exists sid.
      split_and!; [done|done|]. by apply in_order_grow.
  - intros k d sid Hin. apply elem_of_app in Hin as [Hin|Hin].
    + destruct (H2 k d sid Hin) as (elx & mv & fx & ? & Ho).
      exists elx, mv, fx. split; [done|]. by apply in_order_grow.
    + apply list_elem_of_fmap in Hin as (e & Heq & He).
      injection Heq as Hk He'. subst k e.
      destruct (Hc3 _ He) as (-> & [(_ & Hp)|[(_ & Hp)|(Hpc & s0 & Hs0 & Hp)]]).
      * unfold spec_done, starting_avg in Hp.
        by apply pjoin_inj in Hp as [_ ?].
      * unfold average_done, spec_done in Hp.
        by apply pjoin_inj in Hp as [_ ?].
      * unfold spec_done in Hp. apply pjoin_inj in Hp as [Hp _].
        apply pjoin_inj in Hp as [-> ->].
        destruct (H1 _ _ Hw) as (sid & Hsid & Hnm & Ho); [by rewrite Hpc|].
        simplify_eq. eexists _, _, _. split; [done|]. simpl.
        by apply (in_order_snoc [_]).
Qed.

Lemma run_order_inv_run J cs fs0 n : run_order_inv J (run J cs (start fs0 n)).
Proof.
  cut (all_workers (λ _, volumes_inv J) (run J cs (start fs0 n)) ∧
       run_order_inv J (run J cs (start fs0 n))); [by intros [_ ?]|].
  apply (run_invariant J (λ s, all_workers (λ _, volumes_inv J) s ∧
                                run_order_inv J s)).
  - intros s c [Hv Ho]. split; [|by apply run_order_inv_step].
    apply all_workers_step; eauto using volumes_inv_step.
  - split; [apply all_workers_start, volumes_inv_fresh|]. split; simpl.
    + intros k w Hk Hpc. by apply lookup_replicate in Hk as [-> _].
    + intros k d sid Hin. by apply elem_of_nil in Hin.
Qed.

(** X4.  A completion marker is only written after the registration engine
    was called for that specimen: whenever worker [k] has created
    [spec_done] for specimen [sid] in the stage directory [d], the trace
    holds an earlier call of the engine by worker [k] with stage directory
    [d] and a moving volume named [<sid>.nrrd]. *)
Theorem X4_marker_follows_registration (J : Job) (n : nat)
    (fs0 : FileSystem) (cs : list sched) (k : nat) (d : path) (sid : string) :
  let s := run J cs (start fs0 n) in
  (k, EvOpenX (spec_done d sid) None) ∈ sys_trace s →
  ∃ elx mv fx,
    name mv = sid +:+ ".nrrd" ∧
    in_order [(k, EvRun elx mv d fx);
              (k, EvOpenX (spec_done d sid) None)] (sys_trace s).
Proof. intros s Hin. by apply (run_order_inv_run J cs fs0 n). Qed.

Lemma X4_marker_follows_registration_witness :
  let s := run job1 (gos 0 16) (start fs_two_of_three 1) in
  (0, EvOpenX (spec_done rigid "c") None) ∈ sys_trace s ∧
  ∃ elx mv fx,
    name mv = "c" +:+ ".nrrd" ∧
    in_order [(0, EvRun elx mv rigid fx);
              (0, EvOpenX (spec_done rigid "c") None)] (sys_trace s).
Proof.
  cbv zeta.
  assert (sys_trace (run job1 (gos 0 16) (start fs_two_of_three 1)) !! 1
          = Some (0, EvOpenX (spec_done rigid "c") None)) as Hl
    by (vm_compute; reflexivity).
  pose proof (list_elem_of_lookup_2 _ _ _ Hl) as Hin.
  exact (conj Hin (X4_marker_follows_registration job1 1 fs_two_of_three
                     (gos 0 16) 0 rigid "c" Hin)).
Defined.

Lemma makedirs_is_dir todo fs done fs' :
  makedirs fs done todo = inr fs' → is_dir fs done = true →
  is_dir fs' (done ++ todo) = true.
Proof.
  revert fs done. induction todo as [|c todo IH]; intros fs done H Hd;
    simpl in H.
  - simplify_eq. by rewrite app_nil_r.
  - destruct (mkdir_exist_ok fs (done // c)) as [e|fs1] eqn:Hmk.
    + destruct e; by destruct todo.
    + replace (done ++ c :: todo) with ((done // c) ++ todo)
        by (unfold pjoin; by rewrite <- app_assoc).
      eapply IH; [done|]. by eapply mkdir_exist_ok_is_dir.
Qed.

Lemma mkdir_parents_is_dir fs p fs' :
  mkdir_parents fs p = inr fs' → is_dir fs' p = true.
Proof. intros H. by apply (makedirs_is_dir p fs [] fs'). Qed.

Lemma open_x_error fs p e :
  open_x fs p = inl e → stat fs (parent p) = Some Dir → e = FileExistsError.
Proof.
  unfold open_x, resolve_parent. intros H Hd. rewrite Hd in H.
  destruct (stat fs p); by simplify_eq.
Qed.

Section dirs.
Context (J : Job).

Lemma dirs_inv_mono fs fs' w : fs ⊆ fs' → dirs_inv J fs w → dirs_inv J fs' w.
Proof.
  intros Hsub (H1 & H2 & H3). split_and!.
  - intros Hpc. eapply is_dir_weaken; eauto.
  - intros Hpc. eapply is_dir_weaken; eauto.
  - intros Hpc. destruct (H3 Hpc) as (s & Hs & Hd). exists s.
    split; [done|]. by eapply is_dir_weaken.
Qed.

Lemma dirs_inv_step c fs w fs' w' evs :
  dirs_inv J fs w → wstep J c fs w = (fs', w', evs) → dirs_inv J fs' w'.
Proof.
  intros (H1 & H2 & H3) H.
  pose proof (wstep_mono _ _ _ _ _ _ _ H) as Hsub.
  wstep_inv H; (split_and!; simpl; intros Hpc); subst_pc;
    try done; try (by destruct Hpc);
    try (eapply is_dir_weaken; [done|]; by auto).
  - by eapply mkdir_exist_ok_is_dir.
  - by eapply mkdir_parents_is_dir.
  - eexists. split; [done|].
    match goal with Hr : run_begin _ _ _ _ = inr _ |- _ =>
      unfold run_begin in Hr; case_match; [|done];
      by eapply mkdir_exist_ok_is_dir end.
  - destruct (H3 I) as (s0 & Hs0 & Hd0). exists s0. split; [congruence|].
    by eapply is_dir_weaken.
Qed.

Lemma dirs_inv_fresh fs : dirs_inv J fs fresh_worker.
Proof. split_and!; simpl; [done| |done]. by intros [|]. Qed.

Lemma dirs_inv_run cs fs0 n : all_workers (dirs_inv J) (run J cs (start fs0 n)).
Proof.
  apply all_workers_run; eauto using dirs_inv_mono, dirs_inv_step.
  apply all_workers_start, dirs_inv_fresh.
Qed.

Lemma param_inv_mono fs fs' w : fs ⊆ fs' → param_inv J fs w → param_inv J fs' w.
Proof. intros Hsub H Hpc. eapply is_file_weaken; eauto. Qed.

Lemma param_inv_step c fs w fs' w' evs :
  param_inv J fs w → wstep J c fs w = (fs', w', evs) → param_inv J fs' w'.
Proof.
  intros Hp H. unfold param_inv in *.
  pose proof (wstep_mono _ _ _ _ _ _ _ H) as Hsub.
  wstep_inv H; simpl; intros Hpc; subst_pc;
    try (by destruct Hpc);
    try (eapply is_file_weaken; [done|]; by apply Hp; auto).
  - by eapply open_w_is_file.
  - by match goal with Hn : negb _ = false |- _ =>
      apply negb_false_iff in Hn end.
Qed.

Lemma param_inv_run cs fs0 n : all_workers (param_inv J) (run J cs (start fs0 n)).
Proof.
  apply all_workers_run; eauto using param_inv_mono, param_inv_step.
  apply all_workers_start. by intros [|].
Qed.

(** An exclusive creation made by a worker whose directories exist fails
    only because the path exists. *)
Lemma wstep_open_x_error c fs w p e :
  dirs_inv J fs w → EvOpenX p (Some e) ∈ (wstep J c fs w).2 →
  e = FileExistsError.
Proof.
  intros (H1 & _ & H3). unfold wstep. intros H.
  repeat case_match; simpl in H;
    repeat (apply elem_of_cons in H as [H|H]; simplify_eq);
    try (by apply elem_of_nil in H); try done; subst_pc.
  all: match goal with Ho : open_x _ _ = inl _ |- _ =>
         eapply open_x_error; [exact Ho|] end.
  all: unfold starting_avg, average_done, spec_done; rewrite parent_pjoin.
  all: try (apply is_dir_true; by apply H1).
  all: destruct (H3 I) as (s0 & Hs0 & Hd0); simplify_eq; by apply is_dir_true.
Qed.
End dirs.

(** X5.  The registration engine is only ever called with a parameter file
    that is on disk and inside a stage directory that exists: whenever the
    next step of a worker calls the engine, the stage's parameter file
    [<stage_dir>/<ELX_PARAM_PREFIX><stage_id>.txt] is a file, the stage
    directory and the directory of the averages are directories. *)
Theorem X5_engine_called_with_existing_files (J : Job) (n : nat)
    (fs0 : FileSystem) (cs : list sched) (k : nat) (w : worker) (c : sched)
    (elx mv sd fx : path) :
  let s := run J cs (start fs0 n) in
  sys_workers s !! k = Some w →
  EvRun elx mv sd fx ∈ (wstep J c (sys_fs s) w).2 →
  is_file (sys_fs s) elx = true ∧ is_dir (sys_fs s) sd = true ∧
  is_dir (sys_fs s) (avg_dir J) = true ∧
  ∃ sid, stage_at J (i w) = Some (sid, sd) ∧
         elx = sd // (ELX_PARAM_PREFIX J +:+ sid +:+ ".txt").
Proof.
  intros s Hw Hev.
  apply wstep_run_event in Hev as (Hpc & -> & -> & -> & ->).
  destruct (dirs_inv_run J cs fs0 n k w Hw) as (Hd & Ha & _).
  pose proof (param_inv_run J cs fs0 n k w Hw) as Hp.
  destruct (stage_inv_run J cs fs0 n k w Hw) as (Hst & _ & _).
  fold s in Hd, Ha, Hp. unfold param_inv in Hp.
  rewrite Hpc in Hd, Ha, Hp, Hst.
  split_and!; [apply Hp; by left|by apply Hd|apply Ha; by right|].
  exists (stage_id w). split; [by apply Hst|done].
Qed.

(** X6.  In a run, an exclusive creation ([avg_started], [avg_done],
    [spec_done]) never fails for any reason but the existence of the path:
    the directory that is to hold the marker has been made before by the
    worker itself, so every failed creation logged in the trace is a
    [FileExistsError]. *)
Theorem X6_creation_fails_only_on_existence (J : Job) (n : nat)
    (fs0 : FileSystem) (cs : list sched) (k : nat) (p : path) (e : exn) :
  (k, EvOpenX p (Some e)) ∈ sys_trace (run J cs (start fs0 n)) →
  e = FileExistsError.
Proof.
  revert k p e.
  cut (all_workers (dirs_inv J) (run J cs (start fs0 n)) ∧
       ∀ k p e, (k, EvOpenX p (Some e)) ∈ sys_trace (run J cs (start fs0 n)) →
                e = FileExistsError); [by intros [_ ?]|].
  apply (run_invariant J (λ s, all_workers (dirs_inv J) s ∧
           ∀ k p e, (k, EvOpenX p (Some e)) ∈ sys_trace s →
                    e = FileExistsError)).
  - intros s c [Hd Ht]. split.
    { apply all_workers_step; eauto using dirs_inv_mono, dirs_inv_step. }
    unfold sys_step.
    destruct (sys_workers s !! who c) as [w|] eqn:Hw; [|done].
    destruct (wstep J c (sys_fs s) w) as [[fs' w'] evs] eqn:H. simpl.
    intros k p e Hin. apply elem_of_app in Hin as [Hin|Hin]; [by eapply Ht|].
    apply list_elem_of_fmap in Hin as (ev & Heq & Hev).
    injection Heq as _ <-.
    eapply (wstep_open_x_error J c (sys_fs s) w); [by eapply Hd|].
    by rewrite H.
  - split.
    + apply all_workers_start, dirs_inv_fresh.
    + simpl. intros k p e Hin. by apply elem_of_nil in Hin.
Qed.

Lemma X5_engine_called_with_existing_files_witness :
  let s := run job2 (gos 0 31) (start fs_clean 1) in
  let elx := ["out"; "affine"] // "elastix_params_affine.txt" in
  sys_workers s !! 0 = Some affine_c ∧
  EvRun elx ["out"; "rigid"; "c"; "c.nrrd"] ["out"; "affine"]
        ["out"; "averages"; "rigid.nrrd"]
    ∈ (wstep job2 (go 0) (sys_fs s) affine_c).2 ∧
  is_file (sys_fs s) elx = true ∧
  is_dir (sys_fs s) ["out"; "affine"] = true ∧
  is_dir (sys_fs s) (avg_dir job2) = true.
Proof.
  cbv zeta.
  assert (sys_workers (run job2 (gos 0 31) (start fs_clean 1)) !! 0
          = Some affine_c) as Hw by (vm_compute; reflexivity).
  assert ((wstep job2 (go 0) (sys_fs (run job2 (gos 0 31) (start fs_clean 1)))
             affine_c).2 =
          [EvRun (["out"; "affine"] // "elastix_params_affine.txt")
              ["out"; "rigid"; "c"; "c.nrrd"] ["out"; "affine"]
              ["out"; "averages"; "rigid.nrrd"]]) as Hevs
    by (vm_compute; reflexivity).
  assert (EvRun (["out"; "affine"] // "elastix_params_affine.txt")
              ["out"; "rigid"; "c"; "c.nrrd"] ["out"; "affine"]
              ["out"; "averages"; "rigid.nrrd"]
          ∈ (wstep job2 (go 0) (sys_fs (run job2 (gos 0 31) (start fs_clean 1)))
               affine_c).2) as Hev
    by (rewrite Hevs; apply list_elem_of_here).
  destruct (X5_engine_called_with_existing_files job2 1 fs_clean (gos 0 31)
              0 affine_c (go 0) _ _ _ _ Hw Hev) as (H1 & H2 & H3 & _).
  exact (conj Hw (conj Hev (conj H1 (conj H2 H3)))).
Defined.

Lemma X6_creation_fails_only_on_existence_witness :
  (1, EvOpenX (spec_done rigid "c") (Some FileExistsError))
    ∈ sys_trace (run job1 duplicate_claim (start fs_clean 2)) ∧
  FileExistsError = FileExistsError.
Proof.
  assert (sys_trace (run job1 duplicate_claim (start fs_clean 2)) !! 3
          = Some (1, EvOpenX (spec_done rigid "c") (Some FileExistsError)))
    as Hl by (vm_compute; reflexivity).
  pose proof (list_elem_of_lookup_2 _ _ _ Hl) as Hin.
  exact (conj Hin (X6_creation_fails_only_on_existence job1 2 fs_clean
                     duplicate_claim 1 _ _ Hin)).
Defined.

(** X7.  An abandoned claim is never taken up again.  If a specimen's
    directory exists in the stage directory [d] while its [spec_done] is
    missing when the workers start (the worker that claimed it died, or its
    registration failed), then along every run the engine is never called in
    [d] on that specimen's volume, its marker is never created, no worker
    of that stage holds it as its claimed specimen, and every worker of that
    stage that has got as far as the barrier stays there. *)
Theorem X7_abandoned_claim_never_retried (J : Job) (n : nat)
    (fs0 : FileSystem) (cs : list sched) (d : path) (sid : string) :
  sid ∈ spec_ids J → is_dir fs0 (d // sid) = true →
  is_file fs0 (spec_done d sid) = false →
  let s := run J cs (start fs0 n) in
  runs_of d sid (sys_trace s) = 0 ∧
  created (spec_done d sid) (sys_trace s) = 0 ∧
  (∀ k w, sys_workers s !! k = Some w → stage_dir w = d →
          claiming (pc w) = true → next_spec_id w ≠ Some sid) ∧
  (∀ k w, sys_workers s !! k = Some w → stage_dir w = d →
          pc w = L94_barrier ∨ past_barrier (pc w) = false).
Proof.
  intros Hsid Hd Hf s.
  assert (withheld_inv J d sid s ∧ all_workers (λ _, volumes_inv J) s ∧
          runs_of d sid (sys_trace s) = 0 ∧
          created (spec_done d sid) (sys_trace s) = 0) as (Hw & _ & Hr & Hc).
  { apply (run_invariant J (λ s, withheld_inv J d sid s ∧
              all_workers (λ _, volumes_inv J) s ∧
              runs_of d sid (sys_trace s) = 0 ∧
              created (spec_done d sid) (sys_trace s) = 0)).
    - intros s0 c (Hw & Hv & Hr & Hc).
      pose proof (withheld_inv_step J d sid Hsid s0 c Hw) as Hw'.
      split_and!; [done| | |].
      + apply all_workers_step; eauto using volumes_inv_step.
      + destruct Hw as (_ & _ & Hws & _). unfold sys_step.
        destruct (sys_workers s0 !! who c) as [w|] eqn:Hwk; [|done].
        pose proof (wstep_runs_of J c (sys_fs s0) w d sid
                      (Hv _ _ Hwk) (proj2 (Hws _ _ Hwk))) as H0.
        destruct (wstep J c (sys_fs s0) w) as [[fs' w'] evs]. simpl in *.
        unfold runs_of in *. rewrite countb_app, countb_fmap, Hr. exact H0.
      + destruct Hw' as (Hf' & _). destruct Hw as (Hf0 & _).
        unfold sys_step in *.
        destruct (sys_workers s0 !! who c) as [w|] eqn:Hwk; [|done].
        destruct (wstep J c (sys_fs s0) w) as [[fs' w'] evs] eqn:H.
        simpl in *. unfold created in *. rewrite countb_app, countb_fmap, Hc.
        destruct (wstep_created _ _ _ _ _ _ _ (spec_done d sid) H)
          as [?|(_ & _ & Hq)]; [done|].
        apply is_file_true in Hq. congruence.
    - split_and!; [|apply all_workers_start, volumes_inv_fresh|done|done].
      apply (withheld_inv_run J d sid Hsid [] fs0 n Hd Hf). }
  destruct Hw as (Hf' & _ & Hws & _).
  split_and!; [done|done| |].
  - intros k w Hk Hsd Hpc. by apply (proj2 (Hws k w Hk)).
  - intros k w Hk <-. destruct (Hws k w Hk) as [[_ Hb] _].
    right. destruct (past_barrier (pc w)); [|done].
    rewrite Hb in Hf' by done. done.
Qed.

Lemma X7_abandoned_claim_never_retried_witness :
  let s := run job1 (gos 0 10) (start fs_withheld 1) in
  "c" ∈ spec_ids job1 ∧
  is_dir fs_withheld (rigid // "c") = true ∧
  is_file fs_withheld (spec_done rigid "c") = false ∧
  runs_of rigid "c" (sys_trace s) = 0 ∧
  created (spec_done rigid "c") (sys_trace s) = 0.
Proof.
  cbv zeta.
  assert ("c" ∈ spec_ids job1) as Hc
    by (unfold job1, job, spec_ids; elem_of_list).
  assert (is_dir fs_withheld (rigid // "c") = true) as Hd
    by (vm_compute; reflexivity).
  assert (is_file fs_withheld (spec_done rigid "c") = false) as Hf
    by (vm_compute; reflexivity).
  destruct (X7_abandoned_claim_never_retried job1 1 fs_withheld (gos 0 10)
              rigid "c" Hc Hd Hf) as (H1 & H2 & _).
  exact (conj Hc (conj Hd (conj Hf (conj H1 H2)))).
Defined.

(** ** A builder on its own *)

Lemma stat_insert_ne (fs : FileSystem) p q x :
  p ≠ q → stat (<[p:=x]> fs) q = stat fs q.
Proof. intros Hne. destruct q; [done|]. simpl. by rewrite lookup_insert_ne. Qed.

Lemma is_file_stat_None (fs : FileSystem) p : stat fs p = None → is_file fs p = false.
Proof. intros H. unfold is_file. rewrite H. by apply bool_decide_eq_false_2. Qed.

Lemma elem_of_make_avg_paths (fs : FileSystem) d p :
  p ∈ make_avg_paths fs d ↔
  ∃ nm, is_dir fs (d // nm) = true ∧ p = d // nm // (nm +:+ ".nrrd").
Proof.
  unfold make_avg_paths. rewrite make_avg_loop_spec. simpl.
  rewrite list_elem_of_fmap. split.
  - intros (sd & -> & Hsd). apply list_elem_of_filter in Hsd as [Hd Hsd].
    apply elem_of_iterdir in Hsd as (_ & Hne & <-).
    exists (name sd). by rewrite <- path_split.
  - intros (nm & Hd & ->). exists (d // nm). rewrite name_pjoin.
    split; [done|]. apply list_elem_of_filter.
    split; [done|by apply iterdir_is_dir].
Qed.

(** The result of [open(p, 'w')] on a path that is no directory. *)
Lemma open_w_ok (fs : FileSystem) p :
  stat fs (parent p) = Some Dir → stat fs p ≠ Some Dir →
  ∃ fs', open_w fs p = inr fs' ∧ stat fs' p = Some File ∧
         ∀ q, q ≠ p → stat fs' q = stat fs q.
Proof.
  intros Hpar Hp. unfold open_w, resolve_parent. rewrite Hpar.
  destruct (stat fs p) as [[|]|] eqn:Hs; [|done|].
  - exists fs. done.
  - exists (<[p:=File]> fs). split_and!; [done| |].
    + apply stat_insert. by intros ->.
    + intros q Hq. by apply stat_insert_ne.
Qed.

Lemma open_x_ok (fs : FileSystem) p :
  stat fs (parent p) = Some Dir → stat fs p = None →
  open_x fs p = inr (<[p:=File]> fs).
Proof. intros. by apply open_x_inr. Qed.

Lemma wrun_cons J c cs fs w fs1 w1 ev1 :
  wstep J c fs w = (fs1, w1, ev1) →
  wrun J (c :: cs) fs w =
    (let '(fs2, w2, ev2) := wrun J cs fs1 w1 in (fs2, w2, ev1 ++ ev2)).
Proof. intros H. simpl. by rewrite H. Qed.

(** The five steps of a builder on its own, and the filesystem they leave. *)
Lemma build_alone (J : Job) (fs : FileSystem) (w : worker)
    (c1 c2 c3 c4 c5 : sched) :
  pc w = L99_avg_done → election_ready J fs w → ext_ok c4 = true →
  let d := stage_dir w in
  let out := average_path J (stage_id w) in
  ∃ fs2,
    open_w (<[starting_avg d := File]> fs) out = inr fs2 ∧
    (∀ q, q ≠ out → stat fs2 q = stat (<[starting_avg d := File]> fs) q) ∧
    stat fs2 (average_done d) = None ∧
    wrun J [c1; c2; c3; c4; c5] fs w =
      (<[average_done d := File]> fs2, break_stage w,
       [EvOpenX (starting_avg d) None; EvMakeAvg d out;
        EvOpenX (average_done d) None]).
Proof.
  intros Hpc (Hd & Ha & Hs & Hdn & Hout & Hvol) Hok d out.
  apply is_dir_true in Hd, Ha.
  assert (starting_avg d ≠ average_done d) as Hsd.
  { unfold starting_avg, average_done. intros H. by apply pjoin_inj in H as [_ ?]. }
  assert (out ≠ average_done d) as Hod.
  { unfold out, average_path, average_done. intros H.
    apply pjoin_inj in H as [_ H]. by apply nrrd_not_marker in H. }
  set (fs1 := <[starting_avg d := File]> fs).
  assert (fs ⊆ fs1) as Hsub1 by by apply stat_None_insert.
  assert (forallb (is_file fs1) (make_avg_paths fs1 d) = true) as Hall.
  { apply forallb_forall. intros p Hp. apply list_elem_of_In in Hp.
    apply elem_of_make_avg_paths in Hp as (nm & Hnm & ->).
    eapply is_file_weaken; [done|]. apply Hvol.
    apply is_dir_true in Hnm. apply is_dir_true.
    destruct (decide (starting_avg d = d // nm)) as [Heq|Hne].
    - rewrite <- Heq in Hnm. unfold fs1 in Hnm.
      rewrite stat_insert in Hnm by apply pjoin_nonempty. done.
    - unfold fs1 in Hnm. by rewrite stat_insert_ne in Hnm. }
  destruct (open_w_ok fs1 out) as (fs2 & Hw2 & Hf2 & Hoth2).
  { unfold out, average_path. rewrite parent_pjoin.
    by eapply stat_weaken. }
  { destruct (decide (starting_avg d = out)) as [Heq|Hne].
    - rewrite <- Heq. unfold fs1.
      rewrite stat_insert by apply pjoin_nonempty. done.
    - unfold fs1. by rewrite stat_insert_ne. }
  assert (fs1 ⊆ fs2) as Hsub2 by by eapply open_w_mono.
  assert (stat fs2 (average_done d) = None) as Hn2.
  { rewrite Hoth2 by done. unfold fs1. by rewrite stat_insert_ne. }
  exists fs2. split_and!; [done|done|done|].
  rewrite (wrun_cons J c1 _ fs w fs (goto L102_avg_started w) []).
  2:{ unfold wstep. rewrite Hpc. fold d.
      by rewrite (is_file_stat_None fs (average_done d)). }
  rewrite (wrun_cons J c2 _ fs _ fs
             (goto L106_open_started (goto L102_avg_started w)) []).
  2:{ unfold wstep. cbn [pc goto stage_dir]. fold d.
      by rewrite (is_file_stat_None fs (starting_avg d)). }
  rewrite (wrun_cons J c3 _ fs _ fs1
             (goto L111_make_avg
                (goto L106_open_started (goto L102_avg_started w)))
             [EvOpenX (starting_avg d) None]).
  2:{ unfold wstep. cbn [pc goto stage_dir]. fold d.
      rewrite (open_x_ok fs (starting_avg d)); [done| |done].
      by unfold starting_avg; rewrite parent_pjoin. }
  rewrite (wrun_cons J c4 _ fs1 _ fs2
             (goto L112_open_done (goto L111_make_avg
                (goto L106_open_started (goto L102_avg_started w))))
             [EvMakeAvg d out]).
  2:{ unfold wstep. cbn [pc goto stage_dir stage_id]. fold d out.
      unfold make_avg, common_average. by rewrite Hall, Hok, Hw2. }
  rewrite (wrun_cons J c5 _ fs2 _ (<[average_done d := File]> fs2)
             (break_stage w) [EvOpenX (average_done d) None]).
  2:{ unfold wstep. cbn [pc goto stage_dir]. fold d.
      rewrite (open_x_ok fs2 (average_done d)); [done| |done].
      unfold average_done. rewrite parent_pjoin.
      eapply stat_weaken; [|exact Hd]. by etrans; [exact Hsub1|]. }
  reflexivity.
Qed.

(** X8. A worker that reaches line 99 alone, in a stage whose directories
    exist, that holds neither [avg_started] nor [avg_done], and where every
    specimen directory holds its volume, builds the average in five steps
    (lines 99, 102, 106, 111, 112) when the averaging succeeds: it creates
    [avg_started], calls [make_avg] once, creates [avg_done], and leaves
    the stage ([break] on line 113).  The three files are on disk
    afterwards and no other path has changed. *)
Theorem X8_lone_builder_completes_the_stage (J : Job) (fs : FileSystem)
    (w : worker) (c1 c2 c3 c4 c5 : sched) :
  pc w = L99_avg_done → election_ready J fs w → ext_ok c4 = true →
  let d := stage_dir w in
  let out := average_path J (stage_id w) in
  ∃ fs',
    wrun J [c1; c2; c3; c4; c5] fs w =
      (fs', break_stage w,
       [EvOpenX (starting_avg d) None; EvMakeAvg d out;
        EvOpenX (average_done d) None]) ∧
    is_file fs' (starting_avg d) = true ∧ is_file fs' out = true ∧
    is_file fs' (average_done d) = true ∧ fs ⊆ fs' ∧
    ∀ q, q ≠ starting_avg d → q ≠ out → q ≠ average_done d →
         stat fs' q = stat fs q.
Proof.
  intros Hpc Hr Hok d out.
  destruct (build_alone J fs w c1 c2 c3 c4 c5 Hpc Hr Hok)
    as (fs2 & Hw2 & Hoth2 & Hn2 & Hrun). fold d out in Hw2, Hoth2, Hn2, Hrun.
  destruct Hr as (Hd & Ha & Hs & Hdn & Hout & Hvol). fold d out in Hs, Hdn, Hout.
  assert (starting_avg d ≠ average_done d) as Hsd.
  { unfold starting_avg, average_done. intros H. by apply pjoin_inj in H as [_ ?]. }
  assert (out ≠ average_done d) as Hod.
  { unfold out, average_path, average_done. intros H.
    apply pjoin_inj in H as [_ H]. by apply nrrd_not_marker in H. }
  assert (fs ⊆ <[starting_avg d := File]> fs) as Hsub1
    by by apply stat_None_insert.
  pose proof (open_w_mono _ _ _ Hw2) as Hsub2.
  pose proof (open_w_is_file _ _ _ Hw2) as Hf2.
  exists (<[average_done d := File]> fs2). split_and!.
  - exact Hrun.
  - apply is_file_true. rewrite stat_insert_ne by done.
    eapply stat_weaken; [done|]. apply stat_insert, pjoin_nonempty.
  - apply is_file_true. rewrite stat_insert_ne by done.
    by apply is_file_true.
  - apply is_file_true, stat_insert, pjoin_nonempty.
  - etrans; [done|]. etrans; [done|]. by apply stat_None_insert.
  - intros q Hq1 Hq2 Hq3. rewrite stat_insert_ne by done.
    rewrite Hoth2 by done. by rewrite stat_insert_ne.
Qed.

Lemma X8_lone_builder_completes_the_stage_witness :
  election_ready job1 fs_election (idle_at L99_avg_done) ∧
  ∃ fs',
    wrun job1 (gos 0 5) fs_election (idle_at L99_avg_done) =
      (fs', break_stage (idle_at L99_avg_done),
       [EvOpenX (starting_avg rigid) None;
        EvMakeAvg rigid (average_path job1 "rigid");
        EvOpenX (average_done rigid) None]) ∧
    is_file fs' (average_path job1 "rigid") = true.
Proof.
  assert (election_ready job1 fs_election (idle_at L99_avg_done)) as Hr.
  { split_and!; [by vm_compute..|].
    intros nm Hnm. apply is_dir_true in Hnm.
    change (fs_election !! (rigid // nm) = Some Dir) in Hnm.
    apply elem_of_list_to_map_2 in Hnm.
    repeat (apply elem_of_cons in Hnm as [Hnm|Hnm];
            [try by (vm_compute in Hnm; simplify_eq)|]).
    all: try by apply elem_of_nil in Hnm.
    all: vm_compute in Hnm; simplify_eq; by vm_compute. }
  split; [exact Hr|].
  destruct (X8_lone_builder_completes_the_stage job1 fs_election
              (idle_at L99_avg_done) (go 0) (go 0) (go 0) (go 0) (go 0)
              eq_refl Hr eq_refl) as (fs' & Hrun & _ & Hout & _).
  exists fs'. exact (conj Hrun Hout).
Defined.

(** ** What a return of the function means *)

Section complete.
Context (J : Job).

Lemma stage_at_lt j sid sd : stage_at J j = Some (sid, sd) → (j < n_stages J)%nat.
Proof.
  unfold stage_at, n_stages.
  destruct (registration_stage_params (config J) !! j) eqn:H; [|done].
  intros _. by eapply lookup_lt_Some.
Qed.

Lemma left_inv_mono fs fs' w : fs ⊆ fs' → left_inv J fs w → left_inv J fs' w.
Proof.
  intros Hsub (H1 & H2 & H3). split_and!; [done|done|].
  intros j Hj. destruct (H3 j Hj) as (sid & sd & Hat & Hsp).
  exists sid, sd. split; [done|]. intros sp Hin.
  eapply is_file_weaken; eauto.
Qed.

Lemma complete_inv_mono fs fs' w :
  fs ⊆ fs' → complete_inv J fs w → complete_inv J fs' w.
Proof.
  intros Hsub (Hb & Hs & Hl).
  split_and!; eauto using barrier_inv_mono, stage_inv_mono, left_inv_mono.
Qed.

Lemma complete_inv_fresh fs : complete_inv J fs fresh_worker.
Proof.
  split_and!; [apply barrier_inv_fresh|apply stage_inv_fresh|].
  split_and!; simpl; [lia|done|intros; lia].
Qed.

Lemma left_inv_step c fs w fs' w' evs :
  complete_inv J fs w → wstep J c fs w = (fs', w', evs) → left_inv J fs' w'.
Proof.
  intros ((_ & Hb) & (Hat & _ & _) & Hl) H.
  pose proof (wstep_mono _ _ _ _ _ _ _ H) as Hsub.
  apply (left_inv_mono _ _ _ Hsub) in Hl. destruct Hl as (H1 & H2 & H3).
  assert (past_barrier (pc w) = true → left_inv J fs' (break_stage w)) as Hbreak.
  { intros Hp.
    assert (stage_at J (i w) = Some (stage_id w, stage_dir w)) as Hst
      by (apply Hat; by destruct (pc w)).
    split_and!; simpl.
    - apply stage_at_lt in Hst. lia.
    - done.
    - intros j Hj. destruct (decide (j = i w)) as [->|Hne].
      + exists (stage_id w), (stage_dir w). split; [done|].
        intros sp Hin. eapply is_file_weaken; [done|]. by apply Hb.
      + apply H3. lia. }
  wstep_inv H;
    try (by apply Hbreak; subst_pc);
    try (by split_and!; simpl; [done|intros; subst_pc; by eauto|done]).
  split_and!; simpl; [done| |done]. intros _.
  match goal with
  | Hn : registration_stage_params (config J) !! i w = None |- _ =>
      apply lookup_ge_None in Hn; unfold n_stages in *; lia
  end.
Qed.

Lemma complete_inv_step c fs w fs' w' evs :
  complete_inv J fs w → wstep J c fs w = (fs', w', evs) →
  complete_inv J fs' w'.
Proof.
  intros Hc H. pose proof Hc as (Hb & Hs & Hl). split_and!.
  - by eapply barrier_inv_step.
  - by eapply stage_inv_step.
  - by eapply left_inv_step.
Qed.

Lemma complete_inv_run cs fs0 n :
  all_workers (complete_inv J) (run J cs (start fs0 n)).
Proof.
  apply all_workers_run;
    eauto using complete_inv_mono, complete_inv_step, all_workers_start,
      complete_inv_fresh.
Qed.
End complete.

(** X9.  When [run_elastix_stage] has returned, every stage is complete: the
    worker's loop index is the number of stages, every stage resolved to its
    directory, [avg_done] of every stage is on disk, and in every stage
    directory every specimen of the input list has its [spec_done]. *)
Theorem X9_return_means_every_stage_complete (J : Job) (n : nat)
    (fs0 : FileSystem) (cs : list sched) (k : nat) (w : worker) :
  let s := run J cs (start fs0 n) in
  sys_workers s !! k = Some w → pc w = Returned →
  i w = n_stages J ∧
  ∀ j, (j < n_stages J)%nat →
    ∃ sid sd, stage_at J j = Some (sid, sd) ∧
      is_file (sys_fs s) (average_done sd) = true ∧
      ∀ sp, sp ∈ spec_ids J →
        is_file (sys_fs s) (spec_done sd sp) = true.
Proof.
  intros s Hw Hpc.
  destruct (complete_inv_run J cs fs0 n k w Hw)
    as (_ & (_ & _ & Hdone) & (_ & Hret & Hleft)).
  fold s in Hdone, Hleft. specialize (Hret Hpc). split; [done|].
  intros j Hj. rewrite <- Hret in Hj.
  destruct (Hleft j Hj) as (sid & sd & Hat & Hsp).
  exists sid, sd. split_and!; [done|by eapply Hdone|done].
Qed.

Lemma X9_return_means_every_stage_complete_witness :
  let s := run job2 (gos 0 54) (start fs_clean 1) in
  ∃ w, sys_workers s !! 0 = Some w ∧ pc w = Returned ∧ i w = 2 ∧
       is_file (sys_fs s) (spec_done ["out"; "affine"] "c") = true.
Proof.
  cbv zeta.
  assert (∃ w, sys_workers (run job2 (gos 0 54) (start fs_clean 1)) !! 0
               = Some w ∧ pc w = Returned) as (w & Hw & Hpc).
  { vm_compute. eexists. split; reflexivity. }
  destruct (X9_return_means_every_stage_complete job2 1 fs_clean (gos 0 54)
              0 w Hw Hpc) as (Hi & Hall).
  destruct (Hall 1) as (sid & sd & Hat & _ & Hsp); [vm_compute; lia|].
  assert (stage_at job2 1 = Some ("affine", ["out"; "affine"])) as Hat'
    by (vm_compute; reflexivity).
  rewrite Hat' in Hat. injection Hat as <- <-.
  exists w. split_and!; [exact Hw|exact Hpc|exact Hi|].
  apply Hsp. unfold job2, job. simpl. elem_of_list.
Defined.

(** ** A missing output directory *)

Section no_out_dir.
Context (J : Job) (fs0 : FileSystem) (e : exn).
Context (Hpar : resolve_parent fs0 (avg_dir J) = Some e).
Context (Habs : stat fs0 (avg_dir J) = None).

Lemma wstep_no_out_dir c w :
  w = fresh_worker ∨ w = raise e fresh_worker →
  wstep J c fs0 w = (fs0, raise e fresh_worker, []).
Proof.
  intros [->| ->]; unfold wstep; simpl; [|done].
  unfold mkdir_exist_ok. by rewrite Habs, Hpar.
Qed.

Lemma failed_at_start_step s c :
  failed_at_start fs0 e s → failed_at_start fs0 e (sys_step J s c).
Proof.
  intros (Hfs & Htr & Hws). unfold sys_step.
  destruct (sys_workers s !! who c) as [w|] eqn:Hw; [|done].
  rewrite Hfs, (wstep_no_out_dir c w) by eauto.
  split_and!; simpl; [done|by rewrite Htr|].
  intros k w' Hk. apply list_lookup_insert_Some in Hk as [(_ & <- & _)|[_ Hk]];
    eauto.
Qed.

Lemma failed_at_start_run cs n :
  failed_at_start fs0 e (run J cs (start fs0 n)).
Proof.
  apply run_invariant; [apply failed_at_start_step|].
  split_and!; [done|done|]. intros k w Hk.
  apply lookup_replicate in Hk as [-> _]. by left.
Qed.

Lemma raised_stays cs s k :
  failed_at_start fs0 e s →
  sys_workers s !! k = Some (raise e fresh_worker) →
  sys_workers (run J cs s) !! k = Some (raise e fresh_worker).
Proof.
  revert s. induction cs as [|c cs IH]; intros s Hs Hk; [done|].
  simpl. apply IH; [by apply failed_at_start_step|].
  destruct Hs as (Hfs & _ & Hws). unfold sys_step.
  destruct (sys_workers s !! who c) as [w|] eqn:Hw; [|done].
  rewrite Hfs, (wstep_no_out_dir c w) by eauto. simpl.
  destruct (decide (who c = k)) as [<-|Hne].
  - apply list_lookup_insert_eq. by eapply lookup_lt_Some.
  - by rewrite list_lookup_insert_ne.
Qed.

Lemma scheduled_raised cs s k :
  failed_at_start fs0 e s → (k < length (sys_workers s))%nat →
  k ∈ who <$> cs →
  sys_workers (run J cs s) !! k = Some (raise e fresh_worker).
Proof.
  revert s. induction cs as [|c cs IH]; intros s Hs Hlen Hin.
  { by apply elem_of_nil in Hin. }
  simpl. pose proof (failed_at_start_step s c Hs) as Hs'.
  assert (length (sys_workers (sys_step J s c)) = length (sys_workers s))
    as Hlen'.
  { unfold sys_step. destruct (sys_workers s !! who c); [|done].
    destruct (wstep J c (sys_fs s) w) as [[? ?] ?]. simpl.
    by rewrite length_insert. }
  destruct (decide (who c = k)) as [Hk|Hne].
  - apply raised_stays; [done|]. destruct Hs as (Hfs & _ & Hws).
    unfold sys_step. destruct (lookup_lt_is_Some_2 _ _ Hlen) as [w Hw].
    rewrite Hk, Hw, Hfs, (wstep_no_out_dir c w) by eauto. simpl.
    apply list_lookup_insert_eq. done.
  - apply IH; [done|by rewrite Hlen'|].
    simpl in Hin. apply elem_of_cons in Hin as [Heq|Hin]; [done|done].
Qed.
End no_out_dir.

(** X10.  Line 61 makes [out_dir / 'averages'] without [parents=True]: when
    [out_dir] is missing, or is not a directory, every worker raises at its
    first step ([FileNotFoundError], respectively [NotADirectoryError]).
    Along every run the filesystem stays as it was, nothing is called or
    created, and every worker that was scheduled at all has raised. *)
Theorem X10_missing_out_dir_stops_every_worker (J : Job) (n : nat)
    (fs0 : FileSystem) (cs : list sched) (e : exn) :
  resolve_parent fs0 (avg_dir J) = Some e →
  stat fs0 (avg_dir J) = None →
  let s := run J cs (start fs0 n) in
  (e = FileNotFoundError ∨ e = NotADirectoryError) ∧
  failed_at_start fs0 e s ∧
  ∀ k, scheduled n cs k →
       sys_workers s !! k = Some (raise e fresh_worker).
Proof.
  intros Hpar Habs s. split_and!.
  - unfold resolve_parent in Hpar.
    destruct (stat fs0 (parent (avg_dir J))) as [[|]|]; naive_solver.
  - by apply failed_at_start_run.
  - intros k [Hk Hin]. apply (scheduled_raised J fs0 e Hpar Habs);
      [|by simpl; rewrite length_replicate|done].
    apply (failed_at_start_run J fs0 e Hpar Habs [] n).
Qed.

Lemma X10_missing_out_dir_stops_every_worker_witness :
  let s := run job1 [go 0; go 2; go 0] (start ∅ 3) in
  resolve_parent ∅ (avg_dir job1) = Some FileNotFoundError ∧
  sys_fs s = ∅ ∧ sys_trace s = [] ∧
  pc <$> sys_workers s =
    [Raised FileNotFoundError; L61_mkdir_avg_dir; Raised FileNotFoundError].
Proof.
  cbv zeta.
  assert (resolve_parent (∅ : FileSystem) (avg_dir job1)
          = Some FileNotFoundError) as Hpar by (vm_compute; reflexivity).
  assert (stat (∅ : FileSystem) (avg_dir job1) = None) as Habs
    by (vm_compute; reflexivity).
  destruct (X10_missing_out_dir_stops_every_worker job1 3 ∅
              [go 0; go 2; go 0] FileNotFoundError Hpar Habs)
    as (_ & (Hfs & Htr & _) & _).
  split_and!; [exact Hpar|exact Hfs|exact Htr|].
  vm_compute. reflexivity.
Defined.

(** ** A worker on its own *)


Lemma pjoin_ne_self (d : path) n : d // n ≠ d.
Proof.
  intros H. apply (f_equal length) in H. unfold pjoin in H.
  rewrite length_app in H. simpl in H. lia.
Qed.

Lemma pjoin2_ne (d : path) a b c : d // a // b ≠ d // c.
Proof. intros H. apply pjoin_inj in H as [H _]. by apply pjoin_ne_self in H. Qed.

Lemma stat_insert_case (fs : FileSystem) p x q :
  p ≠ [] → stat (<[p:=x]> fs) q = if decide (q = p) then Some x else stat fs q.
Proof.
  intros Hp. case_decide as Hq.
  - subst. by apply stat_insert.
  - by apply stat_insert_ne.
Qed.

Lemma is_dir_false (fs : FileSystem) p : is_dir fs p = false ↔ stat fs p ≠ Some Dir.
Proof. unfold is_dir. by rewrite bool_decide_eq_false. Qed.

Lemma no_orphans_insert fs p x :
  no_orphans fs → p ≠ [] → stat fs (parent p) = Some Dir → stat fs p = None →
  no_orphans (<[p:=x]> fs).
Proof.
  intros Hno Hp Hpar Hnone q Hq Hsome.
  rewrite stat_insert_case in Hsome by done.
  rewrite stat_insert_case by done.
  assert (∀ r, stat fs r = Some Dir → r ≠ p) as Hne by (intros r Hr ->; congruence).
  case_decide as Hqp.
  - subst q. rewrite decide_False by by apply Hne. done.
  - pose proof (Hno q Hq Hsome) as Hd. rewrite decide_False by by apply Hne. done.
Qed.

Lemma wrun_app J cs1 cs2 fs w :
  wrun J (cs1 ++ cs2) fs w =
    (let '(fs1, w1, ev1) := wrun J cs1 fs w in
     let '(fs2, w2, ev2) := wrun J cs2 fs1 w1 in
     (fs2, w2, ev1 ++ ev2)).
Proof.
  revert fs w. induction cs1 as [|c cs1 IH]; intros fs w; simpl.
  - by destruct (wrun J cs2 fs w) as [[? ?] ?].
  - destruct (wstep J c fs w) as [[fs1 w1] ev1]. rewrite IH.
    destruct (wrun J cs1 fs1 w1) as [[fs2 w2] ev2].
    destruct (wrun J cs2 fs2 w2) as [[fs3 w3] ev3].
    by rewrite app_assoc.
Qed.

Lemma wrun_mono J cs fs w fs' w' ev :
  wrun J cs fs w = (fs', w', ev) → fs ⊆ fs'.
Proof.
  revert fs w fs' w' ev. induction cs as [|c cs IH]; intros fs w fs' w' ev H;
    simpl in H.
  - by simplify_eq.
  - destruct (wstep J c fs w) as [[fs1 w1] ev1] eqn:H1.
    destruct (wrun J cs fs1 w1) as [[fs2 w2] ev2] eqn:H2. simplify_eq.
    etrans; [by eapply wstep_mono|by eapply IH].
Qed.

Lemma stage_ready_same J fs w w' :
  same_stage w w' → stage_ready J fs w → stage_ready J fs w'.
Proof.
  intros (Hd & Hid & Hi). unfold stage_ready, reserved, elxparam_path.
  by rewrite Hd, Hid, Hi.
Qed.

(** *** The steps of one registration *)

Section register.
Context (J : Job).
Implicit Types (fs : FileSystem) (w : worker) (c : sched).

Lemma step_select c fs w :
  pc w = L86_select → 0 < size (not_started J fs (stage_dir w)) →
  ∃ s, s ∈ not_started J fs (stage_dir w) ∧
       wstep J c fs w = (fs, set_next_spec_id s w, []).
Proof.
  intros Hpc Hsz. unfold wstep. rewrite Hpc. cbv zeta.
  rewrite bool_decide_eq_true_2 by done.
  destruct (first_of_is_Some c _ Hsz) as [s Hs]. rewrite Hs.
  exists s. split; [by eapply first_of_elem|done].
Qed.

Lemma step_barrier c fs w :
  pc w = L86_select → size (not_started J fs (stage_dir w)) = 0 →
  wstep J c fs w = (fs, goto L94_barrier w, []).
Proof.
  intros Hpc Hsz. unfold wstep. rewrite Hpc. cbv zeta.
  rewrite bool_decide_eq_false_2 by lia. done.
Qed.

Lemma step_check c fs w :
  pc w = L94_barrier → check_stage_done fs (stage_dir w) = true →
  wstep J c fs w = (fs, goto L99_avg_done w, []).
Proof. intros Hpc Hdone. unfold wstep. by rewrite Hpc, Hdone. Qed.

Lemma step_inputs c fs w s mv fx :
  pc w = L117_inputs → next_spec_id w = Some s →
  resolve_volumes J w s = Some (mv, fx) →
  wstep J c fs w = (fs, set_volumes mv fx w, []).
Proof. intros Hpc Hs Hv. unfold wstep. by rewrite Hpc, Hs, Hv. Qed.

Lemma step_param c fs w :
  pc w = L129_param_file → stat fs (stage_dir w) = Some Dir →
  stat fs (elxparam_path J w) ≠ Some Dir →
  wstep J c fs w = (with_param J w fs, goto L148_run w, []).
Proof.
  intros Hpc Hd Hp. unfold wstep. rewrite Hpc. unfold with_param, is_file.
  destruct (stat fs (elxparam_path J w)) as [[|]|] eqn:Hs; [done|done|].
  rewrite bool_decide_eq_false_2 by done. simpl.
  unfold open_w, resolve_parent, elxparam_path in *.
  by rewrite parent_pjoin, Hd, Hs.
Qed.

Lemma step_run c fs w s :
  pc w = L148_run → next_spec_id w = Some s → ext_ok c = true →
  stat fs (stage_dir w) = Some Dir → stat fs (stage_dir w // s) = None →
  wstep J c fs w =
    (<[stage_dir w // s := Dir]> fs, goto L148_running w,
     [EvRun (elxparam_path J w) (moving w) (stage_dir w) (fixed_vol w)]).
Proof.
  intros Hpc Hs Hok Hd Hn. unfold wstep. rewrite Hpc, Hs. cbv zeta.
  unfold run_begin, mkdir_exist_ok, resolve_parent.
  by rewrite Hok, Hn, parent_pjoin, Hd.
Qed.

Lemma step_running c fs w s :
  pc w = L148_running → next_spec_id w = Some s → ext_ok c = true →
  stat fs (stage_dir w // s) = Some Dir →
  stat fs (stage_dir w // s // (s +:+ ".nrrd")) = None →
  wstep J c fs w =
    (<[stage_dir w // s // (s +:+ ".nrrd") := File]> fs,
     goto L150_spec_done w, []).
Proof.
  intros Hpc Hs Hok Hd Hn. unfold wstep. rewrite Hpc, Hs.
  unfold run_end, open_w, resolve_parent.
  by rewrite Hok, parent_pjoin, Hd, Hn.
Qed.

Lemma step_marker c fs w s :
  pc w = L150_spec_done → next_spec_id w = Some s →
  stat fs (stage_dir w // s) = Some Dir →
  stat fs (spec_done (stage_dir w) s) = None →
  wstep J c fs w =
    (<[spec_done (stage_dir w) s := File]> fs, goto L86_select w,
     [EvOpenX (spec_done (stage_dir w) s) None]).
Proof.
  intros Hpc Hs Hd Hn. unfold wstep. rewrite Hpc, Hs. cbv zeta.
  rewrite (open_x_ok fs (spec_done (stage_dir w) s)); [done| |done].
  unfold spec_done. by rewrite parent_pjoin.
Qed.

Lemma stat_with_param fs w q :
  stat fs (elxparam_path J w) ≠ Some Dir →
  stat (with_param J w fs) q =
    if decide (q = elxparam_path J w) then Some File else stat fs q.
Proof.
  intros Hp. unfold with_param.
  destruct (stat fs (elxparam_path J w)) as [[|]|] eqn:Hs; [|done|].
  - case_decide; by subst.
  - apply stat_insert_case. apply pjoin_nonempty.
Qed.

Lemma stat_registered fs d s q :
  stat (registered d s fs) q =
    if decide (q = spec_done d s) then Some File
    else if decide (q = d // s // (s +:+ ".nrrd")) then Some File
    else if decide (q = d // s) then Some Dir
    else stat fs q.
Proof.
  unfold registered, spec_done.
  rewrite !stat_insert_case by apply pjoin_nonempty. done.
Qed.
End register.

Ltac path_absurd :=
  unfold spec_done, starting_avg, average_done, elxparam_path,
    average_path in *;
  repeat match goal with
  | H : ?d // _ = ?d |- _ => by apply pjoin_ne_self in H
  | H : ?d // _ // _ = ?d // _ |- _ => by apply pjoin2_ne in H
  | H : ?d // _ = ?d // _ // _ |- _ => symmetry in H; by apply pjoin2_ne in H
  | H : _ // _ = _ // _ |- _ => apply pjoin_inj in H as [? ?]; simplify_eq
  end.

Section ready.
Context (J : Job).
Implicit Types (fs : FileSystem) (w : worker) (c : sched).

Lemma resolve_volumes_is_Some w s :
  (i w ≤ length (stage_dirs (config J)))%nat → is_Some (resolve_volumes J w s).
Proof.
  intros Hi. unfold resolve_volumes. destruct (i w) as [|j]; [done|].
  destruct (lookup_lt_is_Some_2 (stage_dirs (config J)) j) as [[k v] Hkv];
    [lia|].
  rewrite !list_lookup_fmap, Hkv. done.
Qed.

(** What [stage_ready] says about a specimen that has not been started. *)
Lemma not_started_fresh fs w s :
  stage_ready J fs w → s ∈ not_started J fs (stage_dir w) →
  s ∈ spec_ids J ∧ (s ∉ reserved J w) ∧
  stat fs (stage_dir w // s) = None ∧
  ∀ x, stat fs (stage_dir w // s // x) = None.
Proof.
  intros (Hd & Ha & Hda & Hno & Hi & Hsp & Hcomp & Hst & Hdn & Hpar & Havg) Hin.
  apply elem_of_not_started in Hin as [Hspec Hnd].
  destruct (Hsp s Hspec) as [Hres Hnf]. apply is_dir_false in Hnd.
  assert (stat fs (stage_dir w // s) = None) as F1.
  { destruct (stat fs (stage_dir w // s)) as [[|]|]; done. }
  split_and!; [done|done|done|]. intros x.
  destruct (stat fs (stage_dir w // s // x)) as [n|] eqn:Hx; [|done].
  pose proof (Hno (stage_dir w // s // x) (pjoin_nonempty _ _)) as Hp.
  rewrite Hx, parent_pjoin, F1 in Hp. by specialize (Hp (mk_is_Some _ _ eq_refl)).
Qed.

Lemma with_param_mono fs w : fs ⊆ with_param J w fs.
Proof.
  unfold with_param.
  destruct (stat fs (elxparam_path J w)) eqn:Hs; [done|].
  by apply stat_None_insert.
Qed.

Lemma no_orphans_with_param fs w :
  no_orphans fs → stat fs (stage_dir w) = Some Dir →
  no_orphans (with_param J w fs).
Proof.
  intros Hno Hd. unfold with_param.
  destruct (stat fs (elxparam_path J w)) eqn:Hs; [done|].
  apply no_orphans_insert; [done|apply pjoin_nonempty| |done].
  unfold elxparam_path. by rewrite parent_pjoin.
Qed.

Lemma registered_ready fs w s :
  stage_ready J fs w → s ∈ not_started J fs (stage_dir w) →
  let fs' := registered (stage_dir w) s (with_param J w fs) in
  fs ⊆ fs' ∧ stage_ready J fs' w ∧
  (∀ s', s' ∈ not_started J fs' (stage_dir w) ↔
         s' ∈ not_started J fs (stage_dir w) ∧ s' ≠ s) ∧
  stage_frame J w fs fs'.
Proof.
  intros Hr Hin fs'.
  destruct (not_started_fresh fs w s Hr Hin) as (Hspec & Hres & F1 & F2).
  destruct Hr as (Hd & Ha & Hda & Hno & Hi & Hsp & Hcomp & Hst & Hdn & Hpar & Havg).
  set (pname := ELX_PARAM_PREFIX J +:+ stage_id w +:+ ".txt").
  assert (s ≠ "avg_started" ∧ s ≠ "avg_done" ∧ s ≠ pname) as (Hs1 & Hs2 & Hs3).
  { unfold reserved, reserved_names in Hres. fold pname in Hres.
    rewrite !not_elem_of_cons in Hres. by destruct Hres as (? & ? & ? & _). }
  assert (∀ q, stat fs' q =
            if decide (q = spec_done (stage_dir w) s) then Some File
            else if decide (q = stage_dir w // s // (s +:+ ".nrrd")) then Some File
            else if decide (q = stage_dir w // s) then Some Dir
            else if decide (q = elxparam_path J w) then Some File
            else stat fs q) as Hstat.
  { intros q. unfold fs'. rewrite stat_registered, stat_with_param by done. done. }
  assert (fs ⊆ fs') as Hsub.
  { unfold fs', registered. etrans; [apply (with_param_mono fs w)|].
    etrans; [apply (stat_None_insert _ (stage_dir w // s) Dir)|].
    { rewrite stat_with_param by done. rewrite decide_False; [done|].
      intros H. path_absurd. }
    etrans; [apply (stat_None_insert _ (stage_dir w // s // (s +:+ ".nrrd")) File)|].
    { rewrite stat_insert_case by apply pjoin_nonempty.
      rewrite decide_False by (intros H; path_absurd).
      rewrite stat_with_param by done.
      rewrite decide_False by (intros H; path_absurd). apply F2. }
    apply stat_None_insert.
    rewrite !stat_insert_case by apply pjoin_nonempty.
    rewrite decide_False.
    2:{ unfold spec_done. intros H. apply pjoin_inj in H as [_ H].
        symmetry in H. by apply nrrd_not_marker in H. }
    rewrite decide_False by (intros H; path_absurd).
    rewrite stat_with_param by done.
    rewrite decide_False by (intros H; path_absurd). apply F2. }
  split; [done|]. split; [|split].
  - split_and!.
    + by eapply stat_weaken.
    + by eapply is_dir_weaken.
    + done.
    + unfold fs', registered.
      assert (no_orphans (with_param J w fs)) as Hno1
        by by apply no_orphans_with_param.
      assert (stat (with_param J w fs) (stage_dir w // s) = None) as G1.
      { rewrite stat_with_param by done. rewrite decide_False; [done|].
        intros H. path_absurd. }
      assert (no_orphans (<[stage_dir w // s := Dir]> (with_param J w fs))) as Hno2.
      { apply no_orphans_insert; [done|apply pjoin_nonempty| |done].
        rewrite parent_pjoin. eapply stat_weaken; [apply with_param_mono|done]. }
      assert (no_orphans (<[stage_dir w // s // (s +:+ ".nrrd") := File]>
                (<[stage_dir w // s := Dir]> (with_param J w fs)))) as Hno3.
      { apply no_orphans_insert; [done|apply pjoin_nonempty| |].
        - rewrite parent_pjoin. apply stat_insert, pjoin_nonempty.
        - rewrite stat_insert_case by apply pjoin_nonempty.
          rewrite decide_False by (intros H; path_absurd).
          rewrite stat_with_param by done.
          rewrite decide_False by (intros H; path_absurd). apply F2. }
      apply no_orphans_insert; [done|apply pjoin_nonempty| |].
      * unfold spec_done. rewrite parent_pjoin.
        rewrite stat_insert_case by apply pjoin_nonempty.
        rewrite decide_False by (intros H; path_absurd).
        apply stat_insert, pjoin_nonempty.
      * rewrite !stat_insert_case by apply pjoin_nonempty.
        rewrite decide_False.
        2:{ unfold spec_done. intros H. apply pjoin_inj in H as [_ H].
            symmetry in H. by apply nrrd_not_marker in H. }
        rewrite decide_False by (intros H; path_absurd).
        rewrite stat_with_param by done.
        rewrite decide_False by (intros H; path_absurd). apply F2.
    + done.
    + intros s' Hs'. destruct (Hsp s' Hs') as [Hres' Hnf'].
      split; [done|]. rewrite Hstat.
      repeat case_decide; try done; path_absurd.
      unfold reserved, reserved_names in Hres'. rewrite !not_elem_of_cons in Hres'.
      by destruct Hres' as (_ & _ & ? & _).
    + intros nm Hnm. apply is_dir_true in Hnm. rewrite Hstat in Hnm.
      rewrite !is_file_true.
      repeat case_decide; try done; try (by path_absurd).
      * assert (nm = s) as -> by by path_absurd.
        split; rewrite Hstat; [|by rewrite decide_True].
        rewrite decide_False; [by rewrite decide_True|].
        unfold spec_done. intros He. apply pjoin_inj in He as [_ He].
        by apply nrrd_not_marker in He.
      * apply is_dir_true in Hnm. destruct (Hcomp nm Hnm) as [Hv Hm].
        split; (eapply stat_weaken; [exact Hsub|]); by apply is_file_true.
    + rewrite Hstat. repeat case_decide; try done; try (by path_absurd).
      path_absurd.
      match goal with
      | He : _ = _ +:+ _ +:+ ".txt" |- _ =>
          symmetry in He; by apply txt_not_marker in He
      end.
    + rewrite Hstat. repeat case_decide; try done; try (by path_absurd).
      path_absurd.
      match goal with
      | He : _ = _ +:+ _ +:+ ".txt" |- _ =>
          symmetry in He; by apply txt_not_marker in He
      end.
    + rewrite Hstat. repeat case_decide; try done; by path_absurd.
    + rewrite Hstat. repeat case_decide; try done.
      path_absurd.
  - intros s'. rewrite !elem_of_not_started, !is_dir_false, Hstat.
    split.
    + intros [Hs' Hnd]. destruct (decide (s' = s)) as [->|Hne].
      * exfalso. apply Hnd. rewrite decide_False by (intros H; path_absurd).
        rewrite decide_False by (intros H; path_absurd).
        by rewrite decide_True.
      * split; [|done]. split; [done|].
        repeat case_decide; try done; try (by path_absurd).
    + intros [[Hs' Hnd] Hne]. split; [done|].
      repeat case_decide; try done; by path_absurd.
  - intros q Hq1 Hq2 Hq3. rewrite Hstat.
    repeat case_decide; subst; try done; exfalso;
      unfold spec_done, elxparam_path in *;
      rewrite ?parent_pjoin in *; done.
Qed.
End ready.

Section lone.
Context (J : Job).
Implicit Types (fs : FileSystem) (w : worker) (c : sched).

(** One registration by a worker on its own: six steps from line 86 back
    to line 86. *)
Lemma register_one fs w c1 c2 c3 c4 c5 c6 :
  pc w = L86_select → stage_ready J fs w →
  ext_ok c4 = true → ext_ok c5 = true →
  0 < size (not_started J fs (stage_dir w)) →
  ∃ s mv fx w',
    let fs' := registered (stage_dir w) s (with_param J w fs) in
    s ∈ not_started J fs (stage_dir w) ∧
    wrun J [c1; c2; c3; c4; c5; c6] fs w =
      (fs', w',
       [EvRun (elxparam_path J w) mv (stage_dir w) fx;
        EvOpenX (spec_done (stage_dir w) s) None]) ∧
    pc w' = L86_select ∧ same_stage w w' ∧ stage_ready J fs' w' ∧
    S (size (not_started J fs' (stage_dir w))) =
      size (not_started J fs (stage_dir w)) ∧
    stage_frame J w fs fs'.
Proof.
  intros Hpc Hr Hok4 Hok5 Hsz.
  destruct (step_select J c1 fs w Hpc Hsz) as (s & Hin & H1).
  destruct (not_started_fresh J fs w s Hr Hin) as (Hspec & Hres & F1 & F2).
  destruct (registered_ready J fs w s Hr Hin) as (Hsub & Hr' & Hns & Hfr).
  pose proof Hr as (Hd & _ & _ & _ & Hi & _ & _ & _ & _ & Hpar & _).
  set (w1 := set_next_spec_id s w).
  destruct (resolve_volumes_is_Some J w1 s Hi) as [[mv fx] Hv].
  set (w2 := set_volumes mv fx w1).
  set (w3 := goto L148_run w2).
  set (w4 := goto L148_running w3).
  set (w5 := goto L150_spec_done w4).
  set (w6 := goto L86_select w5).
  set (fs1 := with_param J w fs).
  set (fs2 := <[stage_dir w // s := Dir]> fs1).
  set (fs3 := <[stage_dir w // s // (s +:+ ".nrrd") := File]> fs2).
  assert (stage_dir w // s ≠ elxparam_path J w) as Hne1.
  { intros H. unfold reserved, reserved_names in Hres. rewrite !not_elem_of_cons in Hres.
    destruct Hres as (_ & _ & Hp & _). path_absurd. }
  assert (stat fs1 (stage_dir w // s) = None) as G1.
  { unfold fs1. rewrite stat_with_param by done. by rewrite decide_False. }
  assert (stat fs2 (stage_dir w // s) = Some Dir) as G2
    by apply stat_insert, pjoin_nonempty.
  assert (stat fs2 (stage_dir w // s // (s +:+ ".nrrd")) = None) as G3.
  { unfold fs2. rewrite stat_insert_case by apply pjoin_nonempty.
    rewrite decide_False by (intros H; path_absurd).
    unfold fs1. rewrite stat_with_param by done.
    rewrite decide_False by (intros H; path_absurd). apply F2. }
  assert (stat fs3 (stage_dir w // s) = Some Dir) as G4.
  { unfold fs3. rewrite stat_insert_case by apply pjoin_nonempty.
    by rewrite decide_False by (intros H; path_absurd). }
  assert (stat fs3 (spec_done (stage_dir w) s) = None) as G5.
  { unfold fs3, fs2. rewrite !stat_insert_case by apply pjoin_nonempty.
    rewrite decide_False.
    2:{ unfold spec_done. intros He. apply pjoin_inj in He as [_ He].
        symmetry in He. by apply nrrd_not_marker in He. }
    rewrite decide_False by (intros H; path_absurd).
    unfold fs1. rewrite stat_with_param by done.
    rewrite decide_False by (intros H; path_absurd). apply F2. }
  exists s, mv, fx, w6. cbv zeta. split_and!.
  - done.
  - rewrite (wrun_cons J c1 _ fs w fs w1 [] H1).
    rewrite (wrun_cons J c2 _ fs w1 fs w2 []
               (step_inputs J c2 fs w1 s mv fx eq_refl eq_refl Hv)).
    rewrite (wrun_cons J c3 _ fs w2 fs1 w3 []
               (step_param J c3 fs w2 eq_refl Hd Hpar)).
    rewrite (wrun_cons J c4 _ fs1 w3 fs2 w4 _
               (step_run J c4 fs1 w3 s eq_refl eq_refl Hok4
                  (stat_weaken _ _ _ _ (with_param_mono J fs w) Hd) G1)).
    rewrite (wrun_cons J c5 _ fs2 w4 fs3 w5 []
               (step_running J c5 fs2 w4 s eq_refl eq_refl Hok5 G2 G3)).
    rewrite (wrun_cons J c6 _ fs3 w5 _ w6 _
               (step_marker J c6 fs3 w5 s eq_refl eq_refl G4 G5)).
    reflexivity.
  - done.
  - done.
  - by apply (stage_ready_same J _ w w6).
  - subst fs3 fs2 fs1.
    assert (not_started J (registered (stage_dir w) s (with_param J w fs))
              (stage_dir w) = not_started J fs (stage_dir w) ∖ {[s]}) as ->.
    { apply set_eq. intros s'.
      rewrite Hns, elem_of_difference, elem_of_singleton. done. }
    rewrite size_difference by (by apply singleton_subseteq_l).
    rewrite size_singleton. lia.
  - done.
Qed.
End lone.

Section lone_stage.
Context (J : Job).
Implicit Types (fs : FileSystem) (w : worker) (c : sched).

Lemma stage_ready_election fs w w' :
  same_stage w w' → stage_ready J fs w → election_ready J fs w'.
Proof.
  intros (Hd & Hid & _) (H1 & H2 & _ & _ & _ & _ & Hcomp & H3 & H4 & _ & H5).
  unfold election_ready. rewrite Hd, Hid.
  split_and!; [by apply is_dir_true|done|done|done|done|].
  intros nm Hnm. by apply Hcomp.
Qed.

Lemma no_orphans_open_w fs p fs' :
  no_orphans fs → open_w fs p = inr fs' → no_orphans fs'.
Proof.
  intros Hno H. unfold open_w, resolve_parent in H.
  destruct (stat fs (parent p)) as [[|]|] eqn:Hpar; try done.
  destruct (stat fs p) as [[|]|] eqn:Hp; simplify_eq; [done|].
  apply no_orphans_insert; [done| |done|done]. by intros ->.
Qed.

Lemma stage_frame_trans w w' fs1 fs2 fs3 :
  same_stage w w' → stage_frame J w fs1 fs2 → stage_frame J w' fs2 fs3 →
  stage_frame J w fs1 fs3.
Proof.
  intros (Hd & Hid & _) H1 H2 q Hq1 Hq2 Hq3.
  rewrite H2, H1; [done..| | |]; by rewrite ?Hd, ?Hid.
Qed.

Lemma lone_stage k : ∀ fs w cs,
  pc w = L86_select → stage_ready J fs w →
  Forall (λ c, ext_ok c = true) cs →
  size (not_started J fs (stage_dir w)) = k →
  length cs = 6 * k + 7 →
  ∃ fs' w' ev,
    wrun J cs fs w = (fs', w', ev) ∧ fs ⊆ fs' ∧
    pc w' = L71_next_stage ∧ i w' = S (i w) ∧ same_stage (break_stage w) w' ∧
    (∀ s, s ∈ spec_ids J →
          is_file fs' (spec_done (stage_dir w) s) = true) ∧
    is_file fs' (average_path J (stage_id w)) = true ∧
    is_file fs' (average_done (stage_dir w)) = true ∧
    countb is_run ev = k ∧
    countb (is_make_avg (stage_dir w)) ev = 1 ∧
    countb is_sleep ev = 0 ∧
    no_orphans fs' ∧ stage_frame J w fs fs'.
Proof.
  induction k as [|k IH]; intros fs w cs Hpc Hr Hok Hsz Hlen.
  - destruct cs as [|c1 [|c2 [|c3 [|c4 [|c5 [|c6 [|c7 [|? ?]]]]]]]];
      simpl in Hlen; try lia. clear Hlen.
    assert (ext_ok c6 = true) as Hok6.
    { rewrite Forall_forall in Hok. apply Hok. elem_of_list. }
    pose proof Hr as (Hd & Ha & _ & Hno & _ & _ & Hcomp & Hst & _).
    set (wa := goto L94_barrier w). set (wb := goto L99_avg_done wa).
    assert (check_stage_done fs (stage_dir w) = true) as Hdone.
    { apply check_stage_done_true. intros n Hn. by apply Hcomp. }
    destruct (build_alone J fs wb c3 c4 c5 c6 c7 eq_refl
                (stage_ready_election fs w wb
                   (conj eq_refl (conj eq_refl eq_refl)) Hr) Hok6)
      as (fs2 & Hw2 & Hoth2 & Hn2 & Hrun).
    change (stage_dir wb) with (stage_dir w) in *.
    change (stage_id wb) with (stage_id w) in *.
    set (fs1 := <[starting_avg (stage_dir w) := File]> fs) in *.
    assert (fs ⊆ fs1) as Hsub1 by by apply stat_None_insert.
    pose proof (open_w_mono _ _ _ Hw2) as Hsub2.
    assert (fs ⊆ <[average_done (stage_dir w) := File]> fs2) as Hsub.
    { etrans; [exact Hsub1|]. etrans; [exact Hsub2|].
      by apply stat_None_insert. }
    eexists _, _, _. split.
    { rewrite (wrun_cons J c1 _ fs w fs wa [] (step_barrier J c1 fs w Hpc Hsz)).
      rewrite (wrun_cons J c2 _ fs wa fs wb []
                 (step_check J c2 fs wa eq_refl Hdone)).
      rewrite Hrun. reflexivity. }
    split_and!; try done.
    + intros s Hs. eapply is_file_weaken; [exact Hsub|]. apply Hcomp.
      apply (not_started_empty J fs (stage_dir w) s); [lia|done].
    + apply is_file_true. rewrite stat_insert_ne.
      * apply is_file_true. by eapply open_w_is_file.
      * unfold average_done, average_path. intros H.
        apply pjoin_inj in H as [_ H]. symmetry in H.
        by apply nrrd_not_marker in H.
    + apply is_file_true, stat_insert, pjoin_nonempty.
    + simpl. rewrite bool_decide_eq_true_2 by done. done.
    + apply no_orphans_insert; [|apply pjoin_nonempty| |done].
      * eapply no_orphans_open_w; [|exact Hw2].
        apply no_orphans_insert; [done|apply pjoin_nonempty| |done].
        unfold starting_avg. by rewrite parent_pjoin.
      * unfold average_done. rewrite parent_pjoin.
        eapply stat_weaken; [|exact Hd]. etrans; [exact Hsub1|exact Hsub2].
    + intros q Hq1 Hq2 Hq3.
      rewrite stat_insert_ne.
      2:{ intros <-. apply Hq2. unfold average_done. by rewrite parent_pjoin. }
      rewrite Hoth2 by done. unfold fs1. rewrite stat_insert_ne; [done|].
      intros <-. apply Hq2. unfold starting_avg. by rewrite parent_pjoin.
  - destruct cs as [|c1 [|c2 [|c3 [|c4 [|c5 [|c6 cs]]]]]];
      simpl in Hlen; try lia.
    assert (ext_ok c4 = true ∧ ext_ok c5 = true ∧
            Forall (λ c, ext_ok c = true) cs) as (Hok4 & Hok5 & Hok').
    { repeat (apply Forall_cons in Hok as [? Hok]). done. }
    destruct (register_one J fs w c1 c2 c3 c4 c5 c6 Hpc Hr Hok4 Hok5)
      as (s & mv & fx & w1 & Hin & Hreg & Hpc1 & Hsame & Hr1 & Hsz1 & Hfr1);
      [lia|].
    cbv zeta in Hreg, Hr1, Hsz1, Hfr1.
    set (fs1 := registered (stage_dir w) s (with_param J w fs)) in *.
    pose proof Hsame as (Hsd & Hsi & Hi).
    rewrite <- Hsd in Hsz1 at 1.
    destruct (IH fs1 w1 cs Hpc1 Hr1 Hok') as
      (fs' & w' & ev & Hrun & Hsub & Hpc' & Hi' & Hsame' & Hsp & Havg & Hdn &
       Hc1 & Hc2 & Hc3 & Hno' & Hfr'); [lia|lia|].
    pose proof (stage_frame_trans w w1 fs fs1 fs' Hsame Hfr1 Hfr') as Hfr.
    rewrite Hsd, ?Hsi in *.
    exists fs', w', ([EvRun (elxparam_path J w) mv (stage_dir w) fx;
                      EvOpenX (spec_done (stage_dir w) s) None] ++ ev).
    split.
    { change (c1 :: c2 :: c3 :: c4 :: c5 :: c6 :: cs)
        with ([c1; c2; c3; c4; c5; c6] ++ cs).
      by rewrite wrun_app, Hreg, Hrun. }
    split_and!; try done.
    all: try (rewrite countb_app; simpl; lia).
    + etrans; [|exact Hsub]. by eapply wrun_mono.
    + lia.
    + destruct Hsame' as (? & ? & ?). split_and!; simpl in *; congruence.
Qed.
End lone_stage.

(** X11.  A worker on its own completes a stage.  From line 86, in a stage
    that is ready (see [stage_ready]) and with the engine and the averaging
    succeeding, the worker needs six steps for each specimen that has not
    been started and seven more for the barrier and the election; it then
    stands at line 71 with the loop index advanced.  Every specimen of the
    input list has its [spec_done], the average and [avg_done] are on
    disk, the engine was called once per specimen that was not started,
    [make_avg] once, and the worker never slept. *)
Theorem X11_lone_worker_completes_the_stage (J : Job) (fs : FileSystem)
    (w : worker) (cs : list sched) :
  pc w = L86_select → stage_ready J fs w →
  Forall (λ c, ext_ok c = true) cs →
  length cs = 6 * size (not_started J fs (stage_dir w)) + 7 →
  ∃ fs' w' ev,
    wrun J cs fs w = (fs', w', ev) ∧ fs ⊆ fs' ∧
    pc w' = L71_next_stage ∧ i w' = S (i w) ∧
    (∀ s, s ∈ spec_ids J →
          is_file fs' (spec_done (stage_dir w) s) = true) ∧
    is_file fs' (average_path J (stage_id w)) = true ∧
    is_file fs' (average_done (stage_dir w)) = true ∧
    countb is_run ev = size (not_started J fs (stage_dir w)) ∧
    countb (is_make_avg (stage_dir w)) ev = 1 ∧
    countb is_sleep ev = 0.
Proof.
  intros Hpc Hr Hok Hlen.
  destruct (lone_stage J _ fs w cs Hpc Hr Hok eq_refl Hlen)
    as (fs' & w' & ev & Hrun & Hsub & Hpc' & Hi & _ & Hsp & Havg & Hdn &
        Hc1 & Hc2 & Hc3 & _).
  exists fs', w', ev. by split_and!.
Qed.

Lemma X11_lone_worker_completes_the_stage_witness :
  stage_ready job1 fs_resume (idle_at L86_select) ∧
  ∃ fs' w' ev,
    wrun job1 (gos 0 19) fs_resume (idle_at L86_select) = (fs', w', ev) ∧
    pc w' = L71_next_stage ∧
    is_file fs' (average_done rigid) = true ∧
    countb is_run ev = 2.
Proof.
  assert (stage_ready job1 fs_resume (idle_at L86_select)) as Hr.
  { split_and!; try by vm_compute.
    - intros p Hp [x Hx]. rewrite stat_lookup in Hx by done.
      apply elem_of_list_to_map_2 in Hx.
      repeat (apply elem_of_cons in Hx as [Hx|Hx];
              [injection Hx as -> ->; by vm_compute|]).
      by apply elem_of_nil in Hx.
    - simpl. lia.
    - intros s Hs. simpl in Hs.
      repeat (apply elem_of_cons in Hs as [->|Hs];
              [split; [|by vm_compute];
               unfold reserved, reserved_names; rewrite !not_elem_of_cons;
               split_and!; try done; apply not_elem_of_nil|]).
      by apply elem_of_nil in Hs.
    - intros nm Hnm. apply is_dir_true in Hnm.
      change (fs_resume !! (rigid // nm) = Some Dir) in Hnm.
      apply elem_of_list_to_map_2 in Hnm.
      repeat (apply elem_of_cons in Hnm as [Hnm|Hnm];
              [try by (vm_compute in Hnm; simplify_eq)|]).
      all: try by apply elem_of_nil in Hnm.
      all: vm_compute in Hnm; simplify_eq; by vm_compute. }
  split; [exact Hr|].
  assert (size (not_started job1 fs_resume rigid) = 2) as Hsz
    by (vm_compute; reflexivity).
  destruct (X11_lone_worker_completes_the_stage job1 fs_resume
              (idle_at L86_select) (gos 0 19) eq_refl Hr)
    as (fs' & w' & ev & Hrun & _ & Hpc & _ & _ & _ & Hdn & Hc & _).
  - unfold gos. apply Forall_replicate. reflexivity.
  - change (stage_dir (idle_at L86_select)) with rigid. rewrite Hsz.
    reflexivity.
  - exists fs', w', ev. split_and!; [exact Hrun|exact Hpc|exact Hdn|].
    rewrite Hc. exact Hsz.
Defined.

(** ** All stages *)


Lemma absent_below (fs : FileSystem) p x :
  no_orphans fs → stat fs p = None → stat fs (p // x) = None.
Proof.
  intros Hno Hp. destruct (stat fs (p // x)) as [n|] eqn:Hx; [|done].
  pose proof (Hno (p // x) (pjoin_nonempty _ _)) as H.
  rewrite Hx, parent_pjoin, Hp in H. by specialize (H (mk_is_Some _ _ eq_refl)).
Qed.

Lemma ancestor_dir (fs : FileSystem) (q p : path) :
  no_orphans fs → q ≠ [] → is_Some (stat fs (p ++ q)) → stat fs p = Some Dir.
Proof.
  intros Hno. induction q as [|c q IH] using rev_ind; [done|].
  intros _ Hs. rewrite app_assoc in Hs.
  pose proof (Hno ((p ++ q) // c) (pjoin_nonempty _ _) Hs) as Hd.
  rewrite parent_pjoin in Hd.
  destruct (decide (q = [])) as [->|Hq]; [by rewrite app_nil_r in Hd|].
  apply IH; [done|]. by rewrite Hd.
Qed.

Lemma makedirs_existing (fs : FileSystem) todo : ∀ pre,
  no_orphans fs → stat fs (pre ++ todo) = Some Dir →
  makedirs fs pre todo = inr fs.
Proof.
  induction todo as [|c todo IH]; intros pre Hno Hd; [done|]. simpl.
  assert (stat fs (pre // c) = Some Dir) as Hc.
  { destruct (decide (todo = [])) as [->|Hne]; [done|].
    apply (ancestor_dir fs todo); [done|done|].
    unfold pjoin. rewrite <- app_assoc. simpl. by rewrite Hd. }
  unfold mkdir_exist_ok at 1. rewrite Hc. apply IH; [done|].
  unfold pjoin. by rewrite <- app_assoc.
Qed.

Lemma makedirs_app (fs : FileSystem) t1 t2 : ∀ pre fs1,
  makedirs fs pre t1 = inr fs1 →
  makedirs fs pre (t1 ++ t2) = makedirs fs1 (pre ++ t1) t2.
Proof.
  revert fs. induction t1 as [|c t1 IH]; intros fs pre fs1 H; simpl in *.
  - simplify_eq. by rewrite app_nil_r.
  - destruct (mkdir_exist_ok fs (pre // c)) as [e|fs'] eqn:Hmk.
    + destruct e; by destruct t1.
    + rewrite (IH fs' (pre // c) fs1 H). unfold pjoin.
      by rewrite <- app_assoc.
Qed.

Lemma mkdir_parents_child (fs : FileSystem) r sid :
  no_orphans fs → stat fs r = Some Dir → stat fs (r // sid) = None →
  mkdir_parents fs (r // sid) = inr (<[r // sid := Dir]> fs).
Proof.
  intros Hno Hr Hn. unfold mkdir_parents, pjoin.
  rewrite (makedirs_app fs r [sid] [] fs).
  - simpl. unfold mkdir_exist_ok, resolve_parent.
    change (r ++ [sid]) with (r // sid). by rewrite Hn, parent_pjoin, Hr.
  - by apply makedirs_existing.
Qed.

Lemma parent_ne_child (r : path) x : parent r ≠ r // x.
Proof.
  intros H. destruct (decide (r = [])) as [->|Hr]; [done|].
  rewrite (path_split r Hr) in H at 2.
  apply (f_equal length) in H. unfold pjoin in H.
  rewrite !length_app in H. simpl in H. lia.
Qed.

Lemma dict_get_fmap {V} (f : string → V) (l : list string) k :
  k ∈ l → dict_get ((λ x, (x, f x)) <$> l) k = Some (f k).
Proof.
  induction l as [|x l IH]; intros Hk; [by apply elem_of_nil in Hk|].
  rewrite fmap_cons. simpl. case_decide as Hx; [by subst|].
  apply IH. apply elem_of_cons in Hk as [->|Hk]; done.
Qed.

Section whole.
Context (J : Job) (r : path) (Hlay : layout J r).
Implicit Types (fs : FileSystem) (w : worker) (c : sched).

Lemma stage_at_layout j sid :
  stage_ids J !! j = Some sid → stage_at J j = Some (sid, r // sid).
Proof.
  intros Hj. destruct Hlay as (Hsd & _). unfold stage_at.
  unfold stage_ids in Hj. rewrite Hj, Hsd.
  rewrite (dict_get_fmap (λ x, r // x)); [done|].
  by eapply list_elem_of_lookup_2.
Qed.

Lemma length_stage_dirs : length (stage_dirs (config J)) = n_stages J.
Proof. destruct Hlay as (-> & _). by rewrite length_fmap. Qed.

Lemma stage_ids_ne j k sid sid' :
  stage_ids J !! j = Some sid → stage_ids J !! k = Some sid' → j ≠ k →
  sid ≠ sid'.
Proof.
  intros Hj Hk Hne ->. destruct Hlay as (_ & Hnd & _).
  by pose proof (NoDup_lookup _ _ _ _ Hnd Hj Hk).
Qed.

Lemma step_next_stage c fs w sid :
  pc w = L71_next_stage → stage_ids J !! i w = Some sid →
  run_ready J r fs (i w) →
  wstep J c fs w =
    (<[r // sid := Dir]> fs, enter_stage sid (r // sid) w, []).
Proof.
  intros Hpc Hsid (Hno & _ & Hr & Hfree).
  destruct (Hfree (i w) sid (le_n _) Hsid) as [Hn _].
  pose proof (stage_at_layout _ _ Hsid) as Hat. unfold stage_at in Hat.
  unfold wstep. rewrite Hpc. unfold stage_ids in Hsid. rewrite Hsid in Hat |- *.
  destruct (dict_get (stage_dirs (config J)) sid) as [sd|]; [|done].
  simplify_eq. by rewrite mkdir_parents_child.
Qed.

Lemma step_return c fs w :
  pc w = L71_next_stage → stage_ids J !! i w = None →
  wstep J c fs w = (fs, goto Returned w, []).
Proof. intros Hpc Hn. unfold wstep. unfold stage_ids in Hn. by rewrite Hpc, Hn. Qed.

(** The stage directory just made is ready, and every specimen is still
    to be started. *)
Lemma entered_ready fs w sid :
  stage_ids J !! i w = Some sid → run_ready J r fs (i w) →
  let fs1 := <[r // sid := Dir]> fs in
  let w1 := enter_stage sid (r // sid) w in
  stage_ready J fs1 w1 ∧
  size (not_started J fs1 (r // sid)) = size (specimens J).
Proof.
  intros Hsid (Hno & Ha & Hr & Hfree) fs1 w1.
  destruct (Hfree (i w) sid (le_n _) Hsid) as [Hn Havg].
  destruct Hlay as (_ & _ & Hra & Hnames).
  destruct (Hnames sid (list_elem_of_lookup_2 _ _ _ Hsid)) as [Hda Hres].
  assert (fs ⊆ fs1) as Hsub by by apply stat_None_insert.
  assert (∀ x, stat fs1 (r // sid // x) = None) as Hbelow.
  { intros x. unfold fs1. rewrite stat_insert_ne by apply not_eq_sym, pjoin_ne_self.
    by apply absent_below. }
  assert (∀ x y, stat fs1 (r // sid // x // y) = None) as Hbelow2.
  { intros x y. apply absent_below; [|done]. unfold fs1.
    apply no_orphans_insert; [done|apply pjoin_nonempty| |done].
    by rewrite parent_pjoin. }
  split.
  - split_and!; simpl.
    + apply stat_insert, pjoin_nonempty.
    + by eapply is_dir_weaken.
    + done.
    + apply no_orphans_insert; [done|apply pjoin_nonempty| |done].
      by rewrite parent_pjoin.
    + rewrite length_stage_dirs. apply lookup_lt_Some in Hsid.
      unfold n_stages. unfold stage_ids in Hsid. lia.
    + intros s Hs. split; [by apply Hres|]. by rewrite Hbelow.
    + intros nm Hnm. apply is_dir_true in Hnm. by rewrite Hbelow in Hnm.
    + apply Hbelow.
    + apply Hbelow.
    + unfold elxparam_path. simpl. by rewrite Hbelow.
    + unfold fs1. rewrite stat_insert_ne; [done|].
      unfold average_path. intros H. apply pjoin_inj in H as [H _]. done.
  - f_equal. apply set_eq. intros s.
    rewrite elem_of_not_started, is_dir_false, Hbelow.
    unfold specimens. rewrite elem_of_list_to_set.
    split; [by intros [? _]|intros ?; by split].
Qed.

(** What a completed stage leaves to the stages after it. *)
Lemma after_stage_ready fs fs' w sid :
  (∀ sid', sid' ∈ stage_ids J → out_dir J ≠ r // sid') →
  stage_ids J !! i w = Some sid → run_ready J r fs (i w) →
  <[r // sid := Dir]> fs ⊆ fs' → no_orphans fs' →
  stage_frame J (enter_stage sid (r // sid) w) (<[r // sid := Dir]> fs) fs' →
  run_ready J r fs' (S (i w)).
Proof.
  intros Hout Hsid (Hno & Ha & Hr & Hfree) Hsub Hno' Hfr.
  destruct (Hfree (i w) sid (le_n _) Hsid) as [Hn _].
  destruct Hlay as (_ & _ & Hra & Hnames).
  assert (fs ⊆ <[r // sid := Dir]> fs) as Hsub0 by by apply stat_None_insert.
  split_and!; [done| | |].
  - eapply is_dir_weaken; [|exact Ha]. by etrans.
  - eapply stat_weaken; [|exact Hr]. by etrans.
  - intros k sid' Hk Hsid'.
    destruct (Hfree k sid' ltac:(lia) Hsid') as [Hn' Havg'].
    assert (sid ≠ sid') as Hne by (eapply stage_ids_ne; [done|done|lia]).
    pose proof (list_elem_of_lookup_2 _ _ _ Hsid) as Hin.
    pose proof (list_elem_of_lookup_2 _ _ _ Hsid') as Hin'.
    destruct (Hnames sid Hin) as [Hda _].
    split.
    + rewrite Hfr; simpl.
      * rewrite stat_insert_ne; [done|]. intros H.
        apply pjoin_inj in H as [_ H]. done.
      * unfold average_path. intros H. apply pjoin_inj in H as [H _]. done.
      * rewrite parent_pjoin. apply not_eq_sym, pjoin_ne_self.
      * rewrite parent_pjoin. apply parent_ne_child.
    + rewrite Hfr; simpl.
      * rewrite stat_insert_ne; [done|]. unfold average_path. intros H.
        apply pjoin_inj in H as [H _]. done.
      * unfold average_path. intros H. apply pjoin_inj in H as [_ H].
        apply string_app_inj_r in H. done.
      * unfold average_path. rewrite parent_pjoin. by apply not_eq_sym.
      * unfold average_path, avg_dir. rewrite !parent_pjoin. by apply Hout.
Qed.
End whole.

Section whole_run.
Context (J : Job) (r : path) (Hlay : layout J r).
Context (Hout : ∀ sid, sid ∈ stage_ids J → out_dir J ≠ r // sid).
Implicit Types (fs : FileSystem) (w : worker) (c : sched).


Lemma lone_stages t : ∀ fs w cs,
  pc w = L71_next_stage → n_stages J = i w + t → run_ready J r fs (i w) →
  Forall (λ c, ext_ok c = true) cs →
  length cs = t * stage_steps J + 1 →
  ∃ fs' w' ev,
    wrun J cs fs w = (fs', w', ev) ∧ pc w' = Returned ∧
    countb is_run ev = t * size (specimens J) ∧
    countb is_sleep ev = 0.
Proof.
  induction t as [|t IH]; intros fs w cs Hpc Hn Hr Hok Hlen.
  - destruct cs as [|c [|? ?]]; simpl in Hlen; try lia.
    exists fs, (goto Returned w), []. split_and!; try done.
    rewrite (wrun_cons J c _ fs w fs (goto Returned w) []); [done|].
    apply step_return; [done|]. apply lookup_ge_None.
    unfold stage_ids, n_stages in *. lia.
  - destruct (lookup_lt_is_Some_2 (stage_ids J) (i w)) as [sid Hsid].
    { unfold stage_ids, n_stages in *. lia. }
    destruct cs as [|c cs]; [simpl in Hlen; lia|].
    apply Forall_cons in Hok as [_ Hok].
    set (m := size (specimens J)) in *.
    set (cs1 := take (6 * m + 7) cs). set (cs2 := drop (6 * m + 7) cs).
    assert (length cs = (6 * m + 7) + (t * stage_steps J + 1)) as Hlen'.
    { simpl in Hlen. unfold stage_steps in *. fold m in Hlen |- *. lia. }
    assert (length cs1 = 6 * m + 7) as Hl1.
    { unfold cs1. rewrite length_take. lia. }
    assert (length cs2 = t * stage_steps J + 1) as Hl2.
    { unfold cs2. rewrite length_drop. lia. }
    set (fs1 := <[r // sid := Dir]> fs).
    set (w1 := enter_stage sid (r // sid) w).
    destruct (entered_ready J r Hlay fs w sid Hsid Hr) as [Hr1 Hsz].
    fold fs1 w1 m in Hr1, Hsz.
    destruct (lone_stage J m fs1 w1 cs1 eq_refl Hr1) as
      (fs2 & w2 & ev2 & Hrun2 & Hsub2 & Hpc2 & Hi2 & _ & _ & _ & _ &
       Hc1 & _ & Hc3 & Hno2 & Hfr2).
    { by apply Forall_take. }
    { exact Hsz. }
    { by rewrite Hl1. }
    assert (i w2 = S (i w)) as Hi2' by exact Hi2.
    destruct (IH fs2 w2 cs2 Hpc2) as (fs' & w' & ev & Hrun & Hpc' & Hc1' & Hc3').
    { lia. }
    { rewrite Hi2'. by eapply (after_stage_ready J r Hlay fs fs2 w sid). }
    { by apply Forall_drop. }
    { done. }
    exists fs', w', (ev2 ++ ev). split_and!.
    + rewrite (wrun_cons J c _ fs w fs1 w1 []
                 (step_next_stage J r Hlay c fs w sid Hpc Hsid Hr)).
      rewrite <- (take_drop (6 * m + 7) cs). fold cs1 cs2.
      by rewrite wrun_app, Hrun2, Hrun.
    + done.
    + rewrite countb_app, Hc1, Hc1'. simpl. lia.
    + rewrite countb_app, Hc3, Hc3'. done.
Qed.
End whole_run.

Lemma run_single J cs : ∀ fs w tr fs' w' ev,
  Forall (λ c, who c = 0) cs → wrun J cs fs w = (fs', w', ev) →
  run J cs {| sys_fs := fs; sys_workers := [w]; sys_trace := tr |} =
    {| sys_fs := fs'; sys_workers := [w'];
       sys_trace := tr ++ (pair 0 <$> ev) |}.
Proof.
  induction cs as [|c cs IH]; intros fs w tr fs' w' ev Hwho H; simpl in H.
  - simplify_eq. simpl. by rewrite app_nil_r.
  - apply Forall_cons in Hwho as [Hc Hwho].
    destruct (wstep J c fs w) as [[fs1 w1] ev1] eqn:H1.
    destruct (wrun J cs fs1 w1) as [[fs2 w2] ev2] eqn:H2. simplify_eq.
    change (run J (c :: cs) ?s0) with (run J cs (sys_step J s0 c)).
    assert (sys_step J
              {| sys_fs := fs; sys_workers := [w]; sys_trace := tr |} c =
            {| sys_fs := fs1; sys_workers := [w1];
               sys_trace := tr ++ (pair 0 <$> ev1) |}) as ->.
    { unfold sys_step. simpl. rewrite Hc. simpl. by rewrite H1. }
    rewrite (IH fs1 w1 _ fs' w' ev2 Hwho H2).
    by rewrite fmap_app, app_assoc.
Qed.

Lemma layout_distinct J r : layout J r → stage_dirs_distinct J.
Proof.
  intros Hlay j j' sid sid' sd Hj Hj'.
  assert (∀ k x y, stage_at J k = Some (x, y) → y = r // x) as Hshape.
  { intros k x y Hk. pose proof Hk as Hk'. unfold stage_at in Hk'.
    destruct (registration_stage_params (config J) !! k) as [x'|] eqn:Hx;
      [|done].
    rewrite (stage_at_layout J r Hlay k x' Hx) in Hk. by simplify_eq. }
  apply Hshape in Hj, Hj'. subst sd. by apply pjoin_inj in Hj' as [_ ?].
Qed.

(** X12.  A worker on its own runs to completion.  For a configuration
    whose stage directories are the children [r / stage_id] of one directory
    (see [layout]), started alone on an output directory in which no stage
    was begun (see [fresh_output]), with the engine and the averaging
    succeeding, [run_elastix_stage] returns after two steps plus, for each
    stage, [stage_steps] steps.  The engine was called once per stage and
    specimen, the worker never slept, and every stage has its average, its
    [avg_done] and the [spec_done] of every specimen. *)
Theorem X12_lone_worker_runs_to_completion (J : Job) (r : path)
    (fs0 : FileSystem) (cs : list sched) :
  layout J r → fresh_output J r fs0 →
  Forall (λ c, who c = 0 ∧ ext_ok c = true) cs →
  length cs = n_stages J * stage_steps J + 2 →
  let s := run J cs (start fs0 1) in
  ∃ w, sys_workers s = [w] ∧ pc w = Returned ∧
    countb (λ e, is_run e.2) (sys_trace s)
      = n_stages J * size (specimens J) ∧
    countb (λ e, is_sleep e.2) (sys_trace s) = 0 ∧
    ∀ sid, sid ∈ stage_ids J →
      is_file (sys_fs s) (average_path J sid) = true ∧
      is_file (sys_fs s) (average_done (r // sid)) = true ∧
      ∀ sp, sp ∈ spec_ids J →
        is_file (sys_fs s) (spec_done (r // sid) sp) = true.
Proof.
  intros Hlay (Hno & Hod & Hr & Hanf & Hfree) Hcs Hlen s.
  assert (∀ sid, sid ∈ stage_ids J → out_dir J ≠ r // sid) as Hout.
  { intros sid Hsid Heq. destruct (Hfree sid Hsid) as [Hn _]. congruence. }
  destruct cs as [|c0 cs]; [simpl in Hlen; lia|].
  assert (Forall (λ c, who c = 0) (c0 :: cs)) as Hwho.
  { eapply Forall_impl; [exact Hcs|]. by intros c [? _]. }
  assert (Forall (λ c, ext_ok c = true) cs) as Hok.
  { apply Forall_cons in Hcs as [_ Hcs].
    eapply Forall_impl; [exact Hcs|]. by intros c [_ ?]. }
  set (wA := set_fixed_vol (fixed_volume (config J)) fresh_worker).
  assert (∃ fsA, wstep J c0 fs0 fresh_worker = (fsA, wA, []) ∧
                 run_ready J r fsA 0) as (fsA & HA & HrA).
  { unfold wstep. simpl. unfold mkdir_exist_ok, resolve_parent.
    destruct Hlay as (_ & _ & Hra & Hnames).
    destruct (stat fs0 (avg_dir J)) as [[|]|] eqn:Ha; [done| |].
    - exists fs0. split; [done|]. split_and!; [done|by apply is_dir_true|done|].
      intros k sid _ Hk. apply Hfree. by eapply list_elem_of_lookup_2.
    - unfold avg_dir at 1. rewrite parent_pjoin, Hod.
      exists (<[avg_dir J := Dir]> fs0). split; [done|].
      assert (fs0 ⊆ <[avg_dir J := Dir]> fs0) as Hsub
        by by apply stat_None_insert.
      split_and!.
      + apply no_orphans_insert; [done|apply pjoin_nonempty| |done].
        unfold avg_dir. by rewrite parent_pjoin.
      + apply is_dir_true, stat_insert, pjoin_nonempty.
      + by eapply stat_weaken.
      + intros k sid _ Hk. apply list_elem_of_lookup_2 in Hk.
        destruct (Hfree sid Hk) as [Hn Hp]. destruct (Hnames sid Hk) as [Hda _].
        split.
        * rewrite stat_insert_ne; [done|]. by apply not_eq_sym.
        * rewrite stat_insert_ne; [done|]. unfold average_path.
          apply not_eq_sym, pjoin_ne_self. }
  destruct (lone_stages J r Hlay Hout (n_stages J) fsA wA cs eq_refl)
    as (fs' & w' & ev & Hrun & Hpc & Hc1 & Hc3); [done|done|done| |].
  { simpl in Hlen. lia. }
  assert (s = {| sys_fs := fs'; sys_workers := [w'];
                 sys_trace := [] ++ (pair 0 <$> ([] ++ ev)) |}) as Hs.
  { unfold s, start. simpl replicate.
    apply (run_single J (c0 :: cs) fs0 fresh_worker [] fs' w' ([] ++ ev));
      [done|].
    by rewrite (wrun_cons J c0 cs fs0 fresh_worker fsA wA [] HA), Hrun. }
  simpl in Hs.
  exists w'. split_and!.
  - by rewrite Hs.
  - done.
  - rewrite Hs. simpl. by rewrite countb_fmap.
  - rewrite Hs. simpl. by rewrite countb_fmap.
  - intros sid Hsid.
    assert (sys_workers s !! 0 = Some w') as Hw by by rewrite Hs.
    destruct (complete_inv_run J (c0 :: cs) fs0 1 0 w' Hw)
      as (_ & (_ & _ & Hdone) & (_ & Hret & Hleft)).
    fold s in Hdone, Hleft. specialize (Hret Hpc).
    apply list_elem_of_lookup_1 in Hsid as [j Hj].
    pose proof (stage_at_layout J r Hlay j sid Hj) as Hat.
    assert (j < i w')%nat as Hlt.
    { rewrite Hret. apply lookup_lt_Some in Hj. exact Hj. }
    pose proof (Hdone j sid (r // sid) Hlt Hat) as Hdn.
    split_and!; [|done|].
    + apply (averages_sound_run J (layout_distinct J r Hlay) (c0 :: cs) fs0 1)
        with (j := j) (sd := r // sid); [|done|done].
      intros j' sid' sd' Hat' Hf. exfalso.
      assert (∃ x, sd' = r // x ∧ x ∈ stage_ids J) as (x & -> & Hx).
      { pose proof Hat' as Hk. unfold stage_at in Hk.
        destruct (registration_stage_params (config J) !! j') as [x'|] eqn:Hx;
          [|done].
        rewrite (stage_at_layout J r Hlay j' x' Hx) in Hat'.
        injection Hat' as _ <-.
        exists x'. split; [done|]. by eapply list_elem_of_lookup_2. }
      destruct (Hfree x Hx) as [Hn _].
      apply is_file_true in Hf. unfold average_done in Hf.
      by rewrite (absent_below fs0 _ _ Hno Hn) in Hf.
    + destruct (Hleft j Hlt) as (sid2 & sd2 & Hat2 & Hsp).
      rewrite Hat in Hat2. by simplify_eq.
Qed.


Lemma X12_lone_worker_runs_to_completion_witness :
  let s := run job2 (gos 0 54) (start fs_clean 1) in
  layout job2 ["out"] ∧ fresh_output job2 ["out"] fs_clean ∧
  ∃ w, sys_workers s = [w] ∧ pc w = Returned ∧
       countb (λ e, is_run e.2) (sys_trace s) = 6 ∧
       is_file (sys_fs s) (average_path job2 "affine") = true.
Proof.
  cbv zeta.
  assert (layout job2 ["out"]) as Hlay.
  { split_and!.
    - reflexivity.
    - apply (bool_decide_unpack _). by vm_compute.
    - by vm_compute.
    - intros sid Hsid. simpl in Hsid.
      repeat (apply elem_of_cons in Hsid as [->|Hsid];
              [split; [by vm_compute|];
               intros s Hs; simpl in Hs;
               repeat (apply elem_of_cons in Hs as [->|Hs];
                       [unfold reserved_names; rewrite !not_elem_of_cons;
                        split_and!; try done; apply not_elem_of_nil|]);
               by apply elem_of_nil in Hs|]).
      by apply elem_of_nil in Hsid. }
  assert (fresh_output job2 ["out"] fs_clean) as Hfresh.
  { split_and!; try by vm_compute.
    - intros p Hp [x Hx]. rewrite stat_lookup in Hx by done.
      unfold fs_clean in Hx. apply lookup_singleton_Some in Hx as [<- _].
      by vm_compute.
    - intros sid Hsid. simpl in Hsid.
      repeat (apply elem_of_cons in Hsid as [->|Hsid]; [by vm_compute|]).
      by apply elem_of_nil in Hsid. }
  assert (Forall (λ c, who c = 0 ∧ ext_ok c = true) (gos 0 54)) as Hcs
    by (unfold gos; apply Forall_replicate; by split).
  assert (length (gos 0 54) = n_stages job2 * stage_steps job2 + 2) as Hlen
    by (vm_compute; reflexivity).
  assert (n_stages job2 * size (specimens job2) = 6) as Hsix
    by (vm_compute; reflexivity).
  assert ("affine" ∈ stage_ids job2) as Hin by (simpl; elem_of_list).
  pose proof (X12_lone_worker_runs_to_completion job2 ["out"] fs_clean
                (gos 0 54) Hlay Hfresh Hcs Hlen) as H.
  cbv zeta in H. destruct H as (w & Hw & Hpc & Hc & _ & Hfiles).
  rewrite Hsix in Hc.
  exact (conj Hlay (conj Hfresh (ex_intro _ w
           (conj Hw (conj Hpc (conj Hc (proj1 (Hfiles "affine" Hin)))))))).
Defined.

(** ** A second run *)


Section rerun.
Context (J : Job) (fs0 : FileSystem) (Hcomplete : complete_output J fs0).

Lemma wstep_rerun c w :
  rerun_inv J w →
  ∃ w', wstep J c fs0 w = (fs0, w', []) ∧ rerun_inv J w' ∧
        steps_left J w' = pred (steps_left J w).
Proof.
  destruct Hcomplete as (Hno & Ha & Hst). intros Hw.
  unfold rerun_inv in Hw. unfold wstep. unfold steps_left at 2.
  destruct (pc w) eqn:Hpc; try done.
  - (* line 61 *)
    apply is_dir_true in Ha. unfold mkdir_exist_ok. rewrite Ha.
    eexists. split; [done|]. unfold rerun_inv, steps_left. simpl.
    rewrite Hw. split; lia.
  - (* line 71 *)
    destruct (decide (i w < n_stages J)%nat) as [Hlt|Hge].
    + destruct (Hst (i w) Hlt) as (sid & sd & Hat & Hd & _).
      pose proof Hat as Hat'. unfold stage_at in Hat'.
      destruct (registration_stage_params (config J) !! i w) as [sid'|];
        [|done].
      destruct (dict_get (stage_dirs (config J)) sid') as [sd'|]; [|done].
      simplify_eq. apply is_dir_true in Hd.
      unfold mkdir_parents. rewrite (makedirs_existing fs0 sd []) by done.
      eexists. split; [done|]. unfold rerun_inv, steps_left. simpl.
      split; [done|]. lia.
    + assert (registration_stage_params (config J) !! i w = None) as ->.
      { apply lookup_ge_None. unfold n_stages in *. lia. }
      eexists. split; [done|]. unfold rerun_inv, steps_left. simpl.
      split; [done|]. lia.
  - (* line 86 *)
    assert (i w < n_stages J)%nat as Hlt by by eapply stage_at_lt.
    destruct (Hst (i w) Hlt) as (sid & sd & Hat & _ & Hdirs & _).
    rewrite Hw in Hat. simplify_eq. cbv zeta.
    assert (not_started J fs0 (stage_dir w) = ∅) as ->.
    { apply set_eq. intros s. rewrite elem_of_not_started.
      split; [|by intros ?%not_elem_of_empty].
      intros [Hs Hnd]. by rewrite Hdirs in Hnd. }
    rewrite size_empty. rewrite bool_decide_eq_false_2 by lia.
    eexists. split; [done|]. unfold rerun_inv, steps_left. simpl.
    split; [done|]. lia.
  - (* line 94 *)
    assert (i w < n_stages J)%nat as Hlt by by eapply stage_at_lt.
    destruct (Hst (i w) Hlt) as (sid & sd & Hat & _ & _ & Hdone & _).
    rewrite Hw in Hat. simplify_eq. rewrite Hdone. simpl.
    eexists. split; [done|]. unfold rerun_inv, steps_left. simpl.
    split; [done|]. lia.
  - (* line 99 *)
    assert (i w < n_stages J)%nat as Hlt by by eapply stage_at_lt.
    destruct (Hst (i w) Hlt) as (sid & sd & Hat & _ & _ & _ & Hf).
    rewrite Hw in Hat. simplify_eq. rewrite Hf.
    eexists. split; [done|]. unfold rerun_inv, steps_left. simpl.
    split; lia.
  - (* returned *)
    exists w. split; [done|]. unfold rerun_inv, steps_left.
    by rewrite Hpc.
Qed.

Lemma untouched_step s c : untouched J fs0 s → untouched J fs0 (sys_step J s c).
Proof.
  intros (Hfs & Htr & Hws). unfold sys_step.
  destruct (sys_workers s !! who c) as [w|] eqn:Hw; [|done].
  destruct (wstep_rerun c w (Hws _ _ Hw)) as (w' & Hstep & Hinv & _).
  rewrite Hfs, Hstep. split_and!; simpl; [done|by rewrite Htr|].
  intros k w0 Hk.
  apply list_lookup_insert_Some in Hk as [(_ & <- & _)|[_ Hk]]; eauto.
Qed.

Lemma steps_left_run cs : ∀ s k w,
  untouched J fs0 s → sys_workers s !! k = Some w →
  ∃ w', sys_workers (run J cs s) !! k = Some w' ∧
        steps_left J w' = steps_left J w - sched_count k cs.
Proof.
  induction cs as [|c cs IH]; intros s k w Hs Hk.
  - exists w. split; [done|]. unfold sched_count. simpl. lia.
  - pose proof (untouched_step s c Hs) as Hs'.
    change (run J (c :: cs) s) with (run J cs (sys_step J s c)).
    unfold sched_count. simpl. fold (sched_count k cs).
    destruct Hs as (Hfs & Htr & Hws).
    destruct (decide (who c = k)) as [Hc|Hc].
    + rewrite bool_decide_eq_true_2 by done.
      destruct (wstep_rerun c w (Hws _ _ Hk)) as (w1 & Hstep & _ & Hl).
      destruct (IH (sys_step J s c) k w1 Hs') as (w' & Hk' & Hl').
      { unfold sys_step. rewrite Hc, Hk, Hfs, Hstep. simpl.
        apply list_lookup_insert_eq. by eapply lookup_lt_Some. }
      exists w'. split; [done|]. lia.
    + rewrite bool_decide_eq_false_2 by done.
      destruct (IH (sys_step J s c) k w Hs') as (w' & Hk' & Hl').
      { unfold sys_step. destruct (sys_workers s !! who c) as [w0|]; [|done].
        destruct (wstep J c (sys_fs s) w0) as [[? ?] ?]. simpl.
        by rewrite list_lookup_insert_ne. }
      exists w'. split; [done|]. simpl. lia.
Qed.

Lemma untouched_start n : untouched J fs0 (start fs0 n).
Proof.
  split_and!; [done|done|]. intros k w Hk.
  by apply lookup_replicate in Hk as [-> _].
Qed.

Lemma returned_steps_left w :
  rerun_inv J w → (pc w = Returned ↔ steps_left J w = 0).
Proof.
  unfold rerun_inv, steps_left. destruct (pc w) eqn:Hpc; try done.
  - intros _. split; [done|lia].
  - intros _. split; [done|lia].
  - intros Hat. apply stage_at_lt in Hat. split; [done|lia].
  - intros Hat. apply stage_at_lt in Hat. split; [done|lia].
  - intros Hat. apply stage_at_lt in Hat. split; [done|lia].
Qed.
End rerun.

(** X13.  Running again on a complete output directory changes nothing.
    When every stage is complete (see [complete_output]), then for any
    number of workers and any interleaving the filesystem stays as it is, no
    engine call, averaging, creation or sleep is logged, no worker raises,
    and a worker has returned exactly when it has taken
    [4 * stages + 2] steps: line 61, then lines 71, 86, 94 and 99 for each
    stage, then line 71 once more. *)
Theorem X13_rerun_on_complete_output_changes_nothing (J : Job) (n : nat)
    (fs0 : FileSystem) (cs : list sched) :
  complete_output J fs0 →
  let s := run J cs (start fs0 n) in
  sys_fs s = fs0 ∧ sys_trace s = [] ∧
  ∀ k w, sys_workers s !! k = Some w →
    (∀ e, pc w ≠ Raised e) ∧
    (pc w = Returned ↔ (4 * n_stages J + 2 ≤ sched_count k cs)%nat).
Proof.
  intros Hc s.
  assert (untouched J fs0 s) as (Hfs & Htr & Hws).
  { apply run_invariant; [apply untouched_step; done|apply untouched_start]. }
  split_and!; [done|done|]. intros k w Hw. split.
  - intros e He. specialize (Hws k w Hw). unfold rerun_inv in Hws.
    by rewrite He in Hws.
  - assert (k < n)%nat as Hk.
    { apply lookup_lt_Some in Hw. unfold s in Hw.
      assert (∀ cs' s', length (sys_workers (run J cs' s')) =
                         length (sys_workers s')) as Hlen.
      { induction cs' as [|c cs' IH]; intros s'; [done|].
        change (run J (c :: cs') s') with (run J cs' (sys_step J s' c)).
        rewrite IH. unfold sys_step.
        destruct (sys_workers s' !! who c); [|done].
        destruct (wstep J c (sys_fs s') w0) as [[? ?] ?]. simpl.
        by rewrite length_insert. }
      rewrite Hlen in Hw. simpl in Hw. by rewrite length_replicate in Hw. }
    destruct (steps_left_run J fs0 Hc cs (start fs0 n) k fresh_worker)
      as (w' & Hw' & Hl); [apply untouched_start|by apply lookup_replicate|].
    fold s in Hw'. rewrite Hw in Hw'. simplify_eq.
    rewrite (returned_steps_left J w' (Hws k w' Hw)), Hl.
    unfold steps_left at 1. simpl. lia.
Qed.

Lemma X13_rerun_on_complete_output_changes_nothing_witness :
  let s := run job1 (gos 0 6 ++ gos 1 3) (start fs_complete 2) in
  complete_output job1 fs_complete ∧
  sys_fs s = fs_complete ∧ sys_trace s = [] ∧
  pc <$> sys_workers s = [Returned; L94_barrier].
Proof.
  cbv zeta.
  assert (complete_output job1 fs_complete) as Hc.
  { split_and!.
    - intros p Hp [x Hx]. rewrite stat_lookup in Hx by done.
      apply elem_of_list_to_map_2 in Hx.
      repeat (apply elem_of_cons in Hx as [Hx|Hx];
              [injection Hx as -> ->; by vm_compute|]).
      by apply elem_of_nil in Hx.
    - by vm_compute.
    - intros j Hj. assert (j = 0) as -> by (vm_compute in Hj; lia).
      exists "rigid", rigid. split_and!; try by vm_compute.
      intros s Hs. simpl in Hs.
      repeat (apply elem_of_cons in Hs as [->|Hs]; [by vm_compute|]).
      by apply elem_of_nil in Hs. }
  destruct (X13_rerun_on_complete_output_changes_nothing job1 2 fs_complete
              (gos 0 6 ++ gos 1 3) Hc) as (Hfs & Htr & _).
  split_and!; [exact Hc|exact Hfs|exact Htr|].
  vm_compute. reflexivity.
Defined.
